(** * Image build cache resolution (daemon/internal/image/cache/cache.go)

    A shallow embedding of the two build caches of the daemon: the local
    parent-chain cache ([getLocalCachedImage]) and the history-based cache
    ([ImageCache.GetCache] with [restoreCachedImage]).

    Conventions of the embedding:
    - Go packages become modules ([layer], [ocispec], [containertypes],
      [image], [cache]); names are the source's.
    - A Go pointer that may be nil is an [option]; a Go [(value, error)]
      pair is a [result] or a pair with an [option error].
    - A run-time panic (index out of range, nil dereference) is an explicit
      [None] / [ExitPanic].
    - The image store is an interface in the source; it is a type class
      here, over an abstract store state.  Every call made on the store is
      recorded in a list of [StoreCall]s, so that "the store is not
      consulted" is a statement about that list. *)

From stdpp Require Import base option list strings numbers gmap.

Local Open Scope string_scope.

(** ** Go values used by the cache *)

(** [time.Time].  [instant] is the point on the time line the value
  denotes, which [Before] orders strictly; [zone] is the rest of the
  value (its location), which [Before] does not read and which a
  comparison of whole values ([reflect.DeepEqual]) does: two values of
  one instant in two zones are different values, neither before the
  other.  The values are those read back from image configurations,
  which carry no monotonic clock reading. *)
Module time.
Record Time := {
  instant : Z;
  zone : string }.

Definition Before (t u : Time) : bool := Z.ltb (instant t) (instant u).

#[global] Instance Time_eq_dec : EqDecision Time.
Proof. solve_decision. Defined.
End time.

(** Where an integer is expected, a [time.Time] is read as its instant. *)
Coercion time.instant : time.Time >-> Z.

(** Go [error] values.  [StoreError] is an error value of the store's
  own making, whatever its text; [Errorf] is [fmt.Errorf] with one
  argument; [Wrapf] is [errors.Wrapf]/[errors.Wrap] with its arguments.
  [ContextCanceled] and [ContextDeadlineExceeded] are the two sentinel
  values of package [context]: [errors.Is] recognises a sentinel by
  identity, not by its text, so they are values of their own, which no
  [StoreError] equals even when it carries the same message. *)
Inductive error :=
| StoreError (msg : string)
| Errorf (format : string) (arg : string)
| Wrapf (cause : error) (format : string) (args : list string)
| ContextCanceled
| ContextDeadlineExceeded.

Definition result (A : Type) : Type := A + error.
Abbreviation Ok := inl (only parsing).
Abbreviation Err := inr (only parsing).

(** [strings.Join]. *)
Module strings.
Definition Join (elems : list string) (sep : string) : string :=
  String.concat sep elems.
End strings.

Module layer.
Abbreviation DiffID := string.
End layer.

Module ocispec.
(** One build step ([image.History] is an alias of this type), with all
    the fields of the type: the cache reads [Created], [CreatedBy] and
    [EmptyLayer], and [isValidParent] compares whole entries.  [Created]
    is a pointer in the source; two entries are deeply equal when both
    pointers are nil or both point to equal times, which is equality of
    the [option]s. *)
Record History := {
  Created : option time.Time;
  CreatedBy : string;
  Author : string;
  Comment : string;
  EmptyLayer : bool }.

Record Platform := {
  Architecture : string;
  OS : string;
  OSVersion : string;
  OSFeatures : list string;
  Variant : string }.

#[global] Instance History_eq_dec : EqDecision History.
Proof. solve_decision. Defined.
End ocispec.

Module containertypes.
(** [container.Config]; the cache itself reads [Cmd] only, the other
    fields matter to [compare] alone. *)
Record Config := {
  Cmd : list string;
  Env : list string }.
End containertypes.

Module image.
Abbreviation ID := string.

Record RootFS := {
  Type_ : string;
  DiffIDs : list layer.DiffID }.

(** [image.Image], with the fields of the embedded [V1Image] promoted as
    Go does.  [computedID] is what [ID()] returns.  [rootFS] is the
    [RootFS] field (a non-nil pointer for every image the store hands
    out). *)
Record Image := {
  computedID : ID;
  DockerVersion : string;
  Config : option containertypes.Config;
  ContainerConfig : containertypes.Config;
  Architecture : string;
  OS : string;
  Author : string;
  Created : option time.Time;
  Variant : string;
  rootFS : RootFS;
  History : list ocispec.History;
  OSFeatures : list string;
  OSVersion : string }.

(** Modelled from the spec: the constant [TypeLayers] and [NewRootFS] are
    declared outside this tree; the spec calls the result "a fresh empty
    RootFS". *)
Definition TypeLayers : string := "layers".
Definition NewRootFS : RootFS := {| Type_ := TypeLayers; DiffIDs := [] |}.

(** Modelled from the spec: [RootFS.Append] (pointer receiver) is declared
    outside this tree; it appends one diff-ID to the diff list. *)
Definition Append (r : RootFS) (id : layer.DiffID) : RootFS :=
  {| Type_ := Type_ r; DiffIDs := DiffIDs r ++ [id] |}.

(** Modelled from the spec: [Image.Platform] is declared outside this
    tree; the spec lists the platform (OS/architecture/variant) as an
    attribute of the image. *)
Definition Platform (img : Image) : ocispec.Platform :=
  {| ocispec.Architecture := Architecture img;
     ocispec.OS := OS img;
     ocispec.OSVersion := OSVersion img;
     ocispec.OSFeatures := OSFeatures img;
     ocispec.Variant := Variant img |}.

(** The invariant of the data model:
    [len(RootFS.DiffIDs)] is the number of non-empty-layer history entries. *)
Definition nonEmptyLayers (hs : list ocispec.History) : nat :=
  length (filter (fun h => ocispec.EmptyLayer h = false) hs).

Definition lockstep (img : Image) : Prop :=
  length (DiffIDs (rootFS img)) = nonEmptyLayers (History img).
End image.

(** Modelled from the spec: the builder's version string is a link-time
  constant declared outside this tree. *)
Module dockerversion.
Definition Version : string := "library-import".
End dockerversion.

(** ** The cache *)

Module cache.

(** *** The store interface *)

(** One entry per method call made on the store. *)
Inductive StoreCall :=
| CallGet (id : image.ID)
| CallSetParent (target parent : image.ID)
| CallGetParent (target : image.ID)
| CallCreate (parent : option image.Image) (img : image.Image)
             (extraLayer : layer.DiffID)
| CallIsBuiltLocally (id : image.ID)
| CallChildren (id : image.ID).

(** [ImageCacheStore], over the state [S] of a store.  The read methods are
    functions of the state; [SetParent] and [Create] also return the state
    they leave behind.  [GetByRef] serves [New] only and is left out. *)
Class ImageCacheStore (S : Type) := {
  Get : S -> image.ID -> result image.Image;
  SetParent : S -> image.ID -> image.ID -> option error * S;
  GetParent : S -> image.ID -> result image.ID;
  Create : S -> option image.Image -> image.Image -> layer.DiffID ->
           result image.ID * S;
  IsBuiltLocally : S -> image.ID -> result bool;
  Children : S -> image.ID -> list image.ID }.

(** *** Pure helpers *)

(** The loop of [getLayerForHistoryIndex]: either the early [return ""]
    or the value of [layerIndex] when the loop is left. *)
Inductive LayerLookup :=
| ReturnEmpty
| IndexAt (layerIndex : nat).

Fixpoint layerLoop (hs : list ocispec.History) (i index layerIndex : nat)
  : LayerLookup :=
  match hs with
  | [] => IndexAt layerIndex
  | h :: rest =>
      if bool_decide (i = index) then
        if ocispec.EmptyLayer h then ReturnEmpty else IndexAt layerIndex
      else
        layerLoop rest (S i) index
          (if ocispec.EmptyLayer h then layerIndex else S layerIndex)
  end.

(** [None] is the index-out-of-range panic of [DiffIDs[layerIndex]].  The
    only caller passes a length for [index]. *)
Definition getLayerForHistoryIndex (img : image.Image) (index : nat)
  : option layer.DiffID :=
  match layerLoop (image.History img) 0 index 0 with
  | ReturnEmpty => Some ""
  | IndexAt layerIndex => image.DiffIDs (image.rootFS img) !! layerIndex
  end.

(** [None] is the nil dereference of [cfg.Cmd]. *)
Definition isValidConfig (cfg : option containertypes.Config)
  (h : ocispec.History) : option bool :=
  match cfg with
  | None => None
  | Some c =>
      Some (bool_decide
              (strings.Join (containertypes.Cmd c) " " = ocispec.CreatedBy h))
  end.

(** [for i, x := range xs { if x != ys[i] { return false } }]; [None] is an
    index out of range in [ys]. *)
Fixpoint rangeEqual {A} `{EqDecision A} (i : nat) (xs ys : list A)
  : option bool :=
  match xs with
  | [] => Some true
  | x :: rest =>
      match ys !! i with
      | None => None
      | Some y =>
          if bool_decide (x = y) then rangeEqual (S i) rest ys else Some false
      end
  end.

Definition isValidParent (img : image.Image) (parent : option image.Image)
  : option bool :=
  if bool_decide (length (image.History img) = 0) then Some false
  else
    match parent with
    | None => Some true
    | Some p =>
        if bool_decide (length (image.History p) = 0)
           && bool_decide (length (image.DiffIDs (image.rootFS p)) = 0)
        then Some true
        else if bool_decide
                  (length (image.History img) <= length (image.History p))
        then Some false
        else if bool_decide
                  (length (image.DiffIDs (image.rootFS img))
                   < length (image.DiffIDs (image.rootFS p)))
        then Some false
        else
          match rangeEqual 0 (image.History p) (image.History img) with
          | None => None
          | Some false => Some false
          | Some true =>
              rangeEqual 0 (image.DiffIDs (image.rootFS p))
                (image.DiffIDs (image.rootFS img))
          end
    end.

Definition getImageIDAndError (img : option image.Image) (err : option error)
  : string * option error :=
  match img, err with
  | Some i, None => (image.computedID i, None)
  | _, _ => ("", err)
  end.

(** *** The two caches, over any store *)

Section WithStore.
Context {S : Type} `{ImageCacheStore S}.

(** [comparePlatform] and [compare] live in a sibling file that is not part
    of this tree; the cache is parametric in them. *)
Variable comparePlatform : ocispec.Platform -> ocispec.Platform -> bool.
Variable compare : containertypes.Config -> containertypes.Config -> bool.

(** The update of [match] at the end of the loop body, lines 268-273:
    [img.Created != nil && (match == nil || match.Created.Before( *img.Created))].
    [None] is the nil dereference of [match.Created]. *)
Definition updateMatch (match_ : option image.Image) (img : image.Image)
  : option (option image.Image) :=
  match image.Created img with
  | None => Some match_
  | Some created =>
      match match_ with
      | None => Some (Some img)
      | Some m =>
          match image.Created m with
          | None => None
          | Some mcreated =>
              if time.Before mcreated created then Some (Some img)
              else Some match_
          end
      end
  end.

(** The loop body of [getLocalCachedImage] after [Get] succeeded, lines
    247-273: the value of [match] after the iteration ([None]: panic).
    [builtLocally] is what [IsBuiltLocally(id)] returned. *)
Definition visitChild (config : containertypes.Config)
  (platform : ocispec.Platform) (builtLocally : result bool)
  (img : image.Image) (match_ : option image.Image)
  : option (option image.Image) :=
  match builtLocally with
  | Err _ => Some match_                      (* warn, continue *)
  | Ok false => Some match_                   (* continue *)
  | Ok true =>
      let imgPlatform := image.Platform img in
      (* Discard old linux/amd64 images with empty platform. *)
      if bool_decide (ocispec.OS imgPlatform = "")
         && bool_decide (ocispec.Architecture imgPlatform = "")
      then Some match_
      else if negb (comparePlatform platform imgPlatform) then Some match_
      else if compare (image.ContainerConfig img) config
           then updateMatch match_ img
           else Some match_
  end.

(** [for _, id := range imageStore.Children(parentID)], with the calls it
    makes on the store. *)
Fixpoint localLoop (s : S) (config : containertypes.Config)
  (platform : ocispec.Platform) (ids : list image.ID)
  (match_ : option image.Image)
  : option (option image.Image * option error) * list StoreCall :=
  match ids with
  | [] => (Some (match_, None), [])
  | id :: rest =>
      match Get s id with
      | Err _ =>
          (Some (None, Some (Errorf "unable to find image %q" id)),
           [CallGet id])
      | Ok img =>
          match visitChild config platform (IsBuiltLocally s id) img match_ with
          | None => (None, [CallGet id; CallIsBuiltLocally id])
          | Some match' =>
              let '(r, calls) := localLoop s config platform rest match' in
              (r, CallGet id :: CallIsBuiltLocally id :: calls)
          end
      end
  end.

Definition getLocalCachedImage (s : S) (parentID : image.ID)
  (config : option containertypes.Config) (platform : ocispec.Platform)
  : option (option image.Image * option error) * list StoreCall :=
  match config with
  | None => (Some (None, None), [])
  | Some config =>
      let '(r, calls) :=
        localLoop s config platform (Children s parentID) None in
      (r, CallChildren parentID :: calls)
  end.

(** [LocalImageCache.GetCache]: the first component is [None] on a panic,
    else the Go pair [(string, error)]. *)
Definition LocalImageCache_GetCache (s : S) (imgID : string)
  (config : option containertypes.Config) (platform : ocispec.Platform)
  : option (string * option error) * list StoreCall :=
  let '(r, calls) := getLocalCachedImage s imgID config platform in
  (match r with
   | None => None
   | Some (img, err) => Some (getImageIDAndError img err)
   end, calls).

(** [ImageCache]: [store] is the state of the one store that the cache and
    its [localImageCache] share. *)
Record ImageCache := {
  sources : list image.Image;
  store : S }.

Definition Populate (ic : ImageCache) (img : image.Image) : ImageCache :=
  {| sources := sources ic ++ [img]; store := store ic |}.

(** [isParent] recurses along the parent links with no bound of its own;
    [fuel] bounds the depth, [None] says the bound was reached. *)
Fixpoint isParent (fuel : nat) (s : S) (imgID parentID : image.ID)
  : option bool * list StoreCall :=
  match fuel with
  | O => (None, [])
  | Datatypes.S fuel' =>
      match GetParent s imgID with
      | Err _ => (Some false, [CallGetParent imgID])
      | Ok nextParent =>
          if bool_decide (nextParent = parentID) then
            (Some true, [CallGetParent imgID])
          else
            let '(r, calls) := isParent fuel' s nextParent parentID in
            (r, CallGetParent imgID :: calls)
      end
  end.

(** Lines 84-88: [for _, s := range ic.sources { if ic.isParent(...) }]. *)
Fixpoint anyIsParent (fuel : nat) (s : S) (srcs : list image.Image)
  (imgID : image.ID) : option bool * list StoreCall :=
  match srcs with
  | [] => (Some false, [])
  | src :: rest =>
      match isParent fuel s (image.computedID src) imgID with
      | (None, calls) => (None, calls)
      | (Some true, calls) => (Some true, calls)
      | (Some false, calls) =>
          let '(r, calls') := anyIsParent fuel s rest imgID in
          (r, (calls ++ calls')%list)
      end
  end.

(** The image that [restoreCachedImage] hands to [Create], with the layer
    it located; [None] is a panic.  [RootFS] is held by pointer, so the
    [Append] is also seen through [parent]: the first component is the
    parent as [Create] receives it. *)
Definition buildRestoredImage (parent : option image.Image)
  (target : image.Image) (cfg : option containertypes.Config)
  : option (option image.Image * image.Image * layer.DiffID) :=
  let history := match parent with Some p => image.History p | None => [] end in
  let rootFS := match parent with
                | Some p => image.rootFS p
                | None => image.NewRootFS
                end in
  let lenHistory := match parent with
                    | Some p => length (image.History p)
                    | None => 0
                    end in
  h ← image.History target !! lenHistory;
  let history := (history ++ [h])%list in
  layer ← getLayerForHistoryIndex target lenHistory;
  let rootFS := if bool_decide (layer ≠ "") then image.Append rootFS layer
                else rootFS in
  newest ← last history;
  let restoredImg :=
    {| image.computedID := "";
       image.DockerVersion := dockerversion.Version;
       image.Config := cfg;
       image.ContainerConfig :=
         {| containertypes.Cmd := []; containertypes.Env := [] |};
       image.Architecture := image.Architecture target;
       image.OS := image.OS target;
       image.Author := image.Author target;
       image.Created := ocispec.Created newest;
       image.Variant := "";
       image.rootFS := rootFS;
       image.History := history;
       image.OSFeatures := image.OSFeatures target;
       image.OSVersion := image.OSVersion target |} in
  let parent' :=
    match parent with
    | Some p =>
        Some {| image.computedID := image.computedID p;
                image.DockerVersion := image.DockerVersion p;
                image.Config := image.Config p;
                image.ContainerConfig := image.ContainerConfig p;
                image.Architecture := image.Architecture p;
                image.OS := image.OS p;
                image.Author := image.Author p;
                image.Created := image.Created p;
                image.Variant := image.Variant p;
                image.rootFS := rootFS;
                image.History := image.History p;
                image.OSFeatures := image.OSFeatures p;
                image.OSVersion := image.OSVersion p |}
    | None => None
    end in
  Some (parent', restoredImg, layer).

Definition restoreCachedImage (s : S) (parent : option image.Image)
  (target : image.Image) (cfg : option containertypes.Config)
  : option (result image.ID * S) * list StoreCall :=
  match buildRestoredImage parent target cfg with
  | None => (None, [])
  | Some (parent', restoredImg, layer) =>
      match Create s parent' restoredImg layer with
      | (Err err, s') =>
          (Some (Err (Wrapf err "failed to create cache image" []), s'),
           [CallCreate parent' restoredImg layer])
      | (Ok imgID, s') =>
          (Some (Ok imgID, s'), [CallCreate parent' restoredImg layer])
      end
  end.

(** The [return] statements of [ImageCache.GetCache], in source order, and
    the two ways of not returning. *)
Inductive Exit :=
| ExitLocalErr (err : error)                         (* line 81 *)
| ExitFastPath (imgID : string)                      (* line 86 *)
| ExitParentNotFound (err : error)                   (* line 96 *)
| ExitSetParentFailed (err : error)                  (* line 109 *)
| ExitFinalStep (id : string)                        (* line 112 *)
| ExitRestoreFailed (err : error)                    (* line 117 *)
| ExitRestored (id : string) (target : image.Image)  (* line 121 *)
| ExitMiss                                           (* line 124 *)
| ExitPanic
| ExitOutOfFuel.

(** What the caller of [GetCache] receives. *)
Definition returned (e : Exit) : option (string * option error) :=
  match e with
  | ExitLocalErr err | ExitParentNotFound err | ExitSetParentFailed err
  | ExitRestoreFailed err => Some ("", Some err)
  | ExitFastPath id | ExitFinalStep id | ExitRestored id _ => Some (id, None)
  | ExitMiss => Some ("", None)
  | ExitPanic | ExitOutOfFuel => None
  end.

(** The test of line 102, read positively: the loop goes on to line 106
    exactly when this is [Some true], and [continue]s on [Some false]. *)
Definition isCandidate (parent : option image.Image) (lenHistory : nat)
  (cfg : option containertypes.Config) (target : image.Image) : option bool :=
  match isValidParent target parent with
  | None => None
  | Some false => Some false
  | Some true =>
      h ← image.History target !! lenHistory;
      isValidConfig cfg h
  end.

(** Lines 106-121: what is done with the first candidate. *)
Definition useCandidate (ic : ImageCache) (parentID : string)
  (parent : option image.Image) (lenHistory : nat)
  (cfg : option containertypes.Config) (target : image.Image)
  : Exit * ImageCache * list StoreCall :=
  if bool_decide
       (Z.of_nat (length (image.History target)) - 1 = Z.of_nat lenHistory)%Z
  then (* last *)
    match parent with
    | Some p =>
        let call :=
          CallSetParent (image.computedID target) (image.computedID p) in
        match SetParent (store ic) (image.computedID target)
                (image.computedID p) with
        | (Some err, s') =>
            (ExitSetParentFailed
               (Wrapf err "failed to set parent for %v to %v"
                  [image.computedID target; image.computedID p]),
             {| sources := sources ic; store := s' |}, [call])
        | (None, s') =>
            (ExitFinalStep (image.computedID target),
             {| sources := sources ic; store := s' |}, [call])
        end
    | None => (ExitFinalStep (image.computedID target), ic, [])
    end
  else
    match restoreCachedImage (store ic) parent target cfg with
    | (None, calls) => (ExitPanic, ic, calls)
    | (Some (Err err, s'), calls) =>
        (ExitRestoreFailed
           (Wrapf err "failed to restore cached image from %q to %v"
              [parentID; image.computedID target]),
         {| sources := sources ic; store := s' |}, calls)
    | (Some (Ok imgID, s'), calls) =>
        (ExitRestored imgID target,
         {| sources := [target]; store := s' |}, calls)
    end.

(** Lines 101-124: the loop over the sources. *)
Fixpoint scanSources (ic : ImageCache) (parentID : string)
  (parent : option image.Image) (lenHistory : nat)
  (cfg : option containertypes.Config) (targets : list image.Image)
  : Exit * ImageCache * list StoreCall :=
  match targets with
  | [] => (ExitMiss, ic, [])
  | target :: rest =>
      match isCandidate parent lenHistory cfg target with
      | None => (ExitPanic, ic, [])
      | Some false => scanSources ic parentID parent lenHistory cfg rest
      | Some true => useCandidate ic parentID parent lenHistory cfg target
      end
  end.

(** Lines 79-89: the local cache and the ancestry check.  [Some e] leaves
    [GetCache] through [e]; [None] falls through to line 91. *)
Definition localPhase (fuel : nat) (ic : ImageCache) (parentID : string)
  (cfg : option containertypes.Config) (platform : ocispec.Platform)
  : option Exit * list StoreCall :=
  let '(r, c1) := LocalImageCache_GetCache (store ic) parentID cfg platform in
  match r with
  | None => (Some ExitPanic, c1)
  | Some (_, Some err) => (Some (ExitLocalErr err), c1)
  | Some (imgID, None) =>
      if bool_decide (imgID ≠ "") then
        match anyIsParent fuel (store ic) (sources ic) imgID with
        | (None, c2) => (Some ExitOutOfFuel, (c1 ++ c2)%list)
        | (Some true, c2) => (Some (ExitFastPath imgID), (c1 ++ c2)%list)
        | (Some false, c2) => (None, (c1 ++ c2)%list)
        end
      else (None, c1)
  end.

(** Lines 91-124: the parent is fetched and the sources are scanned. *)
Definition historyPhase (ic : ImageCache) (parentID : string)
  (cfg : option containertypes.Config)
  : Exit * ImageCache * list StoreCall :=
  if bool_decide (parentID ≠ "") then
    match Get (store ic) parentID with
    | Err err =>
        (ExitParentNotFound (Wrapf err "unable to find image %v" [parentID]),
         ic, [CallGet parentID])
    | Ok parent =>
        let '(e, ic', calls) :=
          scanSources ic parentID (Some parent)
            (length (image.History parent)) cfg (sources ic) in
        (e, ic', CallGet parentID :: calls)
    end
  else scanSources ic parentID None 0 cfg (sources ic).

(** [ImageCache.GetCache].  [fuel] bounds the recursion of [isParent]. *)
Definition GetCache_exit (fuel : nat) (ic : ImageCache) (parentID : string)
  (cfg : option containertypes.Config) (platform : ocispec.Platform)
  : Exit * ImageCache * list StoreCall :=
  match localPhase fuel ic parentID cfg platform with
  | (Some e, c1) => (e, ic, c1)
  | (None, c1) =>
      let '(e, ic', c2) := historyPhase ic parentID cfg in
      (e, ic', (c1 ++ c2)%list)
  end.

Definition GetCache (fuel : nat) (ic : ImageCache) (parentID : string)
  (cfg : option containertypes.Config) (platform : ocispec.Platform)
  : option (string * option error) * ImageCache :=
  let '(e, ic', _) := GetCache_exit fuel ic parentID cfg platform in
  (returned e, ic').

(** One later call of [GetCache] on the same cache: [meanwhile] is what
    the rest of the build did to the store since the previous call. *)
Record Request := {
  meanwhile : S -> S;
  reqParentID : string;
  reqConfig : option containertypes.Config;
  reqPlatform : ocispec.Platform }.

Fixpoint GetCache_run (fuel : nat) (ic : ImageCache) (reqs : list Request)
  : ImageCache :=
  match reqs with
  | [] => ic
  | r :: rest =>
      let ic0 := {| sources := sources ic; store := meanwhile r (store ic) |} in
      GetCache_run fuel
        (GetCache fuel ic0 (reqParentID r) (reqConfig r) (reqPlatform r)).2
        rest
  end.

End WithStore.

End cache.

(** ** An in-memory store

    A small instance of the store interface, used to run the caches on
    concrete inputs.  Images and parent links are finite maps; the
    children of an image are kept in enumeration order.  Two switches make
    [SetParent] and [Create] fail, as a store on a failing disk would. *)

Module MemStore.

Record t := {
  images : gmap string image.Image;
  parents : gmap string string;
  children : gmap string (list string);
  builtLocally : gset string;
  setParentFails : bool;
  createFails : bool }.

Definition link (s : t) (child parent : image.ID) : t :=
  {| images := images s;
     parents := <[child := parent]> (parents s);
     children := <[parent := (children s !!! parent ++ [child])%list]> (children s);
     builtLocally := builtLocally s;
     setParentFails := setParentFails s;
     createFails := createFails s |}.

(** The identity given to a created image: a stand-in for the content
    hash, built from the commands of its history. *)
Definition newID (img : image.Image) : image.ID :=
  "restored:" +:+ String.concat ";" (ocispec.CreatedBy <$> image.History img).

Definition withID (id : image.ID) (img : image.Image) : image.Image :=
  {| image.computedID := id;
     image.DockerVersion := image.DockerVersion img;
     image.Config := image.Config img;
     image.ContainerConfig := image.ContainerConfig img;
     image.Architecture := image.Architecture img;
     image.OS := image.OS img;
     image.Author := image.Author img;
     image.Created := image.Created img;
     image.Variant := image.Variant img;
     image.rootFS := image.rootFS img;
     image.History := image.History img;
     image.OSFeatures := image.OSFeatures img;
     image.OSVersion := image.OSVersion img |}.

Definition create (s : t) (parent : option image.Image) (img : image.Image)
  (extraLayer : layer.DiffID) : result image.ID * t :=
  if createFails s then (Err (StoreError "create: input/output error"), s)
  else
    let id := newID img in
    let s' := {| images := <[id := withID id img]> (images s);
                 parents := parents s;
                 children := children s;
                 builtLocally := {[id]} ∪ builtLocally s;
                 setParentFails := setParentFails s;
                 createFails := createFails s |} in
    (Ok id,
     match parent with
     | Some p => link s' id (image.computedID p)
     | None => s'
     end).

#[global] Instance store : cache.ImageCacheStore t := {|
  cache.Get s id :=
    match images s !! id with
    | Some img => Ok img
    | None => Err (StoreError "image not found")
    end;
  cache.SetParent s target parent :=
    if setParentFails s
    then (Some (StoreError "set parent: input/output error"), s)
    else (None, link s target parent);
  cache.GetParent s id :=
    match parents s !! id with
    | Some p => Ok p
    | None => Err (StoreError "no parent")
    end;
  cache.Create := create;
  cache.IsBuiltLocally s id := Ok (bool_decide (id ∈ builtLocally s));
  cache.Children s id := children s !!! id |}.

Definition empty : t :=
  {| images := ∅; parents := ∅; children := ∅; builtLocally := ∅;
     setParentFails := false; createFails := false |}.

(** Register an image under its own identity. *)
Definition add (img : image.Image) (local : bool) (s : t) : t :=
  {| images := <[image.computedID img := img]> (images s);
     parents := parents s;
     children := children s;
     builtLocally := if local then {[image.computedID img]} ∪ builtLocally s
                     else builtLocally s;
     setParentFails := setParentFails s;
     createFails := createFails s |}.

Definition failingSetParent (s : t) : t :=
  {| images := images s; parents := parents s; children := children s;
     builtLocally := builtLocally s;
     setParentFails := true; createFails := createFails s |}.

(** A platform matcher and a config comparison to run the local cache
    with: same OS and architecture, same command. *)
Definition comparePlatform (builder img : ocispec.Platform) : bool :=
  bool_decide (ocispec.OS builder = ocispec.OS img)
  && bool_decide (ocispec.Architecture builder = ocispec.Architecture img).

Definition compare (a b : containertypes.Config) : bool :=
  bool_decide (containertypes.Cmd a = containertypes.Cmd b).

End MemStore.

(** ** Sample images *)

Module Sample.

Definition cfg (cmd : list string) : containertypes.Config :=
  {| containertypes.Cmd := cmd; containertypes.Env := [] |}.

(** The instant [t], in UTC. *)
Definition utc (t : Z) : time.Time :=
  {| time.instant := t; time.zone := "UTC" |}.

Definition step (t : Z) (createdBy : string) (emptyLayer : bool)
  : ocispec.History :=
  {| ocispec.Created := Some (utc t);
     ocispec.CreatedBy := createdBy;
     ocispec.Author := "alice";
     ocispec.Comment := "";
     ocispec.EmptyLayer := emptyLayer |}.

Definition linuxAmd64 : ocispec.Platform :=
  {| ocispec.Architecture := "amd64"; ocispec.OS := "linux";
     ocispec.OSVersion := ""; ocispec.OSFeatures := [];
     ocispec.Variant := "" |}.

(** An image for linux/amd64. *)
Definition img (id : string) (created : option Z) (ccfg : list string)
  (diffs : list string) (history : list ocispec.History) : image.Image :=
  {| image.computedID := id;
     image.DockerVersion := "28.0";
     image.Config := Some (cfg ["/bin/sh"]);
     image.ContainerConfig := cfg ccfg;
     image.Architecture := "amd64";
     image.OS := "linux";
     image.Author := "alice";
     image.Created := utc <$> created;
     image.Variant := "";
     image.rootFS := {| image.Type_ := "layers"; image.DiffIDs := diffs |};
     image.History := history;
     image.OSFeatures := [];
     image.OSVersion := "" |}.

(** The same image with no platform recorded (legacy data). *)
Definition noPlatform (i : image.Image) : image.Image :=
  {| image.computedID := image.computedID i;
     image.DockerVersion := image.DockerVersion i;
     image.Config := image.Config i;
     image.ContainerConfig := image.ContainerConfig i;
     image.Architecture := "";
     image.OS := "";
     image.Author := image.Author i;
     image.Created := image.Created i;
     image.Variant := image.Variant i;
     image.rootFS := image.rootFS i;
     image.History := image.History i;
     image.OSFeatures := image.OSFeatures i;
     image.OSVersion := image.OSVersion i |}.

Definition h0 := step 10 "FROM scratch" true.
Definition h1 := step 20 "RUN make" false.
Definition h2 := step 30 "RUN make install" false.

(** A pulled reference image with three build steps and two layers. *)
Definition source : image.Image :=
  img "sha256:source" (Some 30%Z) ["RUN"; "make"; "install"]
    ["sha256:d1"; "sha256:d2"] [h0; h1; h2].

(** A local image holding the first step of [source]. *)
Definition base : image.Image :=
  img "sha256:base" (Some 10%Z) ["FROM"; "scratch"] [] [h0].

(** [base] with another comment, another author, and the same creation
    instant read in another zone, in its one history entry. *)
Definition commented : image.Image :=
  img "sha256:base" (Some 10%Z) ["FROM"; "scratch"] []
    [{| ocispec.Created := ocispec.Created h0;
        ocispec.CreatedBy := ocispec.CreatedBy h0;
        ocispec.Author := ocispec.Author h0;
        ocispec.Comment := "rebuilt";
        ocispec.EmptyLayer := ocispec.EmptyLayer h0 |}].

Definition reauthored : image.Image :=
  img "sha256:base" (Some 10%Z) ["FROM"; "scratch"] []
    [{| ocispec.Created := ocispec.Created h0;
        ocispec.CreatedBy := ocispec.CreatedBy h0;
        ocispec.Author := "bob";
        ocispec.Comment := ocispec.Comment h0;
        ocispec.EmptyLayer := ocispec.EmptyLayer h0 |}].

Definition rezoned : image.Image :=
  img "sha256:base" (Some 10%Z) ["FROM"; "scratch"] []
    [{| ocispec.Created :=
          Some {| time.instant := 10; time.zone := "Europe/Paris" |};
        ocispec.CreatedBy := ocispec.CreatedBy h0;
        ocispec.Author := ocispec.Author h0;
        ocispec.Comment := ocispec.Comment h0;
        ocispec.EmptyLayer := ocispec.EmptyLayer h0 |}].

(** A local image holding the first two steps of [source]. *)
Definition mid : image.Image :=
  img "sha256:mid" (Some 20%Z) ["RUN"; "make"] ["sha256:d1"] [h0; h1].

(** Two local children of [base] built from the same command. *)
Definition childOld : image.Image :=
  img "sha256:old" (Some 21%Z) ["RUN"; "make"] ["sha256:o"]
    [h0; step 21 "RUN make" false].
Definition childNew : image.Image :=
  img "sha256:new" (Some 25%Z) ["RUN"; "make"] ["sha256:n"]
    [h0; step 25 "RUN make" false].

(** [base] with its two local children; [source] is present but linked
    to nothing. *)
Definition localStore : MemStore.t :=
  MemStore.link
    (MemStore.link
       (MemStore.add childNew true
          (MemStore.add childOld true
             (MemStore.add source false
                (MemStore.add mid true
                   (MemStore.add base true MemStore.empty)))))
       "sha256:old" "sha256:base")
    "sha256:new" "sha256:base".

(** [base] with a single local child that records no platform. *)
Definition legacyChild : image.Image := noPlatform childNew.

Definition legacyStore : MemStore.t :=
  MemStore.link
    (MemStore.add legacyChild true (MemStore.add base true MemStore.empty))
    "sha256:new" "sha256:base".

(** [base] with a local child and a second child link whose image is gone
    from the store. *)
Definition danglingStore : MemStore.t :=
  MemStore.link
    (MemStore.link
       (MemStore.add childOld true (MemStore.add base true MemStore.empty))
       "sha256:old" "sha256:base")
    "sha256:gone" "sha256:base".

(** [base] with that dangling child link only. *)
Definition onlyDanglingStore : MemStore.t :=
  MemStore.link (MemStore.add base true MemStore.empty)
    "sha256:gone" "sha256:base".

(** [source] with an empty string recorded as its first diff-ID. *)
Definition blankDiff : image.Image :=
  img "sha256:blank" (Some 30%Z) ["RUN"; "make"; "install"]
    [""; "sha256:d2"] [h0; h1; h2].

(** Two steps with a layer each, and no diff-ID recorded. *)
Definition shortDiffs : image.Image :=
  img "sha256:short" (Some 30%Z) ["RUN"; "make"; "install"]
    [] [h1; h2].

(** Three steps, each with a layer of its own. *)
Definition threeLayers : image.Image :=
  img "sha256:three" (Some 3%Z) ["RUN"; "c"]
    ["sha256:a"; "sha256:b"; "sha256:c"]
    [step 1 "RUN a" false; step 2 "RUN b" false; step 3 "RUN c" false].

(** A local image holding the first step of [threeLayers]. *)
Definition firstLayer : image.Image :=
  img "sha256:first" (Some 1%Z) ["RUN"; "a"] ["sha256:a"]
    [step 1 "RUN a" false].

(** [base], [mid] and [source] linked as a chain of parents, [mid] being
    a local child of [base]. *)
Definition chainStore : MemStore.t :=
  MemStore.link
    (MemStore.link
       (MemStore.add source false
          (MemStore.add mid true (MemStore.add base true MemStore.empty)))
       "sha256:mid" "sha256:base")
    "sha256:source" "sha256:mid".

(** [base] and [mid] in the store, [source] registered and linked to
    nothing yet. *)
Definition unlinkedStore : MemStore.t :=
  MemStore.add source false
    (MemStore.add mid true (MemStore.add base true MemStore.empty)).

(** Two images whose parent links point at each other. *)
Definition cycleStore : MemStore.t :=
  MemStore.link (MemStore.link MemStore.empty "sha256:a" "sha256:b")
    "sha256:b" "sha256:a".

(** A pulled image whose parent links run in a circle; the chain of
    [base], [mid] and [source] beside that circle. *)
Definition looped : image.Image :=
  img "sha256:a" (Some 1%Z) ["RUN"; "a"] ["sha256:a1"]
    [step 1 "RUN a" false].

Definition cycleChainStore : MemStore.t :=
  MemStore.link (MemStore.link chainStore "sha256:a" "sha256:b")
    "sha256:b" "sha256:a".

(** A local image built on [mid] by the last command of [source], and
    [mid] with that local child; [source] is linked to nothing. *)
Definition localFinal : image.Image :=
  img "sha256:fin" (Some 31%Z) ["RUN"; "make"; "install"]
    ["sha256:d1"; "sha256:f"] [h0; h1; step 31 "RUN make install" false].

Definition finalStore : MemStore.t :=
  MemStore.link (MemStore.add localFinal true unlinkedStore)
    "sha256:fin" "sha256:mid".

(** A pulled image whose parent is [localFinal], in that store. *)
Definition top : image.Image :=
  img "sha256:top" (Some 40%Z) ["RUN"; "make"; "check"]
    ["sha256:d1"; "sha256:f"; "sha256:t"]
    [h0; h1; step 31 "RUN make install" false; step 40 "RUN make check" false].

Definition fastPathStore : MemStore.t :=
  MemStore.link (MemStore.add top false finalStore)
    "sha256:top" "sha256:fin".

(** A lookup by reference over the in-memory store: identities resolve
    to their image, ["stalled"] stands for a registry lookup cut short by
    the context, ["lookalike"] for a lookup that fails with an error of
    the store's own whose text is that of the context's, anything else is
    not found. *)
Definition byRef (s : MemStore.t) (ref : string) : result image.Image :=
  if bool_decide (ref = "stalled")
  then Err (Wrapf ContextCanceled "resolving %s" [ref])
  else if bool_decide (ref = "lookalike")
  then Err (StoreError "context canceled")
  else cache.Get s ref.

(** An image built in a single step. *)
Definition single : image.Image :=
  img "sha256:single" (Some 5%Z) ["RUN"; "x"] ["sha256:D1"]
    [step 5 "RUN x" false].

(** A platform matcher that lets an image without platform match any
    builder. *)
Definition comparePlatformWildcard (builder i : ocispec.Platform) : bool :=
  (bool_decide (ocispec.OS i = "")
   && bool_decide (ocispec.Architecture i = ""))
  || MemStore.comparePlatform builder i.

End Sample.

(** ** The local cache, as the specification words it

    "Among the direct children that pass all skip filters and match the
    config, the one with the most recent non-nil creation timestamp."
    These definitions are the specification's side of that sentence; the
    theorems below compare [getLocalCachedImage] with them. *)

Module LocalSpec.
Section WithStore.
Context {S : Type} `{cache.ImageCacheStore S}.
Variable comparePlatform : ocispec.Platform -> ocispec.Platform -> bool.
Variable compare : containertypes.Config -> containertypes.Config -> bool.

(** An image with neither OS nor architecture recorded. *)
Definition legacyPlatform (img : image.Image) : bool :=
  bool_decide (ocispec.OS (image.Platform img) = "")
  && bool_decide (ocispec.Architecture (image.Platform img) = "").

(** The child was built locally, records a platform, its platform
    matches and its container config matches. *)
Definition passesFilters (s : S) (config : containertypes.Config)
  (platform : ocispec.Platform) (id : image.ID) (img : image.Image) : bool :=
  match cache.IsBuiltLocally s id with Ok true => true | _ => false end
  && negb (legacyPlatform img)
  && comparePlatform platform (image.Platform img)
  && compare (image.ContainerConfig img) config.

(** The children that pass, in the order the store enumerates them. *)
Definition passingChildren (s : S) (config : containertypes.Config)
  (platform : ocispec.Platform) (ids : list image.ID) : list image.Image :=
  omap (fun id =>
          match cache.Get s id with
          | Ok img =>
              if passesFilters s config platform id img then Some img
              else None
          | Err _ => None
          end) ids.

(** The first child, in enumeration order, that the store fails to fetch. *)
Fixpoint firstUnfetched (s : S) (ids : list image.ID) : option image.ID :=
  match ids with
  | [] => None
  | id :: rest =>
      match cache.Get s id with
      | Ok _ => firstUnfetched s rest
      | Err _ => Some id
      end
  end.

(** [match] only ever holds an image that has a creation time. *)
Definition dated (m : option image.Image) : Prop :=
  forall i, m = Some i -> is_Some (image.Created i).

(** What the scan leaves in [match], given what it started from and the
    children that passed: an image among them, or the one it started
    from, whose creation time none of them exceeds. *)
Definition selects (m0 : option image.Image) (passing : list image.Image)
  (m : option image.Image) : Prop :=
  dated m
  /\ (m = m0 \/ exists i, m = Some i /\ i ∈ passing)
  /\ (forall c t', c ∈ passing -> image.Created c = Some t' ->
        exists i t, m = Some i /\ image.Created i = Some t /\ (t' <= t)%Z)
  /\ (forall i0 t0, m0 = Some i0 -> image.Created i0 = Some t0 ->
        exists i t, m = Some i /\ image.Created i = Some t /\ (t0 <= t)%Z).

End WithStore.
End LocalSpec.

(** ** The source set, as the specification words it

    "Narrowed to a single element after the first successful history-based
    restoration"; otherwise left alone. *)

Module HistorySpec.

(** The source set after a call of [GetCache] that left through [e],
    given the source set before it. *)
Definition sourcesAfter (before : list image.Image) (e : cache.Exit)
  (after : list image.Image) : Prop :=
  match e with
  | cache.ExitRestored _ target => target ∈ before /\ after = [target]
  | _ => after = before
  end.

End HistorySpec.

(** ** Valid extensions and ancestors, in closed form *)

Module ExtensionSpec.

(** What [isValidParent] decides: the source has a history and, unless the
    parent is nil or has neither history nor layers, the parent's history
    is a strictly shorter prefix of the source's and the parent's diff
    list is a prefix of the source's. *)
Definition validExtension (img : image.Image) (parent : option image.Image)
  : Prop :=
  image.History img <> []
  /\ match parent with
     | None => True
     | Some p =>
         (image.History p = [] /\ image.DiffIDs (image.rootFS p) = [])
         \/ ((length (image.History p) < length (image.History img))%nat
             /\ image.History p `prefix_of` image.History img
             /\ image.DiffIDs (image.rootFS p)
                `prefix_of` image.DiffIDs (image.rootFS img))
     end.

(** The image reached from [id] by following [n] parent links of the
    store, when all of them exist. *)
Fixpoint nthParent {S : Type} `{cache.ImageCacheStore S} (s : S) (n : nat)
  (id : image.ID) : option image.ID :=
  match n with
  | O => Some id
  | Datatypes.S n' =>
      match cache.GetParent s id with
      | Ok p => nthParent s n' p
      | Err _ => None
      end
  end.

(** [imgID] is a proper ancestor of [id] in the store: it is reached from
    [id] by following one or more parent links. *)
Definition reaches {S : Type} `{cache.ImageCacheStore S} (s : S)
  (id imgID : image.ID) : Prop :=
  exists n, nthParent s (Datatypes.S n) id = Some imgID.

(** The parent chain of [id] ends, a parent link being missing after [n]
    links, and has not led to [imgID] by then. *)
Definition endsWithout {S : Type} `{cache.ImageCacheStore S} (s : S)
  (id imgID : image.ID) : Prop :=
  exists n,
    nthParent s (Datatypes.S n) id = None
    /\ forall m, (m < n)%nat -> nthParent s (Datatypes.S m) id <> Some imgID.

(** Lines 91-99, when they do not fail: [parent] is nil for an empty
    [parentID], and otherwise the image the store returns for it. *)
Definition parentFetched {S : Type} `{cache.ImageCacheStore S} (s : S)
  (parentID : string) (parent : option image.Image) : Prop :=
  match parent with
  | None => parentID = ""
  | Some p => parentID <> "" /\ cache.Get s parentID = Ok p
  end.

(** The call these lines make on the store. *)
Definition parentCalls (parentID : string) (parent : option image.Image)
  : list cache.StoreCall :=
  match parent with
  | Some _ => [cache.CallGet parentID]
  | None => []
  end.

(** The calls that change the store. *)
Definition mutates (c : cache.StoreCall) : bool :=
  match c with
  | cache.CallSetParent _ _ | cache.CallCreate _ _ _ => true
  | _ => false
  end.

(** [target] is the source the scan of lines 101-104 stops at: the
    sources before it are skipped, it is a valid extension of the fetched
    parent, and its history entry at the parent's length was created by
    the requested command. *)
Definition firstCandidate {S : Type} `{cache.ImageCacheStore S} (s : S)
  (parentID : string) (cfg : option containertypes.Config)
  (sources : list image.Image) (parent : option image.Image)
  (pre : list image.Image) (target : image.Image) (post : list image.Image)
  : Prop :=
  let lenHistory := length (from_option image.History [] parent) in
  parentFetched s parentID parent
  /\ sources = (pre ++ target :: post)%list
  /\ Forall (fun t => cache.isCandidate parent lenHistory cfg t = Some false)
       pre
  /\ cache.isValidParent target parent = Some true
  /\ exists c h,
       cfg = Some c
       /\ image.History target !! lenHistory = Some h
       /\ ocispec.CreatedBy h = strings.Join (containertypes.Cmd c) " ".

(** [img] stands in [passing] before every other image created as late
    as it was: the images before it are strictly older (or undated), the
    images after it are not younger. *)
Definition earliestMostRecent (passing : list image.Image)
  (img : image.Image) : Prop :=
  exists l1 l2 t,
    passing = (l1 ++ img :: l2)%list
    /\ image.Created img = Some t
    /\ Forall (fun c => forall t', image.Created c = Some t' -> (t' < t)%Z) l1
    /\ Forall (fun c => forall t', image.Created c = Some t' -> (t' <= t)%Z) l2.

End ExtensionSpec.

(** ** Construction of the cache ([New]) *)

(** [errors.Is]: [err] or an error it wraps is [target].  [Wrapf] wraps its
    cause; [fmt.Errorf] without a wrapping verb does not. *)
Module errors.

#[global] Instance error_eq_dec : EqDecision error.
Proof. solve_decision. Defined.

Fixpoint Is (err target : error) : bool :=
  bool_decide (err = target)
  || match err with
     | Wrapf cause _ _ => Is cause target
     | _ => false
     end.

End errors.

(** The two errors of a context that is done: the sentinel values
    themselves, which [errors.Is] tells from every other error, a store
    error of the same text included. *)
Module context.
Definition Canceled : error := ContextCanceled.
Definition DeadlineExceeded : error := ContextDeadlineExceeded.
End context.

Module construction.
Section WithStore.
Context {S : Type} `{cache.ImageCacheStore S}.

(** [store.GetByRef(ctx, ref)], the one method of the store interface that
    only [New] uses; what the context does shows in the error returned. *)
Variable GetByRef : S -> string -> result image.Image.

(** [builder.ImageCache], as [New] returns it: one of the two caches. *)
Inductive ImageCacheImpl :=
| Local (store : S)
| History (ic : @cache.ImageCache S).

(** Lines 40-50: the loop over [cacheFrom], with the references looked
    up. *)
Fixpoint seed (s : S) (cacheFrom : list string) (c : @cache.ImageCache S)
  : (@cache.ImageCache S + error) * list string :=
  match cacheFrom with
  | [] => (inl c, [])
  | ref :: rest =>
      match GetByRef s ref with
      | Err err =>
          if errors.Is err context.Canceled
             || errors.Is err context.DeadlineExceeded
          then (inr err, [ref])
          else (* warn, continue *)
            let '(r, refs) := seed s rest c in (r, ref :: refs)
      | Ok img =>
          let '(r, refs) := seed s rest (cache.Populate c img) in
          (r, ref :: refs)
      end
  end.

Definition New (s : S) (cacheFrom : list string)
  : (option ImageCacheImpl * option error) * list string :=
  let local := Local s in
  if bool_decide (length cacheFrom = 0) then ((Some local, None), [])
  else
    let c := {| cache.sources := []; cache.store := s |} in
    match seed s cacheFrom c with
    | (inr err, refs) => ((None, Some err), refs)
    | (inl c', refs) => ((Some (History c'), None), refs)
    end.

(** The lookup of [ref] was cut short by the context. *)
Definition interrupted (s : S) (ref : string) : bool :=
  match GetByRef s ref with
  | Err err =>
      errors.Is err context.Canceled
      || errors.Is err context.DeadlineExceeded
  | Ok _ => false
  end.

(** The images of the references that resolve, in order. *)
Definition resolved (s : S) (cacheFrom : list string) : list image.Image :=
  omap (fun ref => match GetByRef s ref with
                   | Ok img => Some img
                   | Err _ => None
                   end) cacheFrom.

End WithStore.
End construction.

(** ** Properties *)

Import cache.

(** *** Locating the layer of a history entry *)

Lemma nonEmptyLayers_cons h hs :
  image.nonEmptyLayers (h :: hs)
  = ((if ocispec.EmptyLayer h then 0 else 1) + image.nonEmptyLayers hs)%nat.
Proof.
  unfold image.nonEmptyLayers. rewrite filter_cons.
  destruct (ocispec.EmptyLayer h); case_decide; simpl; congruence.
Qed.

Lemma nonEmptyLayers_app hs1 hs2 :
  image.nonEmptyLayers (hs1 ++ hs2)
  = (image.nonEmptyLayers hs1 + image.nonEmptyLayers hs2)%nat.
Proof.
  unfold image.nonEmptyLayers. by rewrite filter_app, length_app.
Qed.

(** The loop, in closed form: it stops at [index] when there is such an
    entry, having counted the non-empty layers before it. *)
Lemma layerLoop_spec hs : forall i index k, (i <= index)%nat ->
  layerLoop hs i index k
  = match hs !! (index - i)%nat with
    | Some h =>
        if ocispec.EmptyLayer h then ReturnEmpty
        else IndexAt (k + image.nonEmptyLayers (take (index - i) hs))
    | None => IndexAt (k + image.nonEmptyLayers hs)
    end.
Proof.
  induction hs as [|h hs IH]; intros i index k Hle; simpl.
  - f_equal. unfold image.nonEmptyLayers. simpl. lia.
  - case_bool_decide as Hi.
    + subst i. rewrite Nat.sub_diag. simpl.
      destruct (ocispec.EmptyLayer h); [done|].
      f_equal. unfold image.nonEmptyLayers. simpl. lia.
    + replace (index - i)%nat with (Datatypes.S (index - Datatypes.S i)) by lia.
      simpl. rewrite IH by lia.
      destruct (hs !! (index - Datatypes.S i)%nat) as [h'|].
      * destruct (ocispec.EmptyLayer h'); [done|].
        rewrite nonEmptyLayers_cons.
        destruct (ocispec.EmptyLayer h); f_equal; lia.
      * rewrite nonEmptyLayers_cons.
        destruct (ocispec.EmptyLayer h); f_equal; lia.
Qed.

(** Under the invariant of the data model, a non-empty-layer entry has its
    diff-ID: the count of non-empty layers before it is a valid index. *)
Lemma lockstep_index_in_bounds img index h :
  image.lockstep img ->
  image.History img !! index = Some h ->
  ocispec.EmptyLayer h = false ->
  (image.nonEmptyLayers (take index (image.History img))
   < length (image.DiffIDs (image.rootFS img)))%nat.
Proof.
  intros Hinv Hh He. unfold image.lockstep in Hinv. rewrite Hinv.
  rewrite <- (take_drop index (image.History img)) at 2.
  rewrite nonEmptyLayers_app.
  rewrite (drop_S _ _ _ Hh), nonEmptyLayers_cons, He. lia.
Qed.

(** Under the invariant the lookup never runs past the diff list: it
    returns the empty string for an empty layer, and otherwise the diff-ID
    at the number of non-empty layers before the entry. *)
Lemma getLayerForHistoryIndex_located img index h :
  image.History img !! index = Some h ->
  image.lockstep img ->
  exists layer,
    getLayerForHistoryIndex img index = Some layer
    /\ (ocispec.EmptyLayer h = true -> layer = "")
    /\ (ocispec.EmptyLayer h = false ->
        image.DiffIDs (image.rootFS img)
          !! image.nonEmptyLayers (take index (image.History img))
        = Some layer).
Proof.
  intros Hh Hinv. unfold getLayerForHistoryIndex.
  rewrite layerLoop_spec by lia. rewrite Nat.sub_0_r, Hh. simpl.
  destruct (ocispec.EmptyLayer h) eqn:He.
  - by exists "".
  - assert (Hk := lockstep_index_in_bounds img index h Hinv Hh He).
    destruct (lookup_lt_is_Some_2 _ _ Hk) as [d Hd].
    exists d. by rewrite Hd.
Qed.

(** C7.  For an image in which the number of diff-IDs is the number of
    non-empty-layer history entries, and an index [index] into its history:
    when the entry at [index] is an empty layer, the lookup leaves through
    the early return and gives the empty diff-ID, whatever the diff list
    is (nothing is indexed); when it is not, the lookup indexes the diff
    list at exactly the number of non-empty-layer entries strictly before
    [index], that index is in bounds, and the diff-ID found there is
    returned. *)
Theorem getLayerForHistoryIndex_lockstep (img : image.Image) (index : nat)
  (h : ocispec.History) :
  image.History img !! index = Some h ->
  (ocispec.EmptyLayer h = true ->
     layerLoop (image.History img) 0 index 0 = ReturnEmpty
     /\ getLayerForHistoryIndex img index = Some "")
  /\ (ocispec.EmptyLayer h = false ->
      image.lockstep img ->
      let k := image.nonEmptyLayers (take index (image.History img)) in
      layerLoop (image.History img) 0 index 0 = IndexAt k
      /\ (k < length (image.DiffIDs (image.rootFS img)))%nat
      /\ exists d, image.DiffIDs (image.rootFS img) !! k = Some d
                   /\ getLayerForHistoryIndex img index = Some d).
Proof.
  intros Hh.
  assert (Hloop := layerLoop_spec (image.History img) 0 index 0 (Nat.le_0_l _)).
  rewrite Nat.sub_0_r, Hh in Hloop. simpl in Hloop.
  split.
  - intros He. rewrite He in Hloop.
    unfold getLayerForHistoryIndex. by rewrite Hloop.
  - intros He Hinv k. rewrite He in Hloop.
    assert (Hk := lockstep_index_in_bounds img index h Hinv Hh He).
    fold k in Hk, Hloop.
    destruct (lookup_lt_is_Some_2 _ _ Hk) as [d Hd].
    repeat split; [done..|].
    exists d. split; [done|].
    unfold getLayerForHistoryIndex. by rewrite Hloop.
Qed.

Lemma getLayerForHistoryIndex_lockstep_witness :
  getLayerForHistoryIndex Sample.source 0 = Some ""
  /\ getLayerForHistoryIndex Sample.source 2 = Some "sha256:d2".
Proof.
  split.
  - apply (getLayerForHistoryIndex_lockstep Sample.source 0 Sample.h0);
      reflexivity.
  - destruct (getLayerForHistoryIndex_lockstep Sample.source 2 Sample.h2)
      as [_ Hne]; [reflexivity|].
    destruct (Hne eq_refl eq_refl) as (_ & _ & d & Hd & Hget).
    rewrite Hget. rewrite <- Hd. reflexivity.
Defined.

(** *** Valid parents *)

(** C4, as stated, fails: a source whose history is empty is not a valid
    extension of anything, not even of a nil parent. *)
Lemma isValidParent_empty_history_rejected :
  let src := Sample.img "sha256:nohistory" (Some 1%Z) [] [] [] in
  isValidParent src None = Some false
  /\ isValidParent src (Some (Sample.img "sha256:empty" None [] [] []))
     = Some false.
Proof. split; reflexivity. Qed.

(** C4, amended.  When the parent is nil, or has an empty history and an
    empty diff list, every source whose own history is not empty is a
    valid extension of it; a source with an empty history is never one. *)
Theorem isValidParent_empty_parent (img : image.Image)
  (parent : option image.Image) :
  (parent = None
   \/ exists p, parent = Some p /\ image.History p = []
                /\ image.DiffIDs (image.rootFS p) = []) ->
  isValidParent img parent
  = Some (negb (bool_decide (image.History img = []))).
Proof.
  intros Hp. unfold isValidParent.
  destruct (image.History img) as [|h hs] eqn:Himg; simpl; [done|].
  destruct Hp as [-> | (p & -> & Hh & Hd)]; [done|].
  by rewrite Hh, Hd.
Qed.

Lemma isValidParent_empty_parent_witness :
  isValidParent Sample.source None = Some true
  /\ isValidParent Sample.source
       (Some (Sample.img "sha256:empty" None [] [] [])) = Some true.
Proof.
  split.
  - apply (isValidParent_empty_parent Sample.source None). by left.
  - apply (isValidParent_empty_parent Sample.source
             (Some (Sample.img "sha256:empty" None [] [] []))).
    right. eexists. repeat split; reflexivity.
Defined.

Section LocalCache.
Context {S : Type} `{ImageCacheStore S}.
Variable comparePlatform : ocispec.Platform -> ocispec.Platform -> bool.
Variable compare : containertypes.Config -> containertypes.Config -> bool.

Abbreviation localLoop := (cache.localLoop comparePlatform compare).
Abbreviation visitChild := (cache.visitChild comparePlatform compare).
Abbreviation getLocalCachedImage :=
  (cache.getLocalCachedImage comparePlatform compare).
Abbreviation LocalImageCache_GetCache :=
  (cache.LocalImageCache_GetCache comparePlatform compare).
Abbreviation passesFilters := (LocalSpec.passesFilters comparePlatform compare).
Abbreviation passingChildren :=
  (LocalSpec.passingChildren comparePlatform compare).
Abbreviation dated := LocalSpec.dated.
Abbreviation selects := LocalSpec.selects.

(** C10.  With a nil config the local cache answers the empty string and
    a nil error, and makes no call on the store: no enumeration of
    children, no image lookup. *)
Theorem LocalImageCache_GetCache_nil_config (s : S) (parentID : string)
  (platform : ocispec.Platform) :
  getLocalCachedImage s parentID None platform = (Some (None, None), [])
  /\ LocalImageCache_GetCache s parentID None platform
     = (Some ("", None), []).
Proof. split; reflexivity. Qed.

(** The loop body, in terms of the filters. *)
Lemma visitChild_passesFilters s config platform id img m :
  visitChild config platform (IsBuiltLocally s id) img m
  = if passesFilters s config platform id img then updateMatch m img
    else Some m.
Proof.
  unfold cache.visitChild, LocalSpec.passesFilters, LocalSpec.legacyPlatform.
  destruct (IsBuiltLocally s id) as [[|]|]; [|done..].
  cbv zeta.
  destruct (bool_decide _ && bool_decide _); [done|].
  destruct (comparePlatform _ _); [|done].
  by destruct (compare _ _).
Qed.

Lemma selects_nil m0 : dated m0 -> selects m0 [] m0.
Proof.
  intros Hd. repeat split; [done|by left| |].
  - intros c t' Hc. by apply elem_of_nil in Hc.
  - intros i0 t0 -> Ht. exists i0, t0. repeat split; [done|lia].
Qed.

Lemma updateMatch_selects m0 img l m1 m :
  dated m0 ->
  updateMatch m0 img = Some m1 ->
  (dated m1 -> selects m1 l m) ->
  selects m0 (img :: l) m.
Proof.
  intros Hd0 Hup Hrest. unfold updateMatch in Hup.
  destruct (image.Created img) as [t|] eqn:Ht.
  - destruct m0 as [i0|].
    + destruct (Hd0 i0 eq_refl) as [t0 Ht0]. rewrite Ht0 in Hup.
      unfold time.Before in Hup.
      destruct (Z.ltb_spec t0 t) as [Hlt|Hge]; simplify_eq.
      * destruct Hrest as (Hd & Hin & Hmax & Hkeep).
        { intros i [= <-]. by rewrite Ht. }
        repeat split; [done| | |].
        -- right. destruct Hin as [->|(i & -> & Hi)];
             eexists; (split; [done|]); set_solver.
        -- intros c t' [->|Hc]%elem_of_cons Hct.
           ++ rewrite Ht in Hct. simplify_eq. by apply (Hkeep img).
           ++ by apply (Hmax c).
        -- intros ? ? [= <-] Ht0'. rewrite Ht0 in Ht0'. simplify_eq.
           destruct (Hkeep img t eq_refl Ht) as (i & ti & -> & Hti & Hle).
           exists i, ti. repeat split; [done|lia].
      * destruct Hrest as (Hd & Hin & Hmax & Hkeep); [done|].
        repeat split; [done| | |done].
        -- destruct Hin as [->|(i & -> & Hi)]; [by left|].
           right. eexists. split; [done|]. set_solver.
        -- intros c t' [->|Hc]%elem_of_cons Hct.
           ++ rewrite Ht in Hct. simplify_eq.
              destruct (Hkeep i0 t0 eq_refl Ht0) as (i & ti & -> & Hti & Hle).
              exists i, ti. repeat split; [done|lia].
           ++ by apply (Hmax c).
    + simplify_eq.
      destruct Hrest as (Hd & Hin & Hmax & Hkeep).
      { intros i [= <-]. by rewrite Ht. }
      repeat split; [done| | |done].
      * right. destruct Hin as [->|(i & -> & Hi)];
          eexists; (split; [done|]); set_solver.
      * intros c t' [->|Hc]%elem_of_cons Hct.
        -- rewrite Ht in Hct. simplify_eq. by apply (Hkeep img).
        -- by apply (Hmax c).
  - simplify_eq.
    destruct Hrest as (Hd & Hin & Hmax & Hkeep); [done|].
    repeat split; [done| | |done].
    + destruct Hin as [->|(i & -> & Hi)]; [by left|].
      right. eexists. split; [done|]. set_solver.
    + intros c t' [->|Hc]%elem_of_cons Hct; [congruence|].
      by apply (Hmax c).
Qed.

Lemma updateMatch_total m0 img :
  dated m0 -> exists m1, updateMatch m0 img = Some m1.
Proof.
  intros Hd. unfold updateMatch.
  destruct (image.Created img) as [t|]; [|by eexists].
  destruct m0 as [i0|]; [|by eexists].
  destruct (Hd i0 eq_refl) as [t0 ->].
  destruct (time.Before t0 t); by eexists.
Qed.

(** The scan stops with an error at the first child that cannot be
    fetched; when there is none it returns, without error, the selection
    among the children that pass. *)
Lemma localLoop_selects s config platform ids : forall m0,
  dated m0 ->
  match LocalSpec.firstUnfetched s ids with
  | Some id =>
      exists calls,
        localLoop s config platform ids m0
        = (Some (None, Some (Errorf "unable to find image %q" id)), calls)
  | None =>
      exists m calls,
        localLoop s config platform ids m0 = (Some (m, None), calls)
        /\ selects m0 (passingChildren s config platform ids) m
  end.
Proof.
  induction ids as [|id ids IH]; intros m0 Hd; simpl.
  - exists m0, []. split; [done|]. by apply selects_nil.
  - unfold LocalSpec.passingChildren. simpl.
    fold (passingChildren s config platform ids).
    destruct (Get s id) as [img|e]; [|by eexists].
    rewrite visitChild_passesFilters.
    destruct (passesFilters s config platform id img) eqn:Hpass.
    + destruct (updateMatch_total m0 img Hd) as [m1 Hm1]. rewrite Hm1.
      assert (dated m1) as Hd1.
      { unfold updateMatch in Hm1. intros i ->.
        destruct (image.Created img) eqn:Ht; [|simplify_eq; by apply Hd].
        destruct m0 as [i0|]; [|simplify_eq; by rewrite Ht].
        destruct (image.Created i0); [|done].
        destruct (time.Before _ _); simplify_eq; [by rewrite Ht|by apply Hd]. }
      specialize (IH m1 Hd1).
      destruct (LocalSpec.firstUnfetched s ids) as [bad|].
      * destruct IH as (calls & ->). by eexists.
      * destruct IH as (m & calls & -> & Hsel).
        eexists m, _. split; [done|].
        simpl. by eapply updateMatch_selects.
    + specialize (IH m0 Hd).
      destruct (LocalSpec.firstUnfetched s ids) as [bad|].
      * destruct IH as (calls & ->). by eexists.
      * destruct IH as (m & calls & -> & Hsel). by eexists m, _.
Qed.

(** C6, amended.  When every child the store enumerates can be fetched,
    the local cache returns with a nil error; what it returns is, among the
    direct children of the parent that pass all the skip filters and match
    the config, one with a creation timestamp that no other such child
    exceeds; and when no child passes (or none of those has a timestamp)
    it returns the empty string.  When some child cannot be fetched, it
    returns the empty string and an error naming the first such child,
    whatever the other children are. *)
Theorem getLocalCachedImage_most_recent (s : S) (parentID : string)
  (config : containertypes.Config) (platform : ocispec.Platform) :
  let passing := passingChildren s config platform (Children s parentID) in
  match LocalSpec.firstUnfetched s (Children s parentID) with
  | Some id =>
      exists calls,
        LocalImageCache_GetCache s parentID (Some config) platform
        = (Some ("", Some (Errorf "unable to find image %q" id)), calls)
  | None =>
      exists m calls,
        getLocalCachedImage s parentID (Some config) platform
        = (Some (m, None), calls)
        /\ LocalImageCache_GetCache s parentID (Some config) platform
           = (Some (from_option image.computedID "" m, None), calls)
        /\ (passing = [] -> m = None)
        /\ match m with
           | Some img =>
               img ∈ passing
               /\ exists t, image.Created img = Some t
                    /\ forall c t', c ∈ passing -> image.Created c = Some t' ->
                                    (t' <= t)%Z
           | None => forall c, c ∈ passing -> image.Created c = None
           end
  end.
Proof.
  intros passing.
  assert (Hloop := localLoop_selects s config platform (Children s parentID)
                     None).
  destruct (LocalSpec.firstUnfetched s (Children s parentID)) as [bad|].
  { destruct Hloop as (calls & Hloop); [done|].
    exists (CallChildren parentID :: calls).
    unfold cache.LocalImageCache_GetCache, cache.getLocalCachedImage.
    by rewrite Hloop. }
  destruct Hloop as (m & calls & Hloop & Hd & Hin & Hmax & _); [done|].
  fold passing in Hin, Hmax.
  exists m, (CallChildren parentID :: calls).
  assert (getLocalCachedImage s parentID (Some config) platform
          = (Some (m, None), CallChildren parentID :: calls)) as Heq.
  { unfold cache.getLocalCachedImage. by rewrite Hloop. }
  split; [done|]. split.
  { unfold cache.LocalImageCache_GetCache. rewrite Heq. by destruct m. }
  split.
  { intros Hnil. destruct Hin as [->|(i & _ & Hi)]; [done|].
    rewrite Hnil in Hi. by apply elem_of_nil in Hi. }
  destruct m as [img|].
  - destruct Hin as [|(i & [= <-] & Hi)]; [done|].
    split; [done|].
    destruct (Hd img eq_refl) as [t Ht]. exists t. split; [done|].
    intros c t' Hc Hct.
    destruct (Hmax c t' Hc Hct) as (i & ti & [= <-] & Hti & Hle).
    congruence.
  - intros c Hc. destruct (image.Created c) as [t'|] eqn:Hct; [|done].
    by destruct (Hmax c t' Hc Hct) as (i & ti & ? & _).
Qed.

(** [match] never holds an image without platform. *)
Lemma updateMatch_cases m0 img m1 :
  updateMatch m0 img = Some m1 -> m1 = m0 \/ m1 = Some img.
Proof.
  unfold updateMatch. intros Hup.
  destruct (image.Created img); [|left; congruence].
  destruct m0 as [i0|]; [|right; congruence].
  destruct (image.Created i0); [|done].
  destruct (time.Before _ _); [right|left]; congruence.
Qed.

Lemma localLoop_not_legacy s config platform ids : forall m0 img err calls,
  (forall i, m0 = Some i -> LocalSpec.legacyPlatform i = false) ->
  localLoop s config platform ids m0 = (Some (Some img, err), calls) ->
  LocalSpec.legacyPlatform img = false.
Proof.
  induction ids as [|id ids IH]; intros m0 img err calls Hm0; simpl.
  - intros [= -> _ _]. by apply Hm0.
  - destruct (Get s id) as [img0|]; [|done].
    rewrite visitChild_passesFilters.
    destruct (passesFilters s config platform id img0) eqn:Hpass.
    + destruct (updateMatch m0 img0) as [m1|] eqn:Hup; [|done].
      destruct (localLoop s config platform ids m1) as [r calls'] eqn:Hloop.
      intros [= -> _]. apply (IH m1 img err calls'); [|done].
      intros i ->. destruct (updateMatch_cases _ _ _ Hup) as [Heq|Heq].
      * by apply Hm0.
      * injection Heq as ->. unfold LocalSpec.passesFilters in Hpass.
        destruct (LocalSpec.legacyPlatform img0); [|done].
        by destruct (IsBuiltLocally s id) as [[|]|].
    + destruct (localLoop s config platform ids m0) as [r calls'] eqn:Hloop.
      intros [= -> _]. by apply (IH m0 img err calls').
Qed.

(** C5, amended.  A child whose stored platform has neither OS nor
    architecture is discarded by the scan, whatever the platform matcher
    says of it, and the local cache never returns it. *)
Theorem legacy_platform_child_discarded (img : image.Image) :
  ocispec.OS (image.Platform img) = "" ->
  ocispec.Architecture (image.Platform img) = "" ->
  (forall config platform builtLocally m,
     visitChild config platform builtLocally img m = Some m)
  /\ (forall s parentID config platform err calls,
        getLocalCachedImage s parentID config platform
        <> (Some (Some img, err), calls)).
Proof.
  intros Hos Harch. split.
  - intros config platform builtLocally m. unfold cache.visitChild.
    destruct builtLocally as [[|]|]; [|done..].
    cbv zeta. rewrite Hos, Harch. done.
  - intros s parentID [config|] platform err calls; [|done].
    unfold cache.getLocalCachedImage.
    destruct (localLoop s config platform (Children s parentID) None)
      as [r calls'] eqn:Hloop.
    intros [= -> _].
    apply localLoop_not_legacy in Hloop; [|done].
    unfold LocalSpec.legacyPlatform in Hloop.
    by rewrite Hos, Harch in Hloop.
Qed.

End LocalCache.

(** C5, as stated, fails: a locally built child with a matching config
    and no platform recorded is not returned, even under a platform
    matcher that accepts it. *)
Lemma legacy_platform_child_not_returned :
  let config := Sample.cfg ["RUN"; "make"] in
  Children Sample.legacyStore "sha256:base" = ["sha256:new"]
  /\ Get Sample.legacyStore "sha256:new" = Ok Sample.legacyChild
  /\ IsBuiltLocally Sample.legacyStore "sha256:new" = Ok true
  /\ image.Platform Sample.legacyChild
     = {| ocispec.Architecture := ""; ocispec.OS := "";
          ocispec.OSVersion := ""; ocispec.OSFeatures := [];
          ocispec.Variant := "" |}
  /\ Sample.comparePlatformWildcard Sample.linuxAmd64
       (image.Platform Sample.legacyChild) = true
  /\ MemStore.compare (image.ContainerConfig Sample.legacyChild) config = true
  /\ image.Created Sample.legacyChild = Some (Sample.utc 25)
  /\ (LocalImageCache_GetCache Sample.comparePlatformWildcard MemStore.compare
        Sample.legacyStore "sha256:base" (Some config) Sample.linuxAmd64).1
     = Some ("", None).
Proof. repeat split; vm_compute; reflexivity. Qed.

Lemma legacy_platform_child_discarded_witness :
  visitChild Sample.comparePlatformWildcard MemStore.compare
    (Sample.cfg ["RUN"; "make"]) Sample.linuxAmd64 (Ok true)
    Sample.legacyChild None = Some None.
Proof.
  apply (legacy_platform_child_discarded Sample.comparePlatformWildcard
           MemStore.compare (S:=MemStore.t) Sample.legacyChild);
    reflexivity.
Defined.

(** C6, as stated, fails when the store cannot fetch a child it has
    enumerated: the one passing child is not returned, and with no passing
    child at all the answer is still an error, not a nil error. *)
Lemma getLocalCachedImage_unfetched_child :
  let config := Sample.cfg ["RUN"; "make"] in
  Children Sample.danglingStore "sha256:base" = ["sha256:old"; "sha256:gone"]
  /\ LocalSpec.passingChildren MemStore.comparePlatform MemStore.compare
       Sample.danglingStore config Sample.linuxAmd64
       (Children Sample.danglingStore "sha256:base") = [Sample.childOld]
  /\ (LocalImageCache_GetCache MemStore.comparePlatform MemStore.compare
        Sample.danglingStore "sha256:base" (Some config) Sample.linuxAmd64).1
     = Some ("", Some (Errorf "unable to find image %q" "sha256:gone"))
  /\ LocalSpec.passingChildren MemStore.comparePlatform MemStore.compare
       Sample.onlyDanglingStore config Sample.linuxAmd64
       (Children Sample.onlyDanglingStore "sha256:base") = []
  /\ (LocalImageCache_GetCache MemStore.comparePlatform MemStore.compare
        Sample.onlyDanglingStore "sha256:base" (Some config)
        Sample.linuxAmd64).1
     = Some ("", Some (Errorf "unable to find image %q" "sha256:gone")).
Proof. repeat split; vm_compute; reflexivity. Qed.

Lemma getLocalCachedImage_most_recent_witness :
  (LocalImageCache_GetCache MemStore.comparePlatform MemStore.compare
     Sample.localStore "sha256:base" (Some (Sample.cfg ["RUN"; "make"]))
     Sample.linuxAmd64).1
  = Some ("sha256:new", None).
Proof.
  assert (Hthm := getLocalCachedImage_most_recent MemStore.comparePlatform
                    MemStore.compare Sample.localStore "sha256:base"
                    (Sample.cfg ["RUN"; "make"]) Sample.linuxAmd64).
  cbv zeta in Hthm.
  replace (LocalSpec.firstUnfetched Sample.localStore
             (Children Sample.localStore "sha256:base"))
    with (@None image.ID) in Hthm by (vm_compute; reflexivity).
  destruct Hthm as (m & calls & Hlocal & -> & _).
  vm_compute in Hlocal. by injection Hlocal as <- _.
Defined.

(** *** Restoration *)

(** A source that is a valid extension has an entry at the index the
    parent's history ends at. *)
Lemma isValidParent_length target parent :
  isValidParent target parent = Some true ->
  (length (from_option image.History [] parent)
   < length (image.History target))%nat.
Proof.
  unfold isValidParent. case_bool_decide as Hlen; [done|].
  destruct parent as [p|]; simpl; [|lia].
  destruct (bool_decide (length (image.History p) = 0)
            && bool_decide (length (image.DiffIDs (image.rootFS p)) = 0))
    eqn:Hempty.
  - apply andb_prop in Hempty as [Hh%bool_decide_eq_true _]. lia.
  - destruct (bool_decide (length (image.History target)
                           <= length (image.History p))) eqn:Hle; [done|].
    apply bool_decide_eq_false in Hle. lia.
Qed.

Section Restore.
Context {S : Type} `{ImageCacheStore S}.

(** C1, amended.  For every parent (nil or not) and every source image that
    is a valid extension of it and keeps the invariant of the data model,
    the restoration hands to the store's [Create] an image whose history is
    the parent's history with the single entry [target.History[lenHistory]]
    appended (just that entry when the parent is nil); whose root
    filesystem is the parent's (a fresh empty one when the parent is nil)
    with the located diff-ID appended exactly when that diff-ID is not the
    empty string; the located diff-ID is the empty string when the matched
    entry is an empty layer, and otherwise is the source's diff-ID at the
    number of non-empty layers before the entry; the config is the
    requested one, and architecture, OS and author are the source's. *)
Theorem restoreCachedImage_image (s : S) (parent : option image.Image)
  (target : image.Image) (cfg : option containertypes.Config) :
  isValidParent target parent = Some true ->
  image.lockstep target ->
  let history := from_option image.History [] parent in
  let rootFS := from_option image.rootFS image.NewRootFS parent in
  let lenHistory := length history in
  exists h parent' img layer,
    image.History target !! lenHistory = Some h
    /\ buildRestoredImage parent target cfg = Some (parent', img, layer)
    /\ restoreCachedImage s parent target cfg
       = (Some (match Create s parent' img layer with
                | (Err err, s') =>
                    (Err (Wrapf err "failed to create cache image" []), s')
                | (Ok imgID, s') => (Ok imgID, s')
                end),
          [CallCreate parent' img layer])
    /\ image.History img = (history ++ [h])%list
    /\ image.rootFS img
       = (if bool_decide (layer ≠ "") then image.Append rootFS layer
          else rootFS)
    /\ (ocispec.EmptyLayer h = true -> layer = "")
    /\ (ocispec.EmptyLayer h = false ->
        image.DiffIDs (image.rootFS target)
          !! image.nonEmptyLayers (take lenHistory (image.History target))
        = Some layer)
    /\ image.Config img = cfg
    /\ image.Architecture img = image.Architecture target
    /\ image.OS img = image.OS target
    /\ image.Author img = image.Author target.
Proof.
  intros Hvalid Hinv history rootFS lenHistory.
  assert (Hlt := isValidParent_length _ _ Hvalid). fold history lenHistory in Hlt.
  destruct (lookup_lt_is_Some_2 _ _ Hlt) as [h Hh].
  destruct (getLayerForHistoryIndex_located target lenHistory h Hh Hinv)
    as (layer & Hget & Hl1 & Hl2).
  assert (exists parent' img,
            buildRestoredImage parent target cfg = Some (parent', img, layer)
            /\ image.History img = (history ++ [h])%list
            /\ image.rootFS img
               = (if bool_decide (layer ≠ "") then image.Append rootFS layer
                  else rootFS)
            /\ image.Config img = cfg
            /\ image.Architecture img = image.Architecture target
            /\ image.OS img = image.OS target
            /\ image.Author img = image.Author target)
    as (parent' & img & Hbuild & Hrest).
  { unfold buildRestoredImage.
    replace (match parent with
             | Some p => length (image.History p)
             | None => 0
             end) with lenHistory by (by destruct parent).
    rewrite Hh. simpl. rewrite Hget. simpl.
    rewrite last_snoc. simpl.
    eexists _, _. split; [reflexivity|].
    simpl. by destruct parent. }
  exists h, parent', img, layer.
  split; [done|]. split; [done|]. split.
  { unfold restoreCachedImage. rewrite Hbuild.
    by destruct (Create s parent' img layer) as [[?|?] ?]. }
  destruct Hrest as (? & ? & ? & ? & ? & ?). by repeat split.
Qed.

End Restore.

(** C1, as stated, fails: the layer is appended when the located diff-ID
    is not the empty string, which is not the same as the matched entry
    having a layer.  For [blankDiff] on top of [base] the entry at index 1
    has a layer, the diff-ID recorded for it is the empty string, and
    nothing is appended.  And for [shortDiffs], whose diff list is shorter
    than its layers, the lookup runs past the diff list: the restoration
    panics and there is no restored image at all. *)
Lemma restoreCachedImage_blank_diff_not_appended :
  let cfg := Some (Sample.cfg ["RUN"; "make"]) in
  (isCandidate (Some Sample.base) 1 cfg Sample.blankDiff = Some true
   /\ (Z.of_nat (length (image.History Sample.blankDiff)) - 1 <> 1)%Z
   /\ image.History Sample.blankDiff !! 1 = Some Sample.h1
   /\ ocispec.EmptyLayer Sample.h1 = false
   /\ getLayerForHistoryIndex Sample.blankDiff 1 = Some ""
   /\ (exists parent' img,
         buildRestoredImage (Some Sample.base) Sample.blankDiff cfg
         = Some (parent', img, "")
         /\ image.rootFS img = image.rootFS Sample.base
         /\ image.rootFS img <> image.Append (image.rootFS Sample.base) "")
   /\ exists parent' img,
        last (GetCache_exit MemStore.comparePlatform MemStore.compare 8
                {| sources := [Sample.blankDiff];
                   store := Sample.localStore |}
                "sha256:base" cfg Sample.linuxAmd64).2
        = Some (CallCreate parent' img "")
        /\ image.DiffIDs (image.rootFS img) = [])
  /\ (isCandidate None 0 cfg Sample.shortDiffs = Some true
      /\ (Z.of_nat (length (image.History Sample.shortDiffs)) - 1 <> 0)%Z
      /\ getLayerForHistoryIndex Sample.shortDiffs 0 = None
      /\ buildRestoredImage None Sample.shortDiffs cfg = None
      /\ (GetCache_exit MemStore.comparePlatform MemStore.compare 8
            {| sources := [Sample.shortDiffs]; store := Sample.localStore |}
            "" cfg Sample.linuxAmd64).1.1
         = ExitPanic).
Proof.
  split.
  - split; [reflexivity|]. split; [discriminate|].
    do 3 (split; [reflexivity|]). split.
    + eexists _, _. split; [vm_compute; reflexivity|].
      split; [reflexivity|]. simpl. discriminate.
    + eexists _, _. split; [vm_compute; reflexivity|]. reflexivity.
  - split; [reflexivity|]. split; [discriminate|].
    do 2 (split; [reflexivity|]). vm_compute. reflexivity.
Qed.

Lemma restoreCachedImage_image_witness :
  exists parent' img,
    buildRestoredImage (Some Sample.base) Sample.source
      (Some (Sample.cfg ["RUN"; "make"]))
    = Some (parent', img, "sha256:d1")
    /\ image.History img = [Sample.h0; Sample.h1]
    /\ image.DiffIDs (image.rootFS img) = ["sha256:d1"].
Proof.
  destruct (restoreCachedImage_image Sample.localStore (Some Sample.base)
              Sample.source (Some (Sample.cfg ["RUN"; "make"])))
    as (h & parent' & img & layer & Hh & Hbuild & _ & Hhist & Hroot & _);
    [reflexivity|reflexivity|].
  exists parent', img.
  vm_compute in Hh. injection Hh as <-.
  assert (layer = "sha256:d1") as ->.
  { vm_compute in Hbuild. by injection Hbuild as _ _ <-. }
  split; [done|]. split; [done|]. by rewrite Hroot.
Defined.

(** C8, as stated, fails: with an empty parent the match is at index 0,
    not 1.  For the source [[h0; h1; h2]] with [h1] a non-empty layer, the
    image restored from a nil parent has the history [[h0]], not [[h1]],
    and (as [h0] is an empty layer here) an empty diff list; and
    [GetCache], asked with an empty parent for the command of [h1], tests
    [h0] and misses.  A match at index 1 is a match on top of a parent
    that holds [[h0]], and the restored history is then [[h0; h1]], not
    [[h1]].  At index 1 the diff list of the restored image is not one
    element long, or that element is not the source's first diff-ID, when
    the diff-ID located for [h1] is the empty string ([blankDiff]: nothing
    is appended) and when [h0] has a layer of its own ([threeLayers] on
    top of [firstLayer]: the layer of [h1] is the source's second
    diff-ID, appended to the parent's one). *)
Lemma restoreCachedImage_empty_parent_index_0 :
  let cfg := Some (Sample.cfg ["RUN"; "make"]) in
  image.History Sample.source = [Sample.h0; Sample.h1; Sample.h2]
  /\ ocispec.EmptyLayer Sample.h1 = false
  /\ isValidConfig cfg Sample.h1 = Some true
  /\ (exists img,
        buildRestoredImage None Sample.source cfg = Some (None, img, "")
        /\ image.History img = [Sample.h0]
        /\ image.History img <> [Sample.h1]
        /\ image.DiffIDs (image.rootFS img) = []
        /\ image.Config img = cfg)
  /\ GetCache MemStore.comparePlatform MemStore.compare 8
       {| sources := [Sample.source]; store := Sample.localStore |}
       "" cfg Sample.linuxAmd64
     = (Some ("", None),
        {| sources := [Sample.source]; store := Sample.localStore |})
  /\ (exists parent' img,
        buildRestoredImage (Some Sample.base) Sample.source cfg
        = Some (parent', img, "sha256:d1")
        /\ image.History img = [Sample.h0; Sample.h1]
        /\ image.History img <> [Sample.h1])
  /\ (exists parent' img,
        buildRestoredImage (Some Sample.base) Sample.blankDiff cfg
        = Some (parent', img, "")
        /\ image.History img = [Sample.h0; Sample.h1]
        /\ image.DiffIDs (image.rootFS img) = [])
  /\ (exists parent' img,
        ocispec.EmptyLayer <$> image.History Sample.threeLayers
        = [false; false; false]
        /\ buildRestoredImage (Some Sample.firstLayer) Sample.threeLayers
             (Some (Sample.cfg ["RUN"; "b"]))
           = Some (parent', img, "sha256:b")
        /\ image.DiffIDs (image.rootFS img) = ["sha256:a"; "sha256:b"]).
Proof.
  do 3 (split; [reflexivity|]). split; [|split; [|split; [|split]]].
  - eexists. split; [vm_compute; reflexivity|].
    split; [reflexivity|]. split; [discriminate|]. split; reflexivity.
  - vm_compute. reflexivity.
  - eexists _, _. split; [vm_compute; reflexivity|].
    split; [reflexivity|]. discriminate.
  - eexists _, _. split; [vm_compute; reflexivity|]. split; reflexivity.
  - eexists _, _. split; [reflexivity|].
    split; [vm_compute; reflexivity|]. reflexivity.
Qed.

(** C8, amended.  Given a source image with history [[h0; h1; h2]] where
    [h1] is not an empty layer, a match at index 1 is a match on top of a
    parent that holds the history [[h0]].  When [h0] is an empty layer,
    the parent accordingly has an empty diff list, and the source's first
    diff-ID is not the empty string: the parent is a valid parent of the
    source; the layer located for index 1, by counting the non-empty
    layers before it, is the source's first diff-ID; and the restored
    image has the history [[h0; h1]], a diff list of length 1 whose
    element is the source's first diff-ID, and the requested config,
    whatever the source's own config is. *)
Theorem restoreCachedImage_second_step (parent target : image.Image)
  (cfg : option containertypes.Config) (h0 h1 h2 : ocispec.History)
  (d0 : layer.DiffID) (ds : list layer.DiffID) :
  image.History target = [h0; h1; h2] ->
  ocispec.EmptyLayer h0 = true ->
  ocispec.EmptyLayer h1 = false ->
  image.DiffIDs (image.rootFS target) = d0 :: ds ->
  d0 <> "" ->
  image.History parent = [h0] ->
  image.DiffIDs (image.rootFS parent) = [] ->
  isValidParent target (Some parent) = Some true
  /\ image.nonEmptyLayers (take 1 (image.History target)) = 0
  /\ getLayerForHistoryIndex target 1 = Some d0
  /\ exists parent' img,
       buildRestoredImage (Some parent) target cfg = Some (parent', img, d0)
       /\ image.History img = [h0; h1]
       /\ image.DiffIDs (image.rootFS img) = [d0]
       /\ length (image.DiffIDs (image.rootFS img)) = 1
       /\ image.Config img = cfg.
Proof.
  intros Hhist He0 He1 Hdiffs Hd0 Hphist Hpdiffs.
  assert (getLayerForHistoryIndex target 1 = Some d0) as Hget.
  { unfold getLayerForHistoryIndex. rewrite Hhist. simpl.
    rewrite He0, He1, Hdiffs. done. }
  split.
  { unfold isValidParent. rewrite Hhist, Hphist, Hpdiffs. simpl.
    by rewrite bool_decide_eq_true_2. }
  split.
  { rewrite Hhist. change (take 1 [h0; h1; h2]) with [h0].
    rewrite nonEmptyLayers_cons, He0. done. }
  split; [done|].
  unfold buildRestoredImage. rewrite Hhist, Hphist. simpl. rewrite Hget. simpl.
  rewrite bool_decide_eq_true_2 by done.
  eexists _, _. split; [reflexivity|]. simpl. rewrite Hpdiffs. done.
Qed.

Lemma restoreCachedImage_second_step_witness :
  image.Config Sample.source <> Some (Sample.cfg ["RUN"; "make"])
  /\ exists parent' img,
       buildRestoredImage (Some Sample.base) Sample.source
         (Some (Sample.cfg ["RUN"; "make"]))
       = Some (parent', img, "sha256:d1")
       /\ image.History img = [Sample.h0; Sample.h1]
       /\ image.DiffIDs (image.rootFS img) = ["sha256:d1"]
       /\ length (image.DiffIDs (image.rootFS img)) = 1
       /\ image.Config img = Some (Sample.cfg ["RUN"; "make"]).
Proof.
  split; [discriminate|].
  apply (restoreCachedImage_second_step Sample.base Sample.source
           (Some (Sample.cfg ["RUN"; "make"]))
           Sample.h0 Sample.h1 Sample.h2 "sha256:d1" ["sha256:d2"]);
    [reflexivity|reflexivity|reflexivity|reflexivity|discriminate
    |reflexivity|reflexivity].
Defined.

(** *** The history-based cache *)

Section HistoryCache.
Context {S : Type} `{ImageCacheStore S}.
Variable comparePlatform : ocispec.Platform -> ocispec.Platform -> bool.
Variable compare : containertypes.Config -> containertypes.Config -> bool.

Abbreviation LocalImageCache_GetCache :=
  (cache.LocalImageCache_GetCache comparePlatform compare).
Abbreviation localPhase := (cache.localPhase comparePlatform compare).
Abbreviation GetCache_exit := (cache.GetCache_exit comparePlatform compare).
Abbreviation GetCache := (cache.GetCache comparePlatform compare).
Abbreviation GetCache_run := (cache.GetCache_run comparePlatform compare).

(** More fuel does not change an ancestry check that finished. *)
Lemma isParent_fuel_mono fuel : forall fuel' s imgID parentID b calls,
  (fuel <= fuel')%nat ->
  isParent fuel s imgID parentID = (Some b, calls) ->
  isParent fuel' s imgID parentID = (Some b, calls).
Proof.
  induction fuel as [|fuel IH]; intros fuel' s imgID parentID b calls Hle;
    simpl; [done|].
  destruct fuel' as [|fuel']; [lia|]. simpl.
  destruct (GetParent s imgID) as [nextParent|]; [|done].
  case_bool_decide; [done|].
  destruct (isParent fuel s nextParent parentID) as [r c] eqn:Hrec.
  intros [= -> <-].
  by rewrite (IH fuel' s nextParent parentID b c ltac:(lia) Hrec).
Qed.

Lemma anyIsParent_fuel_mono fuel fuel' s srcs imgID : forall b calls,
  (fuel <= fuel')%nat ->
  anyIsParent fuel s srcs imgID = (Some b, calls) ->
  anyIsParent fuel' s srcs imgID = (Some b, calls).
Proof.
  induction srcs as [|src srcs IH]; intros b calls Hle; simpl; [done|].
  destruct (isParent fuel s (image.computedID src) imgID) as [[[|]|] c]
    eqn:Hp; [| |done].
  - intros [= <- <-]. by rewrite (isParent_fuel_mono _ _ _ _ _ _ _ Hle Hp).
  - rewrite (isParent_fuel_mono _ _ _ _ _ _ _ Hle Hp).
    destruct (anyIsParent fuel s srcs imgID) as [r c'] eqn:Hrest.
    intros [= -> <-]. by rewrite (IH b c' Hle eq_refl).
Qed.

(** The ancestry check looks at the identities of the sources only. *)
Lemma anyIsParent_ids fuel s imgID : forall srcs1 srcs2,
  image.computedID <$> srcs1 = image.computedID <$> srcs2 ->
  anyIsParent fuel s srcs1 imgID = anyIsParent fuel s srcs2 imgID.
Proof.
  induction srcs1 as [|a srcs1 IH]; intros [|b srcs2]; simpl; try done.
  intros [= -> Hrest]. by rewrite (IH srcs2 Hrest).
Qed.

(** The calls of an ancestry check are all [GetParent]. *)
Lemma isParent_calls fuel : forall s imgID parentID r calls,
  isParent fuel s imgID parentID = (r, calls) ->
  Forall (fun c => exists id, c = CallGetParent id) calls.
Proof.
  induction fuel as [|fuel IH]; intros s imgID parentID r calls; simpl.
  - by intros [= _ <-].
  - destruct (GetParent s imgID) as [nextParent|].
    + case_bool_decide.
      * intros [= _ <-]. repeat constructor. by eexists.
      * destruct (isParent fuel s nextParent parentID) as [r' c] eqn:Hrec.
        intros [= _ <-]. constructor; [by eexists|]. by eapply IH.
    + intros [= _ <-]. repeat constructor. by eexists.
Qed.

Lemma anyIsParent_calls fuel s imgID : forall srcs r calls,
  anyIsParent fuel s srcs imgID = (r, calls) ->
  Forall (fun c => exists id, c = CallGetParent id) calls.
Proof.
  induction srcs as [|src srcs IH]; intros r calls; simpl.
  - by intros [= _ <-].
  - destruct (isParent fuel s (image.computedID src) imgID) as [[[|]|] c]
      eqn:Hp; try (intros [= _ <-]; by eapply isParent_calls).
    destruct (anyIsParent fuel s srcs imgID) as [r' c'] eqn:Hrest.
    intros [= _ <-]. apply Forall_app. split.
    + by eapply isParent_calls.
    + by eapply IH.
Qed.

(** The fast path, for a run of the ancestry loop that answers true: the
    cache and the store are left as they were, the only calls made on the
    store after the local lookup are [GetParent] calls, the parent image
    is not fetched, and the answer is the same for any sources with the
    same identities, whatever their histories are. *)
Lemma GetCache_fast_path_taken (fuel : nat) (ic : ImageCache)
  (parentID : string) (cfg : option containertypes.Config)
  (platform : ocispec.Platform) (imgID : string) (c1 c2 : list StoreCall) :
  LocalImageCache_GetCache (store ic) parentID cfg platform
  = (Some (imgID, None), c1) ->
  imgID <> "" ->
  anyIsParent fuel (store ic) (sources ic) imgID = (Some true, c2) ->
  GetCache_exit fuel ic parentID cfg platform
  = (ExitFastPath imgID, ic, (c1 ++ c2)%list)
  /\ GetCache fuel ic parentID cfg platform = (Some (imgID, None), ic)
  /\ Forall (fun c => exists id, c = CallGetParent id) c2
  /\ (forall fuel' srcs,
        (fuel <= fuel')%nat ->
        image.computedID <$> srcs = image.computedID <$> sources ic ->
        let ic' := {| sources := srcs; store := store ic |} in
        GetCache fuel' ic' parentID cfg platform = (Some (imgID, None), ic')).
Proof.
  intros Hlocal Hne Hanc.
  assert (forall fuel' srcs,
            (fuel <= fuel')%nat ->
            image.computedID <$> srcs = image.computedID <$> sources ic ->
            GetCache_exit fuel' {| sources := srcs; store := store ic |}
              parentID cfg platform
            = (ExitFastPath imgID, {| sources := srcs; store := store ic |},
               (c1 ++ c2)%list)) as Hfast.
  { intros fuel' srcs Hle Hids.
    unfold cache.GetCache_exit, cache.localPhase. simpl.
    rewrite Hlocal. rewrite bool_decide_eq_true_2 by done.
    rewrite (anyIsParent_ids fuel' (store ic) imgID srcs (sources ic) Hids).
    by rewrite (anyIsParent_fuel_mono _ _ _ _ _ _ _ Hle Hanc). }
  assert (GetCache_exit fuel ic parentID cfg platform
          = (ExitFastPath imgID, ic, (c1 ++ c2)%list)) as Hexit.
  { specialize (Hfast fuel (sources ic) (Nat.le_refl _) eq_refl).
    by destruct ic. }
  split; [done|]. split.
  { unfold cache.GetCache. by rewrite Hexit. }
  split; [by eapply anyIsParent_calls|].
  intros fuel' srcs Hle Hids. cbv zeta. unfold cache.GetCache.
  by rewrite (Hfast fuel' srcs Hle Hids).
Qed.

(** The loop over the sources acts on the first candidate. *)
Lemma scanSources_first_candidate ic parentID parent lenHistory cfg target
  post : forall pre,
  Forall (fun t => isCandidate parent lenHistory cfg t = Some false) pre ->
  isCandidate parent lenHistory cfg target = Some true ->
  scanSources ic parentID parent lenHistory cfg (pre ++ target :: post)
  = useCandidate ic parentID parent lenHistory cfg target.
Proof.
  induction pre as [|t pre IH]; intros Hpre Htarget; simpl.
  - by rewrite Htarget.
  - apply Forall_cons in Hpre as [-> Hpre]. by apply IH.
Qed.

(** The final step, for a run whose local phase fell through: the outcome
    of [SetParent] decides between the source's own identity and the
    failure, wrapped. *)
Lemma GetCache_final_step_after_local (fuel : nat) (ic : ImageCache)
  (parentID : string) (cfg : option containertypes.Config)
  (platform : ocispec.Platform) (parent target : image.Image)
  (pre post : list image.Image) (c1 : list StoreCall) :
  localPhase fuel ic parentID cfg platform = (None, c1) ->
  parentID <> "" ->
  Get (store ic) parentID = Ok parent ->
  sources ic = (pre ++ target :: post)%list ->
  Forall (fun t => isCandidate (Some parent) (length (image.History parent))
                     cfg t = Some false) pre ->
  isCandidate (Some parent) (length (image.History parent)) cfg target
  = Some true ->
  (Z.of_nat (length (image.History target)) - 1
   = Z.of_nat (length (image.History parent)))%Z ->
  let call :=
    CallSetParent (image.computedID target) (image.computedID parent) in
  match SetParent (store ic) (image.computedID target)
          (image.computedID parent) with
  | (None, s') =>
      GetCache_exit fuel ic parentID cfg platform
      = (ExitFinalStep (image.computedID target),
         {| sources := sources ic; store := s' |},
         (c1 ++ [CallGet parentID; call])%list)
      /\ GetCache fuel ic parentID cfg platform
         = (Some (image.computedID target, None),
            {| sources := sources ic; store := s' |})
  | (Some err, s') =>
      let wrapped :=
        Wrapf err "failed to set parent for %v to %v"
          [image.computedID target; image.computedID parent] in
      GetCache_exit fuel ic parentID cfg platform
      = (ExitSetParentFailed wrapped,
         {| sources := sources ic; store := s' |},
         (c1 ++ [CallGet parentID; call])%list)
      /\ GetCache fuel ic parentID cfg platform
         = (Some ("", Some wrapped),
            {| sources := sources ic; store := s' |})
  end.
Proof.
  intros Hlocal Hne Hget Hsrc Hpre Htarget Hlast call.
  assert (historyPhase ic parentID cfg
          = let '(e, ic', calls) :=
              useCandidate ic parentID (Some parent)
                (length (image.History parent)) cfg target in
            (e, ic', CallGet parentID :: calls)) as Hhist.
  { unfold historyPhase. rewrite bool_decide_eq_true_2 by done.
    rewrite Hget, Hsrc.
    by rewrite (scanSources_first_candidate _ _ _ _ _ _ _ _ Hpre Htarget). }
  unfold cache.GetCache, cache.GetCache_exit. rewrite Hlocal, Hhist.
  unfold useCandidate. rewrite bool_decide_eq_true_2 by done.
  fold call.
  by destruct (SetParent (store ic) (image.computedID target)
                 (image.computedID parent)) as [[err|] s'].
Qed.

(** What [GetCache] does to the source set, exit by exit. *)
Lemma useCandidate_sources ic parentID parent lenHistory cfg target :
  let r := useCandidate ic parentID parent lenHistory cfg target in
  match r.1.1 with
  | ExitRestored _ t => t = target /\ sources r.1.2 = [target]
  | _ => sources r.1.2 = sources ic
  end.
Proof.
  unfold useCandidate. case_bool_decide.
  - destruct parent as [p|]; [|done].
    by destruct (SetParent _ _ _) as [[?|] ?].
  - by destruct (restoreCachedImage _ _ _ _) as [[[[?|?] ?]|] ?].
Qed.

Lemma scanSources_sources ic parentID parent lenHistory cfg :
  forall targets,
  let r := scanSources ic parentID parent lenHistory cfg targets in
  match r.1.1 with
  | ExitRestored _ t => t ∈ targets /\ sources r.1.2 = [t]
  | _ => sources r.1.2 = sources ic
  end.
Proof.
  induction targets as [|target rest IH]; simpl; [done|].
  destruct (isCandidate parent lenHistory cfg target) as [[|]|]; [| |done].
  - assert (Huse := useCandidate_sources ic parentID parent lenHistory cfg
                      target).
    simpl in Huse.
    destruct (useCandidate ic parentID parent lenHistory cfg target)
      as [[e ic'] calls]; simpl in *.
    destruct e; try done. destruct Huse as [-> ->]. split; [set_solver|done].
  - simpl in IH.
    destruct (scanSources ic parentID parent lenHistory cfg rest)
      as [[e ic'] calls]; simpl in *.
    destruct e; try done. destruct IH as [Hin ->]. split; [set_solver|done].
Qed.

Lemma GetCache_exit_sources fuel ic parentID cfg platform :
  let r := GetCache_exit fuel ic parentID cfg platform in
  HistorySpec.sourcesAfter (sources ic) r.1.1 (sources r.1.2).
Proof.
  unfold cache.GetCache_exit.
  destruct (localPhase fuel ic parentID cfg platform) as [[e|] c1] eqn:Hlocal.
  - simpl. unfold cache.localPhase in Hlocal.
    destruct (LocalImageCache_GetCache _ _ _ _) as [[[imgID [err|]]|] c0];
      simplify_eq; try done.
    case_bool_decide; [|done].
    destruct (anyIsParent _ _ _ _) as [[[|]|] c2]; by simplify_eq.
  - unfold historyPhase. case_bool_decide.
    + destruct (Get (store ic) parentID) as [parent|]; [|done].
      assert (Hscan := scanSources_sources ic parentID (Some parent)
                         (length (image.History parent)) cfg (sources ic)).
      simpl in Hscan.
      destruct (scanSources ic parentID (Some parent)
                  (length (image.History parent)) cfg (sources ic))
        as [[e ic'] calls]; simpl in *.
      by destruct e.
    + assert (Hscan := scanSources_sources ic parentID None 0 cfg
                         (sources ic)).
      simpl in Hscan.
      destruct (scanSources ic parentID None 0 cfg (sources ic))
        as [[e ic'] calls]; simpl in *.
      by destruct e.
Qed.

(** Once the source set is a single image it stays that image, whatever
    is asked next and whatever happens to the store in between. *)
Lemma GetCache_run_single fuel target : forall reqs s,
  sources (GetCache_run fuel {| sources := [target]; store := s |} reqs)
  = [target].
Proof.
  induction reqs as [|r reqs IH]; intros s; simpl; [done|].
  set (ic0 := {| sources := [target]; store := meanwhile r s |}).
  assert (Hstep := GetCache_exit_sources fuel ic0 (reqParentID r)
                     (reqConfig r) (reqPlatform r)).
  unfold cache.GetCache.
  destruct (GetCache_exit fuel ic0 (reqParentID r) (reqConfig r)
              (reqPlatform r)) as [[e [srcs s']] calls]; simpl in *.
  assert (srcs = [target]) as ->; [|apply IH].
  unfold HistorySpec.sourcesAfter in Hstep.
  destruct e; try done.
  destruct Hstep as [Hin ->]. apply list_elem_of_singleton in Hin. by subst.
Qed.

End HistoryCache.

(** *** Adequacy of the model *)

(** The index checks of [isValidParent] guard its two loops: it never
    panics. *)
Lemma rangeEqual_in_range {A} `{EqDecision A} (ys : list A) :
  forall (xs : list A) i,
  (i + length xs <= length ys)%nat -> is_Some (rangeEqual i xs ys).
Proof.
  induction xs as [|x xs IH]; intros i Hlen; simpl; [done|].
  simpl in Hlen.
  destruct (lookup_lt_is_Some_2 ys i ltac:(lia)) as [y ->].
  case_bool_decide; [|done]. apply IH. lia.
Qed.

Lemma isValidParent_total img parent : is_Some (isValidParent img parent).
Proof.
  unfold isValidParent. case_bool_decide; [done|].
  destruct parent as [p|]; [|done].
  destruct (_ && _); [done|].
  destruct (bool_decide (length (image.History img)
                         <= length (image.History p))) eqn:Hh; [done|].
  destruct (bool_decide (length (image.DiffIDs (image.rootFS img))
                         < length (image.DiffIDs (image.rootFS p)))) eqn:Hd;
    [done|].
  apply bool_decide_eq_false in Hh, Hd.
  destruct (rangeEqual_in_range (image.History img) (image.History p) 0
              ltac:(simpl; lia)) as [[|] ->]; [|done].
  apply rangeEqual_in_range. simpl. lia.
Qed.

(** The fuel only bounds the ancestry check: a call that did not run out
    of fuel does the same with any larger amount. *)
Lemma GetCache_exit_fuel_mono {S : Type} `{ImageCacheStore S}
  (comparePlatform : ocispec.Platform -> ocispec.Platform -> bool)
  (compare : containertypes.Config -> containertypes.Config -> bool)
  (fuel fuel' : nat) (ic : ImageCache) (parentID : string)
  (cfg : option containertypes.Config) (platform : ocispec.Platform) :
  (fuel <= fuel')%nat ->
  (GetCache_exit comparePlatform compare fuel ic parentID cfg platform).1.1
  <> ExitOutOfFuel ->
  GetCache_exit comparePlatform compare fuel' ic parentID cfg platform
  = GetCache_exit comparePlatform compare fuel ic parentID cfg platform.
Proof.
  intros Hle. unfold GetCache_exit.
  assert (forall e c,
            localPhase comparePlatform compare fuel ic parentID cfg platform
            = (e, c) ->
            e <> Some ExitOutOfFuel ->
            localPhase comparePlatform compare fuel' ic parentID cfg platform
            = (e, c)) as Hmono.
  { unfold localPhase. intros e c.
    destruct (LocalImageCache_GetCache _ _ _ _ _ _)
      as [[[imgID [err|]]|] c0]; try done.
    case_bool_decide; [|done].
    destruct (anyIsParent fuel _ _ _) as [[b|] c2] eqn:Hanc.
    - rewrite (anyIsParent_fuel_mono _ _ _ _ _ _ _ Hle Hanc). by destruct b.
    - by intros [= <- <-]. }
  destruct (localPhase comparePlatform compare fuel ic parentID cfg platform)
    as [[e|] c] eqn:Hlocal; simpl; intros Hne.
  - rewrite (Hmono _ _ eq_refl); [done|congruence].
  - by rewrite (Hmono _ _ eq_refl).
Qed.

(** *** Valid extensions *)

(** The loop [for i, x := range xs { if x != ys[i] ... }] compares [xs]
    with the segment of [ys] that starts at [i]. *)
Lemma rangeEqual_segment {A} `{EqDecision A} (ys : list A) :
  forall (xs : list A) i,
  (i + length xs <= length ys)%nat ->
  rangeEqual i xs ys
  = Some (bool_decide (xs = take (length xs) (drop i ys))).
Proof.
  induction xs as [|x xs IH]; intros i Hlen; simpl; [done|].
  simpl in Hlen.
  destruct (lookup_lt_is_Some_2 ys i ltac:(lia)) as [y Hy].
  rewrite Hy, (drop_S _ _ _ Hy). simpl.
  case_bool_decide as Hxy.
  - subst y. rewrite IH by lia. f_equal.
    apply bool_decide_ext. split; [by intros <-|by intros [= <-]].
  - f_equal. symmetry. apply bool_decide_eq_false_2. by intros [= ? _].
Qed.

Lemma take_length_prefix {A} (xs ys : list A) :
  xs = take (length xs) ys <-> xs `prefix_of` ys.
Proof.
  split.
  - intros Hxs. exists (drop (length xs) ys).
    rewrite Hxs at 1. by rewrite take_drop.
  - intros [k ->]. by rewrite take_app_length.
Qed.

(** X1.  [isValidParent] never indexes out of range, and it answers true
    exactly when the source has a non-empty history and the parent is nil,
    or has neither history nor layers, or has a strictly shorter history
    that is a prefix of the source's and a diff list that is a prefix of
    the source's.  The entries of the two histories are compared in whole
    (creation time with its zone, command, author, comment and empty-layer
    flag), the diff-IDs as strings. *)
Theorem isValidParent_valid_extension (img : image.Image)
  (parent : option image.Image) :
  is_Some (isValidParent img parent)
  /\ (isValidParent img parent = Some true
      <-> ExtensionSpec.validExtension img parent).
Proof.
  unfold isValidParent, ExtensionSpec.validExtension.
  case_bool_decide as Hlen.
  { split; [done|]. split; [done|]. intros [Hne _].
    by destruct (image.History img). }
  assert (image.History img <> []) as Hne by (by intros Heq; rewrite Heq in Hlen).
  destruct parent as [p|]; [|by repeat split].
  destruct (bool_decide (length (image.History p) = 0)) eqn:Hh0; simpl.
  - apply bool_decide_eq_true in Hh0.
    destruct (bool_decide (length (image.DiffIDs (image.rootFS p)) = 0))
      eqn:Hd0.
    + apply bool_decide_eq_true in Hd0. split; [done|].
      split; [|done]. intros _. split; [done|]. left.
      split; by apply nil_length_inv.
    + apply bool_decide_eq_false in Hd0.
      rewrite bool_decide_eq_false_2 by lia.
      destruct (bool_decide (length (image.DiffIDs (image.rootFS img))
                             < length (image.DiffIDs (image.rootFS p))))
        eqn:Hd.
      * apply bool_decide_eq_true in Hd. split; [done|]. split; [done|].
        intros [_ [[_ Hnil]|(_ & _ & Hpre%prefix_length)]]; [|lia].
        by rewrite Hnil in Hd0.
      * apply bool_decide_eq_false in Hd.
        rewrite !rangeEqual_segment by (simpl; lia). rewrite !drop_0.
        rewrite (nil_length_inv _ Hh0). simpl.
        split; [done|].
        rewrite <- (take_length_prefix (image.DiffIDs (image.rootFS p))).
        split.
        -- intros [= Heq%bool_decide_eq_true]. split; [done|]. right.
           split; [|split; [apply prefix_nil|done]].
           destruct (image.History img); [done|simpl; lia].
        -- intros [_ [[_ Hnil]|(_ & _ & Hpre)]].
           ++ by rewrite Hnil in Hd0.
           ++ by rewrite bool_decide_eq_true_2.
  - apply bool_decide_eq_false in Hh0.
    destruct (bool_decide (length (image.History img)
                           <= length (image.History p))) eqn:Hh.
    { apply bool_decide_eq_true in Hh. split; [done|]. split; [done|].
      intros [_ [[Hnil _]|(Hlt & _)]]; [by rewrite Hnil in Hh0|lia]. }
    apply bool_decide_eq_false in Hh.
    destruct (bool_decide (length (image.DiffIDs (image.rootFS img))
                           < length (image.DiffIDs (image.rootFS p))))
      eqn:Hd.
    { apply bool_decide_eq_true in Hd. split; [done|]. split; [done|].
      intros [_ [[Hnil _]|(_ & _ & Hpre%prefix_length)]]; [|lia].
      by rewrite Hnil in Hh0. }
    apply bool_decide_eq_false in Hd.
    rewrite !rangeEqual_segment by (simpl; lia). rewrite !drop_0.
    rewrite <- (take_length_prefix (image.DiffIDs (image.rootFS p))).
    rewrite <- (take_length_prefix (image.History p)).
    case_bool_decide as Hhp.
    + split; [done|]. split.
      * intros [= Heq%bool_decide_eq_true]. split; [done|]. right.
        split; [lia|done].
      * intros [_ [[Hnil _]|(_ & _ & Hpre)]]; [by rewrite Hnil in Hh0|].
        by rewrite bool_decide_eq_true_2.
    + split; [done|]. split; [done|].
      intros [_ [[Hnil _]|(_ & Hpre & _)]]; [by rewrite Hnil in Hh0|done].
Qed.

(** The comparison is of whole entries: [base] is a valid parent of
    [source]; it is no longer one when its entry differs from the
    source's in the comment only, in the author only, or in the zone of
    the creation time only, the instant being the same. *)
Lemma isValidParent_compares_whole_entries :
  isValidParent Sample.source (Some Sample.base) = Some true
  /\ isValidParent Sample.source (Some Sample.commented) = Some false
  /\ isValidParent Sample.source (Some Sample.reauthored) = Some false
  /\ isValidParent Sample.source (Some Sample.rezoned) = Some false
  /\ omap (fun h => time.instant <$> ocispec.Created h)
       (image.History Sample.rezoned)
     = omap (fun h => time.instant <$> ocispec.Created h)
         (image.History Sample.base).
Proof. repeat split; vm_compute; reflexivity. Qed.

(** *** The ancestry check *)

Section Ancestry.
Context {S : Type} `{ImageCacheStore S}.

Lemma isParent_true_ancestor fuel : forall (s : S) imgID parentID calls,
  isParent fuel s imgID parentID = (Some true, calls) ->
  exists n, length calls = Datatypes.S n /\ (n < fuel)%nat
            /\ ExtensionSpec.nthParent s (Datatypes.S n) imgID = Some parentID.
Proof.
  induction fuel as [|fuel IH]; intros s imgID parentID calls; simpl; [done|].
  destruct (GetParent s imgID) as [q|] eqn:Hq; [|done].
  case_bool_decide as Hqp.
  - intros [= <-]. exists 0%nat. simpl. subst q.
    split; [done|]. split; [lia|done].
  - destruct (isParent fuel s q parentID) as [r c] eqn:Hrec.
    intros [= -> <-].
    destruct (IH _ _ _ _ Hrec) as (n & Hlen & Hlt & Hnth).
    exists (Datatypes.S n). simpl in *.
    split; [lia|]. split; [lia|done].
Qed.

Lemma isParent_false_no_ancestor fuel : forall (s : S) imgID parentID calls,
  isParent fuel s imgID parentID = (Some false, calls) ->
  forall n, ExtensionSpec.nthParent s (Datatypes.S n) imgID <> Some parentID.
Proof.
  induction fuel as [|fuel IH]; intros s imgID parentID calls; simpl; [done|].
  destruct (GetParent s imgID) as [q|] eqn:Hq; [|done].
  case_bool_decide as Hqp; [done|].
  destruct (isParent fuel s q parentID) as [r c] eqn:Hrec.
  intros [= -> <-] [|n].
  - simpl. congruence.
  - by apply (IH _ _ _ _ Hrec).
Qed.

Lemma ancestor_isParent_true fuel : forall (s : S) imgID parentID n,
  ExtensionSpec.nthParent s (Datatypes.S n) imgID = Some parentID ->
  (n < fuel)%nat ->
  (isParent fuel s imgID parentID).1 = Some true.
Proof.
  induction fuel as [|fuel IH]; intros s imgID parentID n Hnth Hlt; [lia|].
  simpl in *.
  destruct (GetParent s imgID) as [q|] eqn:Hq; [|done].
  case_bool_decide as Hqp; [done|].
  destruct n as [|n]; [simpl in Hnth; congruence|].
  specialize (IH s q parentID n Hnth ltac:(lia)).
  by destruct (isParent fuel s q parentID).
Qed.

(** X2.  [isParent] answers true exactly for a proper ancestor: when it
    answers true, the image asked for is reached from the start by
    following as many parent links as [GetParent] calls were made, at
    least one; when it answers false, the image is not reached by any
    number of links; and an image reached by [n + 1] links is found by
    every run that may recurse deeper than [n]. *)
Theorem isParent_proper_ancestor (s : S) (imgID parentID : image.ID) :
  (forall fuel calls,
     isParent fuel s imgID parentID = (Some true, calls) ->
     exists n, length calls = Datatypes.S n
               /\ ExtensionSpec.nthParent s (Datatypes.S n) imgID
                  = Some parentID)
  /\ (forall fuel calls,
        isParent fuel s imgID parentID = (Some false, calls) ->
        forall n,
          ExtensionSpec.nthParent s (Datatypes.S n) imgID <> Some parentID)
  /\ (forall n fuel,
        ExtensionSpec.nthParent s (Datatypes.S n) imgID = Some parentID ->
        (n < fuel)%nat ->
        (isParent fuel s imgID parentID).1 = Some true).
Proof.
  split; [|split].
  - intros fuel calls Htrue.
    destruct (isParent_true_ancestor _ _ _ _ _ Htrue) as (n & Hlen & _ & Hn).
    by exists n.
  - intros fuel calls Hfalse. by eapply isParent_false_no_ancestor.
  - intros n fuel Hnth Hlt. by eapply ancestor_isParent_true.
Qed.

(** X3.  [isParent] has no guard against cycles: when the parent links
    from the start never fail and never reach the image asked for (as on
    a cycle that does not contain it), the recursion reaches every bound
    on its depth. *)
Theorem isParent_no_cycle_guard (s : S) (parentID : image.ID)
  (P : image.ID -> Prop) :
  (forall x, P x -> exists y, GetParent s x = Ok y /\ y <> parentID /\ P y) ->
  forall imgID fuel, P imgID -> (isParent fuel s imgID parentID).1 = None.
Proof.
  intros Hclosed imgID fuel. revert imgID.
  induction fuel as [|fuel IH]; intros imgID HP; simpl; [done|].
  destruct (Hclosed imgID HP) as (y & -> & Hne & HPy).
  rewrite bool_decide_eq_false_2 by done.
  specialize (IH y HPy). by destruct (isParent fuel s y parentID).
Qed.

End Ancestry.

Lemma isParent_proper_ancestor_witness :
  (isParent 3 Sample.chainStore "sha256:source" "sha256:base").1 = Some true.
Proof.
  apply (proj2 (proj2 (isParent_proper_ancestor Sample.chainStore
                         "sha256:source" "sha256:base")) 1%nat 3%nat);
    [reflexivity|lia].
Defined.

Lemma isParent_no_cycle_guard_witness :
  (isParent 1000 Sample.cycleStore "sha256:a" "sha256:base").1 = None.
Proof.
  apply (isParent_no_cycle_guard Sample.cycleStore "sha256:base"
           (fun x => x = "sha256:a" \/ x = "sha256:b")); [|by left].
  intros x [->| ->].
  - exists "sha256:b". split; [reflexivity|]. split; [discriminate|by right].
  - exists "sha256:a". split; [reflexivity|]. split; [discriminate|by left].
Defined.

(** *** Restoration keeps the chain going *)

(** A valid parent's history and diff list are prefixes of the source's. *)
Lemma isValidParent_prefixes target parent :
  isValidParent target parent = Some true ->
  from_option image.History [] parent `prefix_of` image.History target
  /\ image.DiffIDs (from_option image.rootFS image.NewRootFS parent)
     `prefix_of` image.DiffIDs (image.rootFS target).
Proof.
  unfold isValidParent. case_bool_decide as Hlen; [done|].
  destruct parent as [p|]; simpl; [|intros _; split; apply prefix_nil].
  destruct (bool_decide (length (image.History p) = 0)
            && bool_decide (length (image.DiffIDs (image.rootFS p)) = 0))
    eqn:Hempty.
  - apply andb_prop in Hempty
      as [Hh%bool_decide_eq_true Hd%bool_decide_eq_true].
    rewrite (nil_length_inv _ Hh), (nil_length_inv _ Hd).
    intros _. split; apply prefix_nil.
  - destruct (bool_decide (length (image.History target)
                           <= length (image.History p))) eqn:Hh; [done|].
    destruct (bool_decide (length (image.DiffIDs (image.rootFS target))
                           < length (image.DiffIDs (image.rootFS p))))
      eqn:Hd; [done|].
    apply bool_decide_eq_false in Hh, Hd.
    rewrite !rangeEqual_segment by (simpl; lia). rewrite !drop_0.
    destruct (bool_decide (image.History p = _)) eqn:Hhp; [|done].
    apply bool_decide_eq_true in Hhp.
    intros [= Hdp%bool_decide_eq_true].
    split; by apply take_length_prefix.
Qed.

(** What the restoration builds, for a valid extension that keeps the
    invariant of the data model. *)
Lemma buildRestoredImage_built parent target cfg :
  isValidParent target parent = Some true ->
  image.lockstep target ->
  let history := from_option image.History [] parent in
  let rootFS := from_option image.rootFS image.NewRootFS parent in
  exists h parent' img layer,
    image.History target !! length history = Some h
    /\ buildRestoredImage parent target cfg = Some (parent', img, layer)
    /\ image.History img = (history ++ [h])%list
    /\ image.DiffIDs (image.rootFS img)
       = (image.DiffIDs rootFS
          ++ if bool_decide (layer ≠ "") then [layer] else [])%list
    /\ (ocispec.EmptyLayer h = true -> layer = "")
    /\ (ocispec.EmptyLayer h = false ->
        image.DiffIDs (image.rootFS target)
          !! image.nonEmptyLayers (take (length history) (image.History target))
        = Some layer).
Proof.
  intros Hvalid Hinv history rootFS.
  assert (Hlt := isValidParent_length _ _ Hvalid). fold history in Hlt.
  destruct (lookup_lt_is_Some_2 _ _ Hlt) as [h Hh].
  destruct (getLayerForHistoryIndex_located target (length history) h Hh Hinv)
    as (layer & Hget & Hl1 & Hl2).
  unfold buildRestoredImage.
  replace (match parent with
           | Some p => length (image.History p)
           | None => 0
           end) with (length history) by (by destruct parent).
  rewrite Hh. simpl. rewrite Hget. simpl. rewrite last_snoc. simpl.
  eexists h, _, _, layer. split; [done|]. split; [reflexivity|]. simpl.
  split; [by destruct parent|]. split; [|done].
  unfold rootFS. case_bool_decide; destruct parent; simpl;
    by rewrite ?app_nil_r.
Qed.

(** X4.  Restoration keeps the invariant of the data model: when the
    parent (if any) and the source have as many diff-IDs as non-empty
    layers, the source is a valid extension of the parent and none of its
    diff-IDs is the empty string, the restored image has as many diff-IDs
    as non-empty layers too. *)
Theorem restoreCachedImage_keeps_lockstep (parent : option image.Image)
  (target : image.Image) (cfg : option containertypes.Config)
  (parent' : option image.Image) (img : image.Image) (layer : layer.DiffID) :
  isValidParent target parent = Some true ->
  image.lockstep target ->
  from_option image.lockstep True parent ->
  Forall (fun d => d <> "") (image.DiffIDs (image.rootFS target)) ->
  buildRestoredImage parent target cfg = Some (parent', img, layer) ->
  image.lockstep img.
Proof.
  intros Hvalid Hinv Hpinv Hdigests Hbuild.
  destruct (buildRestoredImage_built parent target cfg Hvalid Hinv)
    as (h & p2 & img2 & l2 & Hh & Hbuild2 & Hhist & Hdiffs & Hl1 & Hl2).
  rewrite Hbuild in Hbuild2. injection Hbuild2 as <- <- <-.
  unfold image.lockstep. rewrite Hhist, Hdiffs, nonEmptyLayers_app, length_app.
  assert (length (image.DiffIDs
                    (from_option image.rootFS image.NewRootFS parent))
          = image.nonEmptyLayers (from_option image.History [] parent))
    as -> by (by destruct parent).
  f_equal. rewrite nonEmptyLayers_cons.
  destruct (ocispec.EmptyLayer h) eqn:He.
  - rewrite (Hl1 eq_refl). by rewrite bool_decide_eq_false_2 by (by intros ?).
  - rewrite bool_decide_eq_true_2; [done|].
    specialize (Hl2 eq_refl).
    by apply (Forall_lookup_1 _ _ _ _ Hdigests Hl2).
Qed.

(** X5.  Restoration composes with the candidate test: under the same
    conditions, when the match is in mid-history the restored image is
    itself a valid parent for the same source, one history entry further
    on, so the next build step can be matched against that source. *)
Theorem restoreCachedImage_extends_to_target (parent : option image.Image)
  (target : image.Image) (cfg : option containertypes.Config)
  (parent' : option image.Image) (img : image.Image) (layer : layer.DiffID) :
  isValidParent target parent = Some true ->
  image.lockstep target ->
  from_option image.lockstep True parent ->
  Forall (fun d => d <> "") (image.DiffIDs (image.rootFS target)) ->
  (Z.of_nat (length (image.History target)) - 1
   <> Z.of_nat (length (from_option image.History [] parent)))%Z ->
  buildRestoredImage parent target cfg = Some (parent', img, layer) ->
  isValidParent target (Some img) = Some true
  /\ length (image.History img)
     = Datatypes.S (length (from_option image.History [] parent)).
Proof.
  intros Hvalid Hinv Hpinv Hdigests Hmid Hbuild.
  destruct (buildRestoredImage_built parent target cfg Hvalid Hinv)
    as (h & p2 & img2 & l2 & Hh & Hbuild2 & Hhist & Hdiffs & Hl1 & Hl2).
  rewrite Hbuild in Hbuild2. injection Hbuild2 as <- <- <-.
  assert (Hlt := isValidParent_length _ _ Hvalid).
  destruct (isValidParent_prefixes _ _ Hvalid) as [Hph Hpd].
  set (history := from_option image.History [] parent) in *.
  set (diffs := image.DiffIDs
                  (from_option image.rootFS image.NewRootFS parent)) in *.
  apply take_length_prefix in Hph, Hpd.
  assert (length diffs = image.nonEmptyLayers history) as Hplock
    by (by destruct parent).
  assert (length (image.History img) = Datatypes.S (length history)) as Hlen.
  { rewrite Hhist, length_app. simpl. lia. }
  split; [|done].
  assert (image.History img
          = take (length (image.History img)) (image.History target)) as Hpre.
  { rewrite Hlen, (take_S_r _ _ _ Hh), <- Hph. done. }
  assert (image.DiffIDs (image.rootFS img)
          = take (length (image.DiffIDs (image.rootFS img)))
              (image.DiffIDs (image.rootFS target))) as Hdpre.
  { rewrite Hdiffs. destruct (ocispec.EmptyLayer h) eqn:He.
    - rewrite (Hl1 eq_refl).
      rewrite bool_decide_eq_false_2 by (by intros ?).
      by rewrite app_nil_r.
    - specialize (Hl2 eq_refl). rewrite <- Hph, <- Hplock in Hl2.
      rewrite bool_decide_eq_true_2
        by (by apply (Forall_lookup_1 _ _ _ _ Hdigests Hl2)).
      rewrite length_app. simpl.
      replace (length diffs + 1)%nat with (Datatypes.S (length diffs)) by lia.
      by rewrite (take_S_r _ _ _ Hl2), <- Hpd. }
  assert (length (image.DiffIDs (image.rootFS img))
          <= length (image.DiffIDs (image.rootFS target)))%nat as Hdlen.
  { rewrite Hdpre, length_take. lia. }
  unfold isValidParent.
  rewrite bool_decide_eq_false_2 by lia.
  rewrite (bool_decide_eq_false_2 (length (image.History img) = 0)) by lia.
  simpl.
  rewrite bool_decide_eq_false_2 by lia.
  rewrite bool_decide_eq_false_2 by lia.
  rewrite !rangeEqual_segment by (simpl; lia). rewrite !drop_0.
  rewrite bool_decide_eq_true_2 by done.
  by rewrite bool_decide_eq_true_2.
Qed.

Lemma restoreCachedImage_keeps_lockstep_witness :
  exists parent' img,
    buildRestoredImage (Some Sample.base) Sample.source
      (Some (Sample.cfg ["RUN"; "make"]))
    = Some (parent', img, "sha256:d1")
    /\ image.lockstep img.
Proof.
  destruct (buildRestoredImage (Some Sample.base) Sample.source
              (Some (Sample.cfg ["RUN"; "make"])))
    as [[[parent' img] layer]|] eqn:Hbuild; [|by vm_compute in Hbuild].
  assert (layer = "sha256:d1") as ->
    by (vm_compute in Hbuild; by injection Hbuild as _ _ <-).
  exists parent', img. split; [done|].
  apply (restoreCachedImage_keeps_lockstep (Some Sample.base) Sample.source
           (Some (Sample.cfg ["RUN"; "make"])) parent' img "sha256:d1");
    [reflexivity|reflexivity|reflexivity
    |repeat constructor; discriminate|done].
Defined.

Lemma restoreCachedImage_extends_to_target_witness :
  exists parent' img,
    buildRestoredImage (Some Sample.base) Sample.source
      (Some (Sample.cfg ["RUN"; "make"]))
    = Some (parent', img, "sha256:d1")
    /\ isValidParent Sample.source (Some img) = Some true.
Proof.
  destruct (buildRestoredImage (Some Sample.base) Sample.source
              (Some (Sample.cfg ["RUN"; "make"])))
    as [[[parent' img] layer]|] eqn:Hbuild; [|by vm_compute in Hbuild].
  assert (layer = "sha256:d1") as ->
    by (vm_compute in Hbuild; by injection Hbuild as _ _ <-).
  exists parent', img. split; [done|].
  apply (restoreCachedImage_extends_to_target (Some Sample.base)
           Sample.source (Some (Sample.cfg ["RUN"; "make"])) parent' img
           "sha256:d1");
    [reflexivity|reflexivity|reflexivity
    |repeat constructor; discriminate|discriminate|done].
Defined.

(** *** The paths through the history-based cache *)

Section HistoryPaths.
Context {S : Type} `{ImageCacheStore S}.
Variable comparePlatform : ocispec.Platform -> ocispec.Platform -> bool.
Variable compare : containertypes.Config -> containertypes.Config -> bool.

Abbreviation LocalImageCache_GetCache :=
  (cache.LocalImageCache_GetCache comparePlatform compare).
Abbreviation localLoop := (cache.localLoop comparePlatform compare).
Abbreviation localPhase := (cache.localPhase comparePlatform compare).
Abbreviation GetCache_exit := (cache.GetCache_exit comparePlatform compare).
Abbreviation GetCache := (cache.GetCache comparePlatform compare).

(** Once the parent is fetched, the history phase is the scan. *)
Lemma historyPhase_scan ic parentID parent cfg :
  ExtensionSpec.parentFetched (store ic) parentID parent ->
  historyPhase ic parentID cfg
  = let '(e, ic', calls) :=
      scanSources ic parentID parent
        (length (from_option image.History [] parent)) cfg (sources ic) in
    (e, ic', (ExtensionSpec.parentCalls parentID parent ++ calls)%list).
Proof.
  unfold historyPhase. destruct parent as [p|]; simpl.
  - intros [Hne ->]. by rewrite bool_decide_eq_true_2.
  - intros ->. simpl.
    by destruct (scanSources ic "" None 0 cfg (sources ic)) as [[? ?] ?].
Qed.

Lemma scanSources_no_candidate ic parentID parent lenHistory cfg :
  forall targets,
  Forall (fun t => isCandidate parent lenHistory cfg t = Some false) targets ->
  scanSources ic parentID parent lenHistory cfg targets = (ExitMiss, ic, []).
Proof.
  induction targets as [|t targets IH]; intros Hall; simpl; [done|].
  apply Forall_cons in Hall as [-> Hall]. by apply IH.
Qed.

Lemma GetCache_exit_miss_aux fuel ic parentID cfg platform parent c1 :
  localPhase fuel ic parentID cfg platform = (None, c1) ->
  ExtensionSpec.parentFetched (store ic) parentID parent ->
  Forall (fun t => isCandidate parent
                     (length (from_option image.History [] parent)) cfg t
                   = Some false) (sources ic) ->
  GetCache fuel ic parentID cfg platform = (Some ("", None), ic)
  /\ GetCache_exit fuel ic parentID cfg platform
     = (ExitMiss, ic, (c1 ++ ExtensionSpec.parentCalls parentID parent)%list).
Proof.
  intros Hlocal Hparent Hnone.
  assert (GetCache_exit fuel ic parentID cfg platform
          = (ExitMiss, ic,
             (c1 ++ ExtensionSpec.parentCalls parentID parent)%list)) as Hexit.
  { unfold cache.GetCache_exit. rewrite Hlocal.
    rewrite (historyPhase_scan _ _ _ _ Hparent).
    rewrite (scanSources_no_candidate _ _ _ _ _ _ Hnone).
    by rewrite app_nil_r. }
  split; [|done]. unfold cache.GetCache. by rewrite Hexit.
Qed.

(** X6.  A miss is not an error: when the local phase falls through, the
    parent (if any) is fetched and no registered source is a candidate,
    [GetCache] returns the empty string and a nil error, and leaves the
    source set and the store as they were; beyond the local phase the
    only call on the store is the fetch of the parent. *)
Theorem GetCache_miss (fuel : nat) (ic : ImageCache) (parentID : string)
  (cfg : option containertypes.Config) (platform : ocispec.Platform)
  (parent : option image.Image) (c1 : list StoreCall) :
  localPhase fuel ic parentID cfg platform = (None, c1) ->
  ExtensionSpec.parentFetched (store ic) parentID parent ->
  Forall (fun t => isCandidate parent
                     (length (from_option image.History [] parent)) cfg t
                   = Some false) (sources ic) ->
  GetCache_exit fuel ic parentID cfg platform
  = (ExitMiss, ic, (c1 ++ ExtensionSpec.parentCalls parentID parent)%list)
  /\ GetCache fuel ic parentID cfg platform = (Some ("", None), ic).
Proof.
  intros Hlocal Hparent Hnone.
  destruct (GetCache_exit_miss_aux fuel ic parentID cfg platform parent c1
              Hlocal Hparent Hnone) as [Hret Hexit].
  split; [exact Hexit|exact Hret].
Qed.

(** X7.  A parent that cannot be fetched is a hard error: when the local
    phase falls through and the store fails to return the image of a
    non-empty [parentID], [GetCache] returns the empty string and that
    failure wrapped as "unable to find image", whatever the sources and
    the config are (a nil config included: it is not looked at), and
    leaves the cache as it was. *)
Theorem GetCache_parent_not_found (fuel : nat) (ic : ImageCache)
  (parentID : string) (cfg : option containertypes.Config)
  (platform : ocispec.Platform) (err : error) (c1 : list StoreCall) :
  localPhase fuel ic parentID cfg platform = (None, c1) ->
  parentID <> "" ->
  Get (store ic) parentID = Err err ->
  let wrapped := Wrapf err "unable to find image %v" [parentID] in
  GetCache_exit fuel ic parentID cfg platform
  = (ExitParentNotFound wrapped, ic, (c1 ++ [CallGet parentID])%list)
  /\ GetCache fuel ic parentID cfg platform = (Some ("", Some wrapped), ic).
Proof.
  intros Hlocal Hne Hget wrapped.
  assert (GetCache_exit fuel ic parentID cfg platform
          = (ExitParentNotFound wrapped, ic, (c1 ++ [CallGet parentID])%list))
    as Hexit.
  { unfold cache.GetCache_exit, historyPhase. rewrite Hlocal.
    rewrite bool_decide_eq_true_2 by done. by rewrite Hget. }
  split; [done|]. unfold cache.GetCache. by rewrite Hexit.
Qed.

(** The scan of the children stops at the first one that cannot be
    fetched. *)
Lemma localLoop_unfetched s config platform ids : forall m0 id,
  LocalSpec.dated m0 ->
  LocalSpec.firstUnfetched s ids = Some id ->
  exists calls,
    localLoop s config platform ids m0
    = (Some (None, Some (Errorf "unable to find image %q" id)), calls)
    /\ Forall (fun c => ExtensionSpec.mutates c = false) calls.
Proof.
  induction ids as [|i ids IH]; intros m0 id Hd; simpl; [done|].
  destruct (Get s i) as [img|e].
  - intros Hfirst.
    destruct (visitChild comparePlatform compare config platform
                (IsBuiltLocally s i) img m0) as [m1|] eqn:Hvisit.
    + assert (LocalSpec.dated m1) as Hd1.
      { unfold visitChild in Hvisit.
        destruct (IsBuiltLocally s i) as [[|]|]; simplify_eq; try done.
        destruct (_ && _); simplify_eq; [done|].
        destruct (negb _); simplify_eq; [done|].
        destruct (compare _ _); simplify_eq; [|done].
        unfold updateMatch in Hvisit. intros x ->.
        destruct (image.Created img) eqn:Ht; [|simplify_eq; by apply Hd].
        destruct m0 as [i0|]; [|simplify_eq; by rewrite Ht].
        destruct (image.Created i0); [|done].
        destruct (time.Before _ _); simplify_eq; [by rewrite Ht|by apply Hd]. }
      destruct (IH m1 id Hd1 Hfirst) as (calls & -> & Hcalls).
      eexists. split; [done|]. by repeat constructor.
    + exfalso. unfold visitChild in Hvisit.
      destruct (IsBuiltLocally s i) as [[|]|]; simplify_eq.
      destruct (_ && _); simplify_eq.
      destruct (negb _); simplify_eq.
      destruct (compare _ _); simplify_eq.
      unfold updateMatch in Hvisit.
      destruct (image.Created img); [|done].
      destruct m0 as [i0|]; [|done].
      destruct (Hd i0 eq_refl) as [t0 Ht0]. rewrite Ht0 in Hvisit.
      by destruct (time.Before _ _).
  - intros [= <-]. eexists. split; [done|]. by repeat constructor.
Qed.

(** X8.  A failure of the local cache is returned as it is: when the store
    enumerates a child of the parent that it cannot fetch, the combined
    cache's [GetCache], asked with a config, returns the empty string and
    the local cache's "unable to find image" error for the first such
    child, whatever the registered sources are; it makes no call that
    changes the store and leaves the cache as it was. *)
Theorem GetCache_local_error (fuel : nat) (ic : ImageCache)
  (parentID : string) (config : containertypes.Config)
  (platform : ocispec.Platform) (id : image.ID) :
  LocalSpec.firstUnfetched (store ic) (Children (store ic) parentID)
  = Some id ->
  let err := Errorf "unable to find image %q" id in
  GetCache fuel ic parentID (Some config) platform = (Some ("", Some err), ic)
  /\ exists calls,
       GetCache_exit fuel ic parentID (Some config) platform
       = (ExitLocalErr err, ic, calls)
       /\ Forall (fun c => ExtensionSpec.mutates c = false) calls.
Proof.
  intros Hfirst err.
  destruct (localLoop_unfetched (store ic) config platform _ None id
              ltac:(done) Hfirst) as (calls & Hloop & Hcalls).
  assert (GetCache_exit fuel ic parentID (Some config) platform
          = (ExitLocalErr err, ic, CallChildren parentID :: calls)) as Hexit.
  { unfold cache.GetCache_exit, cache.localPhase,
      cache.LocalImageCache_GetCache, cache.getLocalCachedImage.
    by rewrite Hloop. }
  split.
  - unfold cache.GetCache. by rewrite Hexit.
  - eexists. split; [done|]. by constructor.
Qed.

Lemma isCandidate_valid parent lenHistory cfg target :
  isCandidate parent lenHistory cfg target = Some true ->
  isValidParent target parent = Some true.
Proof.
  unfold isCandidate. by destruct (isValidParent target parent) as [[|]|].
Qed.

(** X9.  The final-step shortcut without a parent touches nothing: when
    the local phase falls through, [parentID] is empty and the first
    candidate among the sources has a single history entry, [GetCache]
    returns that source's own identity; it makes no call on the store
    beyond the local phase (no [SetParent], no [Create]) and leaves the
    cache as it was, whatever sources come after the candidate. *)
Theorem GetCache_final_step_no_parent (fuel : nat) (ic : ImageCache)
  (cfg : option containertypes.Config) (platform : ocispec.Platform)
  (target : image.Image) (pre post : list image.Image)
  (c1 : list StoreCall) :
  localPhase fuel ic "" cfg platform = (None, c1) ->
  sources ic = (pre ++ target :: post)%list ->
  Forall (fun t => isCandidate None 0 cfg t = Some false) pre ->
  isCandidate None 0 cfg target = Some true ->
  length (image.History target) = 1%nat ->
  GetCache_exit fuel ic "" cfg platform
  = (ExitFinalStep (image.computedID target), ic, c1)
  /\ GetCache fuel ic "" cfg platform
     = (Some (image.computedID target, None), ic).
Proof.
  intros Hlocal Hsrc Hpre Htarget Hone.
  assert (GetCache_exit fuel ic "" cfg platform
          = (ExitFinalStep (image.computedID target), ic, c1)) as Hexit.
  { unfold cache.GetCache_exit. rewrite Hlocal.
    rewrite (historyPhase_scan ic "" None cfg eq_refl). simpl.
    rewrite Hsrc, (scanSources_first_candidate _ _ _ _ _ _ _ _ Hpre Htarget).
    unfold useCandidate. rewrite bool_decide_eq_true_2 by lia.
    by rewrite app_nil_r. }
  split; [done|]. unfold cache.GetCache. by rewrite Hexit.
Qed.

(** X10.  A mid-history match restores exactly one image: when the local
    phase falls through, the parent (if any) is fetched, and the first
    candidate among the sources keeps the invariant of the data model and
    has more than one history entry left, [GetCache] calls the store's
    [Create] once, as its last call, with the image built by the
    restoration.  If [Create] succeeds, [GetCache] returns the new
    identity and the source set becomes that one source; if it fails,
    [GetCache] returns the empty string and the failure wrapped twice
    ("failed to create cache image", then "failed to restore cached
    image"), and the source set is left as it was. *)
Theorem GetCache_mid_history (fuel : nat) (ic : ImageCache)
  (parentID : string) (cfg : option containertypes.Config)
  (platform : ocispec.Platform) (parent : option image.Image)
  (target : image.Image) (pre post : list image.Image)
  (c1 : list StoreCall) :
  let lenHistory := length (from_option image.History [] parent) in
  localPhase fuel ic parentID cfg platform = (None, c1) ->
  ExtensionSpec.parentFetched (store ic) parentID parent ->
  sources ic = (pre ++ target :: post)%list ->
  Forall (fun t => isCandidate parent lenHistory cfg t = Some false) pre ->
  isCandidate parent lenHistory cfg target = Some true ->
  (Z.of_nat (length (image.History target)) - 1 <> Z.of_nat lenHistory)%Z ->
  image.lockstep target ->
  exists parent' img layer,
    buildRestoredImage parent target cfg = Some (parent', img, layer)
    /\ let calls :=
         (c1 ++ ExtensionSpec.parentCalls parentID parent
          ++ [CallCreate parent' img layer])%list in
       match Create (store ic) parent' img layer with
       | (Ok imgID, s') =>
           GetCache_exit fuel ic parentID cfg platform
           = (ExitRestored imgID target,
              {| sources := [target]; store := s' |}, calls)
           /\ GetCache fuel ic parentID cfg platform
              = (Some (imgID, None), {| sources := [target]; store := s' |})
       | (Err err, s') =>
           let wrapped :=
             Wrapf (Wrapf err "failed to create cache image" [])
               "failed to restore cached image from %q to %v"
               [parentID; image.computedID target] in
           GetCache_exit fuel ic parentID cfg platform
           = (ExitRestoreFailed wrapped,
              {| sources := sources ic; store := s' |}, calls)
           /\ GetCache fuel ic parentID cfg platform
              = (Some ("", Some wrapped),
                 {| sources := sources ic; store := s' |})
       end.
Proof.
  intros lenHistory Hlocal Hparent Hsrc Hpre Htarget Hmid Hinv.
  destruct (buildRestoredImage_built parent target cfg
              (isCandidate_valid _ _ _ _ Htarget) Hinv)
    as (h & parent' & img & layer & _ & Hbuild & _).
  exists parent', img, layer. split; [done|].
  unfold cache.GetCache, cache.GetCache_exit. rewrite Hlocal.
  rewrite (historyPhase_scan _ _ _ _ Hparent). fold lenHistory.
  rewrite Hsrc, (scanSources_first_candidate _ _ _ _ _ _ _ _ Hpre Htarget).
  unfold useCandidate. rewrite bool_decide_eq_false_2 by done.
  unfold restoreCachedImage. rewrite Hbuild.
  destruct (Create (store ic) parent' img layer) as [[imgID|err] s']; simpl;
    rewrite <- ?Hsrc; by split.
Qed.

(** X11.  A nil config is not guarded in the history-based cache: once
    the parent (if any) is fetched, [GetCache] asked with a nil config
    misses when no registered source is a valid extension of the parent,
    and panics on the nil dereference as soon as one is. *)
Theorem GetCache_nil_config (fuel : nat) (ic : ImageCache)
  (parentID : string) (platform : ocispec.Platform)
  (parent : option image.Image) :
  ExtensionSpec.parentFetched (store ic) parentID parent ->
  (Forall (fun t => isValidParent t parent = Some false) (sources ic) ->
   GetCache fuel ic parentID None platform = (Some ("", None), ic))
  /\ (forall pre target post,
        sources ic = (pre ++ target :: post)%list ->
        Forall (fun t => isValidParent t parent = Some false) pre ->
        isValidParent target parent = Some true ->
        GetCache fuel ic parentID None platform = (None, ic)
        /\ (GetCache_exit fuel ic parentID None platform).1.1 = ExitPanic).
Proof.
  intros Hparent.
  assert (forall l,
            Forall (fun t => isValidParent t parent = Some false) l ->
            Forall (fun t => isCandidate parent
                               (length (from_option image.History [] parent))
                               None t = Some false) l) as Hskip.
  { intros l Hl. eapply Forall_impl; [exact Hl|]. intros t Ht.
    unfold isCandidate. by rewrite Ht. }
  assert (localPhase fuel ic parentID None platform = (None, [])) as Hlocal
    by done.
  split.
  - intros Hnone.
    by destruct (GetCache_exit_miss_aux fuel ic parentID None platform parent
                   [] Hlocal Hparent (Hskip _ Hnone)).
  - intros pre target post Hsrc Hpre Hvalid.
    assert (isCandidate parent (length (from_option image.History [] parent))
              None target = None) as Hpanic.
    { unfold isCandidate. rewrite Hvalid.
      destruct (lookup_lt_is_Some_2 _ _ (isValidParent_length _ _ Hvalid))
        as [h ->]. done. }
    assert (scanSources ic parentID parent
              (length (from_option image.History [] parent)) None
              (pre ++ target :: post) = (ExitPanic, ic, [])) as Hscan.
    { clear Hsrc. induction pre as [|t pre IH]; simpl.
      - by rewrite Hpanic.
      - apply Forall_cons in Hpre as [Ht Hpre].
        unfold isCandidate at 1. rewrite Ht. by apply IH. }
    unfold cache.GetCache, cache.GetCache_exit. rewrite Hlocal.
    rewrite (historyPhase_scan _ _ _ _ Hparent), Hsrc, Hscan. done.
Qed.

(** The local cache only reads the store. *)
Lemma localLoop_reads s config platform ids : forall m0 r calls,
  localLoop s config platform ids m0 = (r, calls) ->
  Forall (fun c => ExtensionSpec.mutates c = false) calls.
Proof.
  induction ids as [|i ids IH]; intros m0 r calls; simpl.
  - by intros [= _ <-].
  - destruct (Get s i) as [img|e].
    + destruct (visitChild _ _ _ _ _ _ _) as [m1|].
      * destruct (localLoop s config platform ids m1) as [r' c] eqn:Hrec.
        intros [= _ <-]. repeat constructor. by eapply IH.
      * intros [= _ <-]. by repeat constructor.
    + intros [= _ <-]. by repeat constructor.
Qed.

Lemma localPhase_reads fuel ic parentID cfg platform e calls :
  localPhase fuel ic parentID cfg platform = (e, calls) ->
  Forall (fun c => ExtensionSpec.mutates c = false) calls.
Proof.
  unfold cache.localPhase, cache.LocalImageCache_GetCache,
    cache.getLocalCachedImage.
  assert (forall c2 r, anyIsParent fuel (store ic) (sources ic) r.1 = (r.2, c2)
            -> Forall (fun c => ExtensionSpec.mutates c = false) c2) as Hanc.
  { intros c2 r Hr. apply anyIsParent_calls in Hr.
    eapply Forall_impl; [exact Hr|]. by intros c [id ->]. }
  destruct cfg as [config|].
  - destruct (localLoop (store ic) config platform _ None) as [r c] eqn:Hloop.
    apply localLoop_reads in Hloop.
    assert (Forall (fun c => ExtensionSpec.mutates c = false)
              (CallChildren parentID :: c)) as Hc1 by (by constructor).
    destruct r as [[[i|] [e0|]]|]; simpl; try (by intros [= _ <-]).
    case_bool_decide; [|by intros [= _ <-]].
    destruct (anyIsParent fuel (store ic) (sources ic) (image.computedID i))
      as [[[|]|] c2] eqn:Hanc2; intros [= _ <-];
      apply (Forall_app _ (CallChildren parentID :: c) c2);
      (split; [done|]); by apply (Hanc c2 (image.computedID i, _) Hanc2).
  - simpl. by intros [= _ <-].
Qed.

(** The loop over the sources calls the store at most once, to change it;
    it leaves through exits of its own. *)
Lemma scanSources_calls ic parentID parent lenHistory cfg : forall targets,
  let r := scanSources ic parentID parent lenHistory cfg targets in
  match r.1.1 with
  | ExitRestored _ _ | ExitRestoreFailed _ =>
      exists p img l, r.2 = [CallCreate p img l]
  | ExitSetParentFailed _ => exists t p, r.2 = [CallSetParent t p]
  | ExitFinalStep _ =>
      (r.2 = [] /\ r.1.2 = ic) \/ exists t p, r.2 = [CallSetParent t p]
  | ExitMiss | ExitPanic => r.2 = [] /\ r.1.2 = ic
  | _ => False
  end.
Proof.
  induction targets as [|target rest IH]; simpl; [done|].
  destruct (isCandidate parent lenHistory cfg target) as [[|]|];
    [|exact IH|done].
  unfold useCandidate. case_bool_decide.
  - destruct parent as [p|]; [|by left].
    destruct (SetParent _ _ _) as [[?|] ?]; simpl; [by eexists _, _|].
    right. by eexists _, _.
  - unfold restoreCachedImage.
    destruct (buildRestoredImage parent target cfg) as [[[p' img] l]|];
      [|done].
    destruct (Create _ _ _ _) as [[?|?] ?]; simpl; by eexists _, _, _.
Qed.

(** X12.  The fast path is sound: when [GetCache] leaves through the fast
    path with an identity, that identity is not empty, it is what the
    local cache returned, and it is reached from some registered source
    by following at least one parent link of the store; the cache is left
    as it was and no call changed the store. *)
Theorem GetCache_fast_path_sound (fuel : nat) (ic ic' : ImageCache)
  (parentID : string) (cfg : option containertypes.Config)
  (platform : ocispec.Platform) (imgID : string) (calls : list StoreCall) :
  GetCache_exit fuel ic parentID cfg platform
  = (ExitFastPath imgID, ic', calls) ->
  ic' = ic
  /\ imgID <> ""
  /\ (LocalImageCache_GetCache (store ic) parentID cfg platform).1
     = Some (imgID, None)
  /\ (exists src n,
        src ∈ sources ic
        /\ ExtensionSpec.nthParent (store ic) (Datatypes.S n)
             (image.computedID src) = Some imgID)
  /\ Forall (fun c => ExtensionSpec.mutates c = false) calls.
Proof.
  unfold cache.GetCache_exit.
  destruct (localPhase fuel ic parentID cfg platform) as [[e|] c1] eqn:Hlocal.
  - intros [= -> <- <-]. split; [done|].
    assert (Hreads := localPhase_reads _ _ _ _ _ _ _ Hlocal).
    unfold cache.localPhase in Hlocal.
    destruct (LocalImageCache_GetCache (store ic) parentID cfg platform)
      as [[[id [err|]]|] c0]; simplify_eq.
    case_bool_decide as Hne; [|done].
    destruct (anyIsParent fuel (store ic) (sources ic) id)
      as [[[|]|] c2] eqn:Hanc; simplify_eq.
    split; [done|]. split; [done|]. split; [|done].
    clear Hreads. revert c2 Hanc.
    induction (sources ic) as [|src srcs IH]; intros c2; simpl; [done|].
    destruct (isParent fuel (store ic) (image.computedID src) imgID)
      as [[[|]|] c] eqn:Hp; [| |done].
    + intros _.
      destruct (isParent_true_ancestor _ _ _ _ _ Hp) as (n & _ & _ & Hn).
      exists src, n. split; [by left|done].
    + destruct (anyIsParent fuel (store ic) srcs imgID) as [r c'] eqn:Hrest.
      intros [= -> _].
      destruct (IH c' eq_refl) as (src' & n & Hin & Hn).
      exists src', n. split; [by right|done].
  - unfold historyPhase. intros Hexit. exfalso.
    case_bool_decide.
    + destruct (Get (store ic) parentID) as [p|]; [|done].
      assert (Hscan := scanSources_calls ic parentID (Some p)
                         (length (image.History p)) cfg (sources ic)).
      simpl in Hscan.
      destruct (scanSources ic parentID (Some p) (length (image.History p))
                  cfg (sources ic)) as [[e0 ic0] c0].
      by simplify_eq.
    + assert (Hscan := scanSources_calls ic parentID None 0 cfg (sources ic)).
      simpl in Hscan.
      destruct (scanSources ic parentID None 0 cfg (sources ic))
        as [[e0 ic0] c0].
      by simplify_eq.
Qed.

(** X13.  [GetCache] changes the store through at most one call, and that
    call is its last: [Create] when it restores an image or fails to,
    [SetParent] on a final-step match with a parent.  On every other path
    (fast path, miss, panic, lookup errors, final-step match without a
    parent) it only reads the store and leaves the cache as it was. *)
Theorem GetCache_writes_last (fuel : nat) (ic : ImageCache)
  (parentID : string) (cfg : option containertypes.Config)
  (platform : ocispec.Platform) :
  let r := GetCache_exit fuel ic parentID cfg platform in
  exists reads,
    Forall (fun c => ExtensionSpec.mutates c = false) reads
    /\ match r.1.1 with
       | ExitRestored _ _ | ExitRestoreFailed _ =>
           exists p img l, r.2 = (reads ++ [CallCreate p img l])%list
       | ExitSetParentFailed _ =>
           exists t p, r.2 = (reads ++ [CallSetParent t p])%list
       | ExitFinalStep _ =>
           (r.2 = reads /\ r.1.2 = ic)
           \/ exists t p, r.2 = (reads ++ [CallSetParent t p])%list
       | _ => r.2 = reads /\ r.1.2 = ic
       end.
Proof.
  intros r. unfold r, cache.GetCache_exit.
  destruct (localPhase fuel ic parentID cfg platform) as [[e|] c1] eqn:Hlocal.
  - assert (Hreads := localPhase_reads _ _ _ _ _ _ _ Hlocal).
    exists c1. split; [done|]. simpl.
    unfold cache.localPhase in Hlocal.
    destruct (LocalImageCache_GetCache (store ic) parentID cfg platform)
      as [[[id [err|]]|] c0]; simplify_eq; try done.
    case_bool_decide; [|done].
    destruct (anyIsParent _ _ _ _) as [[[|]|] c2]; by simplify_eq.
  - assert (Hreads := localPhase_reads _ _ _ _ _ _ _ Hlocal).
    assert (forall parent pc,
              Forall (fun c => ExtensionSpec.mutates c = false) pc ->
              let q := scanSources ic parentID parent
                         (length (from_option image.History [] parent)) cfg
                         (sources ic) in
              exists reads,
                Forall (fun c => ExtensionSpec.mutates c = false) reads
                /\ match q.1.1 with
                   | ExitRestored _ _ | ExitRestoreFailed _ =>
                       exists p img l,
                         (c1 ++ pc ++ q.2 = reads ++ [CallCreate p img l])%list
                   | ExitSetParentFailed _ =>
                       exists t p,
                         (c1 ++ pc ++ q.2 = reads ++ [CallSetParent t p])%list
                   | ExitFinalStep _ =>
                       ((c1 ++ pc ++ q.2)%list = reads /\ q.1.2 = ic)
                       \/ exists t p,
                            (c1 ++ pc ++ q.2
                             = reads ++ [CallSetParent t p])%list
                   | _ => (c1 ++ pc ++ q.2)%list = reads /\ q.1.2 = ic
                   end) as Hscan.
    { intros parent pc Hpc q.
      assert (Hq := scanSources_calls ic parentID parent
                      (length (from_option image.History [] parent)) cfg
                      (sources ic)).
      subst q. cbv zeta in Hq. exists (c1 ++ pc)%list.
      split; [by apply Forall_app|].
      destruct (scanSources ic parentID parent _ cfg (sources ic))
        as [[e0 ic0] c0].
      simpl in *. destruct e0.
      all: try done.
      all: try (destruct Hq as (? & ? & ? & ->); eexists _, _, _;
                by rewrite app_assoc).
      all: try (destruct Hq as (? & ? & ->); eexists _, _;
                by rewrite app_assoc).
      all: try (destruct Hq as [-> ->]; by rewrite !app_nil_r).
      destruct Hq as [[-> ->]|(? & ? & ->)].
      - left. by rewrite !app_nil_r.
      - right. eexists _, _. by rewrite app_assoc. }
    unfold historyPhase. case_bool_decide.
    + destruct (Get (store ic) parentID) as [p|] eqn:Hget.
      * specialize (Hscan (Some p) [CallGet parentID]
                      ltac:(by repeat constructor)).
        simpl in Hscan.
        destruct (scanSources ic parentID (Some p) (length (image.History p))
                    cfg (sources ic)) as [[e0 ic0] c0].
        exact Hscan.
      * exists (c1 ++ [CallGet parentID])%list. simpl.
        split; [|done]. apply Forall_app. split; [done|by repeat constructor].
    + specialize (Hscan None [] ltac:(done)). simpl in Hscan.
      destruct (scanSources ic parentID None 0 cfg (sources ic))
        as [[e0 ic0] c0].
      exact Hscan.
Qed.

End HistoryPaths.

(** *** What the local cache returns *)

Section LocalHits.
Context {S : Type} `{ImageCacheStore S}.
Variable comparePlatform : ocispec.Platform -> ocispec.Platform -> bool.
Variable compare : containertypes.Config -> containertypes.Config -> bool.

Abbreviation localLoop := (cache.localLoop comparePlatform compare).
Abbreviation visitChild := (cache.visitChild comparePlatform compare).
Abbreviation getLocalCachedImage :=
  (cache.getLocalCachedImage comparePlatform compare).
Abbreviation passesFilters := (LocalSpec.passesFilters comparePlatform compare).
Abbreviation passingChildren :=
  (LocalSpec.passingChildren comparePlatform compare).

Lemma updateMatch_dated m0 img m1 :
  LocalSpec.dated m0 -> updateMatch m0 img = Some m1 -> LocalSpec.dated m1.
Proof.
  intros Hd Hup i ->. unfold updateMatch in Hup.
  destruct (image.Created img) eqn:Ht; [|simplify_eq; by apply Hd].
  destruct m0 as [i0|]; [|simplify_eq; by rewrite Ht].
  destruct (image.Created i0); [|done].
  destruct (time.Before _ _); simplify_eq; [by rewrite Ht|by apply Hd].
Qed.

(** One step of the scan that ended without error. *)
Lemma localLoop_step s config platform id ids m0 m calls :
  localLoop s config platform (id :: ids) m0 = (Some (Some m, None), calls) ->
  exists img m1 calls',
    Get s id = Ok img
    /\ (if passesFilters s config platform id img then updateMatch m0 img
        else Some m0) = Some m1
    /\ localLoop s config platform ids m1 = (Some (Some m, None), calls').
Proof.
  simpl. destruct (Get s id) as [img|]; [|done].
  rewrite (visitChild_passesFilters comparePlatform compare).
  destruct (if passesFilters s config platform id img then updateMatch m0 img
            else Some m0) as [m1|] eqn:Hm1; [|done].
  destruct (localLoop s config platform ids m1) as [r calls'] eqn:Hrec.
  intros [= -> _]. by exists img, m1, calls'.
Qed.

Lemma localLoop_hit s config platform ids : forall m0 m calls,
  localLoop s config platform ids m0 = (Some (Some m, None), calls) ->
  m0 = Some m
  \/ exists id, id ∈ ids /\ Get s id = Ok m
                /\ passesFilters s config platform id m = true
                /\ is_Some (image.Created m).
Proof.
  induction ids as [|id ids IH]; intros m0 m calls.
  - simpl. intros [= -> _]. by left.
  - intros Hloop.
    destruct (localLoop_step _ _ _ _ _ _ _ _ Hloop)
      as (img & m1 & calls' & Hget & Hm1 & Hrec).
    destruct (IH _ _ _ Hrec) as [->|(id' & Hin & Hrest)].
    + destruct (passesFilters s config platform id img) eqn:Hpass;
        [|left; congruence].
      destruct (updateMatch_cases _ _ _ Hm1) as [Heq|[= ->]]; [by left|].
      destruct (image.Created img) as [t|] eqn:Ht.
      * right. exists id. split; [by left|]. by repeat split.
      * left. unfold updateMatch in Hm1. rewrite Ht in Hm1. congruence.
    + right. exists id'. split; [by right|done].
Qed.

(** X14.  The local cache never returns a false positive: an image it
    returns is a direct child of the parent that the store could fetch,
    that was built locally, records a platform, matches the requested
    platform, has the requested config as its container config, and has a
    creation time; and it is returned with a nil error. *)
Theorem getLocalCachedImage_sound (s : S) (parentID : image.ID)
  (config : containertypes.Config) (platform : ocispec.Platform)
  (img : image.Image) (err : option error) (calls : list StoreCall) :
  getLocalCachedImage s parentID (Some config) platform
  = (Some (Some img, err), calls) ->
  err = None
  /\ exists id,
       id ∈ Children s parentID
       /\ Get s id = Ok img
       /\ IsBuiltLocally s id = Ok true
       /\ LocalSpec.legacyPlatform img = false
       /\ comparePlatform platform (image.Platform img) = true
       /\ compare (image.ContainerConfig img) config = true
       /\ is_Some (image.Created img).
Proof.
  unfold cache.getLocalCachedImage.
  destruct (localLoop s config platform (Children s parentID) None)
    as [r c] eqn:Hloop.
  intros [= -> _].
  assert (err = None) as ->.
  { clear -Hloop. revert Hloop. generalize (@None image.Image).
    revert c. induction (Children s parentID) as [|id ids IH];
      intros c m0; simpl.
    - by intros [= _ <- _].
    - destruct (Get s id) as [i|]; [|done].
      destruct (visitChild config platform (IsBuiltLocally s id) i m0)
        as [m1|]; [|done].
      destruct (localLoop s config platform ids m1) as [r c'] eqn:Hrec.
      intros [= -> _]. by eapply IH. }
  split; [done|].
  destruct (localLoop_hit _ _ _ _ _ _ _ Hloop)
    as [|(id & Hin & Hget & Hpass & Hdated)]; [done|].
  exists id. split; [done|]. split; [done|].
  unfold LocalSpec.passesFilters in Hpass.
  destruct (IsBuiltLocally s id) as [[|]|]; try done.
  destruct (LocalSpec.legacyPlatform img); [done|].
  destruct (comparePlatform platform (image.Platform img)); [|done].
  destruct (compare (image.ContainerConfig img) config); [|done].
  by repeat split.
Qed.

Lemma passingChildren_cons s config platform id ids :
  passingChildren s config platform (id :: ids)
  = match Get s id with
    | Ok img =>
        if passesFilters s config platform id img
        then img :: passingChildren s config platform ids
        else passingChildren s config platform ids
    | Err _ => passingChildren s config platform ids
    end.
Proof.
  unfold LocalSpec.passingChildren. simpl.
  destruct (Get s id) as [img|]; [|done].
  by destruct (passesFilters s config platform id img).
Qed.

(** The scan, over the children that pass: either it keeps the image it
    started from, which none of them is younger than, or it ends on the
    earliest of the youngest, which is younger than the image it started
    from. *)
Lemma localLoop_earliest s config platform ids : forall m0 m calls,
  LocalSpec.dated m0 ->
  localLoop s config platform ids m0 = (Some (Some m, None), calls) ->
  (m0 = Some m
   /\ Forall (fun c => forall t t', image.Created m = Some t ->
                           image.Created c = Some t' -> (t' <= t)%Z)
        (passingChildren s config platform ids))
  \/ (ExtensionSpec.earliestMostRecent
        (passingChildren s config platform ids) m
      /\ forall i0 t0 t, m0 = Some i0 -> image.Created i0 = Some t0 ->
                         image.Created m = Some t -> (t0 < t)%Z).
Proof.
  induction ids as [|id ids IH]; intros m0 m calls Hd.
  - simpl. intros [= -> _]. left. by split.
  - intros Hloop.
    destruct (localLoop_step _ _ _ _ _ _ _ _ Hloop)
      as (img & m1 & calls' & Hget & Hm1 & Hrec).
    rewrite passingChildren_cons, Hget.
    destruct (passesFilters s config platform id img) eqn:Hpass.
    2: { injection Hm1 as <-. by apply (IH _ _ _ Hd Hrec). }
    assert (Hd1 := updateMatch_dated _ _ _ Hd Hm1).
    specialize (IH _ _ _ Hd1 Hrec).
    unfold updateMatch in Hm1.
    destruct (image.Created img) as [t1|] eqn:Ht1.
    + destruct m0 as [i0|].
      * destruct (Hd i0 eq_refl) as [t0 Ht0]. rewrite Ht0 in Hm1.
        unfold time.Before in Hm1.
        destruct (Z.ltb_spec t0 t1) as [Hlt|Hge]; simplify_eq.
        -- right. destruct IH as [[[= <-] Hall]|[(l1 & l2 & t & Hp & Ht & Hl1 & Hl2) Hyoung]].
           ++ split.
              ** exists [], (passingChildren s config platform ids), t1.
                 split; [done|]. split; [done|]. split; [done|].
                 eapply Forall_impl; [exact Hall|]. intros c Hc t' Ht'.
                 by apply (Hc t1 t').
              ** intros ? ? ? [= <-] Ht0' Ht'. rewrite Ht0 in Ht0'.
                 rewrite Ht1 in Ht'. by simplify_eq.
           ++ assert (t1 < t)%Z as Ht1t by (by apply (Hyoung img t1 t)).
              split.
              ** exists (img :: l1), l2, t. rewrite Hp.
                 split; [done|]. split; [done|]. split; [|done].
                 constructor; [|done]. intros t' Ht'. rewrite Ht1 in Ht'.
                 by simplify_eq.
              ** intros ? ? t' [= <-] Ht0' Ht'. rewrite Ht0 in Ht0'.
                 rewrite Ht in Ht'. simplify_eq. lia.
        -- destruct IH as [[Heq Hall]|[(l1 & l2 & t & Hp & Ht & Hl1 & Hl2) Hyoung]].
           ++ injection Heq as <-. left. split; [done|]. constructor; [|done].
              intros t t' Ht Ht'. rewrite Ht0 in Ht. rewrite Ht1 in Ht'.
              simplify_eq. lia.
           ++ right. split; [|done].
              exists (img :: l1), l2, t. rewrite Hp.
              split; [done|]. split; [done|]. split; [|done].
              constructor; [|done]. intros t' Ht'. rewrite Ht1 in Ht'.
              simplify_eq. specialize (Hyoung i0 t0 t eq_refl Ht0 Ht). lia.
      * simplify_eq. right.
        destruct IH as [[[= <-] Hall]|[(l1 & l2 & t & Hp & Ht & Hl1 & Hl2) Hyoung]].
        -- split; [|done].
           exists [], (passingChildren s config platform ids), t1.
           split; [done|]. split; [done|]. split; [done|].
           eapply Forall_impl; [exact Hall|]. intros c Hc t' Ht'.
           by apply (Hc t1 t').
        -- split; [|done].
           exists (img :: l1), l2, t. rewrite Hp.
           split; [done|]. split; [done|]. split; [|done].
           constructor; [|done]. intros t' Ht'. rewrite Ht1 in Ht'.
           injection Ht' as <-. by apply (Hyoung img t1 t).
    + simplify_eq.
      destruct IH as [[-> Hall]|[(l1 & l2 & t & Hp & Ht & Hl1 & Hl2) Hyoung]].
      * left. split; [done|]. constructor; [|done]. intros t t' _ Ht'.
        congruence.
      * right. split; [|done].
        exists (img :: l1), l2, t. rewrite Hp.
        split; [done|]. split; [done|]. split; [|done].
        constructor; [|done]. intros t' Ht'. congruence.
Qed.

(** X15.  Ties go to the child enumerated first: the image the local
    cache returns stands, among the children that pass in the order the
    store enumerates them, after strictly older (or undated) ones only
    and before none that is younger. *)
Theorem getLocalCachedImage_earliest_most_recent (s : S)
  (parentID : image.ID) (config : containertypes.Config)
  (platform : ocispec.Platform) (img : image.Image)
  (calls : list StoreCall) :
  getLocalCachedImage s parentID (Some config) platform
  = (Some (Some img, None), calls) ->
  ExtensionSpec.earliestMostRecent
    (passingChildren s config platform (Children s parentID)) img.
Proof.
  unfold cache.getLocalCachedImage.
  destruct (localLoop s config platform (Children s parentID) None)
    as [r c] eqn:Hloop.
  intros [= -> _].
  assert (LocalSpec.dated None) as Hd by (by intros i).
  destruct (localLoop_earliest _ _ _ _ _ _ _ Hd Hloop)
    as [[Hnone _]|[Hearliest _]]; [discriminate|exact Hearliest].
Qed.

End LocalHits.

(** *** Construction *)

Section Construction.
Context {S : Type} `{ImageCacheStore S}.
Variable GetByRef : S -> string -> result image.Image.

Abbreviation seed := (construction.seed GetByRef).
Abbreviation New := (construction.New GetByRef).
Abbreviation interrupted := (construction.interrupted GetByRef).
Abbreviation resolved := (construction.resolved GetByRef).

Lemma seed_all s cacheFrom : forall c,
  Forall (fun ref => interrupted s ref = false) cacheFrom ->
  seed s cacheFrom c
  = (inl {| sources := (sources c ++ resolved s cacheFrom)%list;
            store := store c |}, cacheFrom).
Proof.
  induction cacheFrom as [|ref refs IH]; intros c Hall; simpl.
  - rewrite app_nil_r. by destruct c.
  - apply Forall_cons in Hall as [Href Hall].
    unfold construction.interrupted in Href.
    unfold construction.resolved. simpl.
    fold (resolved s refs).
    destruct (GetByRef s ref) as [img|err].
    + rewrite (IH _ Hall). simpl. by rewrite <- app_assoc.
    + rewrite Href. by rewrite (IH _ Hall).
Qed.

Lemma seed_interrupted s ref err post : forall pre c,
  Forall (fun r => interrupted s r = false) pre ->
  GetByRef s ref = Err err ->
  interrupted s ref = true ->
  seed s (pre ++ ref :: post) c = (inr err, (pre ++ [ref])%list).
Proof.
  induction pre as [|r pre IH]; intros c Hpre Hget Hint; simpl.
  - unfold construction.interrupted in Hint. rewrite Hget in *.
    by rewrite Hint.
  - apply Forall_cons in Hpre as [Hr Hpre].
    unfold construction.interrupted in Hr.
    destruct (GetByRef s r) as [img|e].
    + by rewrite (IH _ Hpre Hget Hint).
    + rewrite Hr. by rewrite (IH _ Hpre Hget Hint).
Qed.

(** X16.  Seeding is best effort: when no lookup is cut short by the
    context, [New] looks every reference up once, in order, and returns
    no error; with no reference at all it returns the local parent-chain
    cache, and otherwise a history-based cache over the same store whose
    sources are the images of the references that resolved, in the order
    given, the references that failed being skipped. *)
Theorem New_seeds_resolved (s : S) (cacheFrom : list string) :
  Forall (fun ref => interrupted s ref = false) cacheFrom ->
  New s cacheFrom
  = ((Some (match cacheFrom with
            | [] => construction.Local s
            | _ => construction.History
                     {| sources := resolved s cacheFrom; store := s |}
            end), None), cacheFrom).
Proof.
  intros Hall. unfold construction.New.
  destruct cacheFrom as [|ref refs]; [done|].
  rewrite bool_decide_eq_false_2 by done.
  by rewrite (seed_all s (ref :: refs) _ Hall).
Qed.

(** An error of the store's own is neither sentinel, whatever its text;
    nor is such an error wrapped. *)
Lemma Is_store_error_not_sentinel msg :
  errors.Is (StoreError msg) context.Canceled = false
  /\ errors.Is (StoreError msg) context.DeadlineExceeded = false
  /\ forall format args,
       errors.Is (Wrapf (StoreError msg) format args) context.Canceled
       = false
       /\ errors.Is (Wrapf (StoreError msg) format args)
            context.DeadlineExceeded = false.
Proof. done. Qed.

(** X17.  A context that is done aborts the construction: at the first
    reference whose lookup fails with the context's cancellation or
    deadline error (the sentinel value itself, possibly wrapped), [New]
    returns no cache and that error as it is; the references after it are
    not looked up.  The references before it are those whose lookup
    succeeded or failed with any other error, an error of the store's own
    with the sentinel's text included. *)
Theorem New_interrupted (s : S) (pre post : list string) (ref : string)
  (err : error) :
  Forall (fun r => interrupted s r = false) pre ->
  GetByRef s ref = Err err ->
  errors.Is err context.Canceled || errors.Is err context.DeadlineExceeded
  = true ->
  New s (pre ++ ref :: post) = ((None, Some err), (pre ++ [ref])%list).
Proof.
  intros Hpre Hget Hctx. unfold construction.New.
  rewrite bool_decide_eq_false_2
    by (rewrite length_app; simpl; lia).
  rewrite (seed_interrupted s ref err post pre _ Hpre Hget); [done|].
  unfold construction.interrupted. by rewrite Hget.
Qed.

End Construction.

Lemma New_seeds_resolved_witness :
  construction.New Sample.byRef Sample.unlinkedStore
    ["sha256:source"; "busybox:latest"; "sha256:mid"]
  = ((Some (construction.History
              {| sources := [Sample.source; Sample.mid];
                 store := Sample.unlinkedStore |}), None),
     ["sha256:source"; "busybox:latest"; "sha256:mid"]).
Proof.
  apply (New_seeds_resolved Sample.byRef Sample.unlinkedStore
           ["sha256:source"; "busybox:latest"; "sha256:mid"]).
  repeat constructor.
Defined.

Lemma New_interrupted_witness :
  Sample.byRef Sample.unlinkedStore "lookalike"
  = Err (StoreError "context canceled")
  /\ construction.New Sample.byRef Sample.unlinkedStore
       ["sha256:source"; "lookalike"; "stalled"; "sha256:mid"]
     = ((None, Some (Wrapf context.Canceled "resolving %s" ["stalled"])),
        ["sha256:source"; "lookalike"; "stalled"]).
Proof.
  split; [reflexivity|].
  apply (New_interrupted Sample.byRef Sample.unlinkedStore
           ["sha256:source"; "lookalike"] ["sha256:mid"] "stalled");
    [repeat constructor|reflexivity|reflexivity].
Defined.

(** *** A cache without sources *)

Section NoSources.
Context {S : Type} `{ImageCacheStore S}.
Variable comparePlatform : ocispec.Platform -> ocispec.Platform -> bool.
Variable compare : containertypes.Config -> containertypes.Config -> bool.

(** X18.  A history-based cache without sources never reports a hit: it
    answers every request with the empty string (and a nil error or a
    lookup error), even when the local parent-chain cache has a matching
    child, because a local hit is only trusted as an ancestor of a source;
    and it stays without sources. *)
Theorem GetCache_no_sources (fuel : nat) (ic : ImageCache)
  (parentID : string) (cfg : option containertypes.Config)
  (platform : ocispec.Platform) :
  sources ic = [] ->
  exists err,
    cache.GetCache comparePlatform compare fuel ic parentID cfg platform
    = (Some ("", err), ic).
Proof.
  intros Hsrc.
  assert (exists eh,
            returned (historyPhase ic parentID cfg).1.1 = Some ("", eh)
            /\ (historyPhase ic parentID cfg).1.2 = ic) as (eh & Hret & Hic).
  { unfold historyPhase. rewrite Hsrc. case_bool_decide; [|by eexists].
    destruct (Get (store ic) parentID); by eexists. }
  unfold cache.GetCache, cache.GetCache_exit, cache.localPhase,
    cache.LocalImageCache_GetCache, cache.getLocalCachedImage.
  destruct (historyPhase ic parentID cfg) as [[e0 ic0] c0].
  simpl in Hret, Hic. subst ic0.
  destruct cfg as [config|]; [|simpl; rewrite Hret; by eexists].
  assert (Hloop := localLoop_selects comparePlatform compare (store ic)
                     config platform (Children (store ic) parentID) None
                     ltac:(done)).
  destruct (LocalSpec.firstUnfetched _ _) as [bad|].
  - destruct Hloop as (calls & ->). by eexists.
  - destruct Hloop as (m & calls & -> & _).
    destruct m as [i|]; simpl; [|rewrite Hret; by eexists].
    rewrite Hsrc. simpl. case_bool_decide; rewrite Hret; by eexists.
Qed.

End NoSources.

Lemma GetCache_no_sources_witness :
  (LocalImageCache_GetCache MemStore.comparePlatform MemStore.compare
     Sample.localStore "sha256:base" (Some (Sample.cfg ["RUN"; "make"]))
     Sample.linuxAmd64).1 = Some ("sha256:new", None)
  /\ exists err,
       GetCache MemStore.comparePlatform MemStore.compare 8
         {| sources := []; store := Sample.localStore |} "sha256:base"
         (Some (Sample.cfg ["RUN"; "make"])) Sample.linuxAmd64
       = (Some ("", err), {| sources := []; store := Sample.localStore |}).
Proof.
  split; [vm_compute; reflexivity|].
  apply (GetCache_no_sources MemStore.comparePlatform MemStore.compare 8
           {| sources := []; store := Sample.localStore |}).
  reflexivity.
Defined.

(** *** The paths, on the sample store *)

Lemma GetCache_miss_witness :
  let ic := {| sources := [Sample.source]; store := Sample.localStore |} in
  GetCache MemStore.comparePlatform MemStore.compare 8 ic ""
    (Some (Sample.cfg ["RUN"; "make"])) Sample.linuxAmd64
  = (Some ("", None), ic).
Proof.
  intros ic.
  apply (GetCache_miss MemStore.comparePlatform MemStore.compare 8 ic ""
           (Some (Sample.cfg ["RUN"; "make"])) Sample.linuxAmd64 None
           [CallChildren ""]);
    [vm_compute; reflexivity|reflexivity|repeat constructor].
Defined.

Lemma GetCache_parent_not_found_witness :
  let ic := {| sources := [Sample.source]; store := Sample.localStore |} in
  GetCache MemStore.comparePlatform MemStore.compare 8 ic "sha256:missing"
    None Sample.linuxAmd64
  = (Some ("", Some (Wrapf (StoreError "image not found")
                       "unable to find image %v" ["sha256:missing"])), ic).
Proof.
  intros ic.
  apply (GetCache_parent_not_found MemStore.comparePlatform MemStore.compare
           8 ic "sha256:missing" None Sample.linuxAmd64
           (StoreError "image not found") []);
    [reflexivity|discriminate|reflexivity].
Defined.

Lemma GetCache_local_error_witness :
  let ic := {| sources := [Sample.source]; store := Sample.danglingStore |} in
  GetCache MemStore.comparePlatform MemStore.compare 8 ic "sha256:base"
    (Some (Sample.cfg ["RUN"; "make"])) Sample.linuxAmd64
  = (Some ("", Some (Errorf "unable to find image %q" "sha256:gone")), ic).
Proof.
  intros ic.
  apply (GetCache_local_error MemStore.comparePlatform MemStore.compare 8 ic
           "sha256:base" (Sample.cfg ["RUN"; "make"]) Sample.linuxAmd64
           "sha256:gone").
  vm_compute. reflexivity.
Defined.

Lemma GetCache_final_step_no_parent_witness :
  let ic := {| sources := [Sample.source; Sample.single; Sample.threeLayers];
               store := Sample.localStore |} in
  GetCache MemStore.comparePlatform MemStore.compare 8 ic ""
    (Some (Sample.cfg ["RUN"; "x"])) Sample.linuxAmd64
  = (Some ("sha256:single", None), ic).
Proof.
  intros ic.
  apply (GetCache_final_step_no_parent MemStore.comparePlatform
           MemStore.compare 8 ic (Some (Sample.cfg ["RUN"; "x"]))
           Sample.linuxAmd64 Sample.single [Sample.source]
           [Sample.threeLayers] [CallChildren ""]);
    [vm_compute; reflexivity|reflexivity|repeat constructor
    |reflexivity|reflexivity].
Defined.

Lemma GetCache_mid_history_witness :
  let ic := {| sources := [Sample.source]; store := Sample.localStore |} in
  (GetCache MemStore.comparePlatform MemStore.compare 8 ic "sha256:base"
     (Some (Sample.cfg ["RUN"; "make"])) Sample.linuxAmd64).1
  = Some ("restored:FROM scratch;RUN make", None).
Proof.
  intros ic.
  destruct (GetCache_mid_history MemStore.comparePlatform MemStore.compare 8
              ic "sha256:base" (Some (Sample.cfg ["RUN"; "make"]))
              Sample.linuxAmd64 (Some Sample.base) Sample.source [] []
              [CallChildren "sha256:base"; CallGet "sha256:old";
               CallIsBuiltLocally "sha256:old"; CallGet "sha256:new";
               CallIsBuiltLocally "sha256:new";
               CallGetParent "sha256:source"])
    as (parent' & img & layer & Hbuild & Hcreate);
    [vm_compute; reflexivity|split; [discriminate|reflexivity]|reflexivity
    |constructor|reflexivity|discriminate|reflexivity|].
  vm_compute in Hbuild. injection Hbuild as <- <- <-.
  vm_compute in Hcreate. destruct Hcreate as [_ Hret].
  apply (f_equal fst) in Hret. exact Hret.
Defined.

Lemma GetCache_nil_config_witness :
  let ic := {| sources := [Sample.source]; store := Sample.unlinkedStore |} in
  GetCache MemStore.comparePlatform MemStore.compare 8 ic "" None
    Sample.linuxAmd64
  = (None, ic).
Proof.
  intros ic.
  apply (proj2 (GetCache_nil_config MemStore.comparePlatform MemStore.compare
                  8 ic "" Sample.linuxAmd64 None eq_refl)
           [] Sample.source []);
    [reflexivity|constructor|reflexivity].
Defined.

Lemma GetCache_fast_path_sound_witness :
  exists src n,
    src ∈ [Sample.source]
    /\ ExtensionSpec.nthParent Sample.chainStore (Datatypes.S n)
         (image.computedID src) = Some "sha256:mid".
Proof.
  apply (GetCache_fast_path_sound MemStore.comparePlatform MemStore.compare
           8 {| sources := [Sample.source]; store := Sample.chainStore |}
           {| sources := [Sample.source]; store := Sample.chainStore |}
           "sha256:base" (Some (Sample.cfg ["RUN"; "make"]))
           Sample.linuxAmd64 "sha256:mid"
           [CallChildren "sha256:base"; CallGet "sha256:mid";
            CallIsBuiltLocally "sha256:mid"; CallGetParent "sha256:source"]).
  vm_compute. reflexivity.
Defined.

Lemma getLocalCachedImage_sound_witness :
  exists id,
    id ∈ Children Sample.localStore "sha256:base"
    /\ Get Sample.localStore id = Ok Sample.childNew
    /\ IsBuiltLocally Sample.localStore id = Ok true.
Proof.
  destruct (getLocalCachedImage_sound MemStore.comparePlatform
              MemStore.compare Sample.localStore "sha256:base"
              (Sample.cfg ["RUN"; "make"]) Sample.linuxAmd64 Sample.childNew
              None
              [CallChildren "sha256:base"; CallGet "sha256:old";
               CallIsBuiltLocally "sha256:old"; CallGet "sha256:new";
               CallIsBuiltLocally "sha256:new"])
    as (_ & id & Hin & Hget & Hlocal & _); [vm_compute; reflexivity|].
  by exists id.
Defined.

Lemma getLocalCachedImage_earliest_most_recent_witness :
  ExtensionSpec.earliestMostRecent
    (LocalSpec.passingChildren MemStore.comparePlatform MemStore.compare
       Sample.localStore (Sample.cfg ["RUN"; "make"]) Sample.linuxAmd64
       (Children Sample.localStore "sha256:base"))
    Sample.childNew.
Proof.
  apply (getLocalCachedImage_earliest_most_recent MemStore.comparePlatform
           MemStore.compare Sample.localStore "sha256:base"
           (Sample.cfg ["RUN"; "make"]) Sample.linuxAmd64 Sample.childNew
           [CallChildren "sha256:base"; CallGet "sha256:old";
            CallIsBuiltLocally "sha256:old"; CallGet "sha256:new";
            CallIsBuiltLocally "sha256:new"]).
  vm_compute. reflexivity.
Defined.

(** *** The config test *)

Lemma string_append_assoc (a b c : string) :
  ((a ++ b) ++ c)%string = (a ++ (b ++ c))%string.
Proof.
  induction a as [|x a IH]; [done|].
  change (String x ((a ++ b) ++ c) = String x (a ++ (b ++ c)))%string.
  by rewrite IH.
Qed.

Lemma Join_space_merge (a b : string) (rest : list string) :
  strings.Join ((a ++ " " ++ b)%string :: rest) " "
  = strings.Join (a :: b :: rest) " ".
Proof.
  unfold strings.Join. destruct rest as [|r rest]; simpl; [done|].
  by rewrite !string_append_assoc.
Qed.

(** X19.  The config test is the join of the command by spaces and nothing
    else: a command with an argument that holds a space passes exactly
    when the command with that argument split in two does, and the other
    fields of the config are not looked at.  (The join loses data, as the
    source notes.) *)
Theorem isValidConfig_join_loses_data (a b : string) (rest env1 env2 : list string)
  (h : ocispec.History) :
  isValidConfig
    (Some {| containertypes.Cmd := (a ++ " " ++ b)%string :: rest;
             containertypes.Env := env1 |}) h
  = isValidConfig
      (Some {| containertypes.Cmd := a :: b :: rest;
               containertypes.Env := env2 |}) h
  /\ (isValidConfig
        (Some {| containertypes.Cmd := a :: b :: rest;
                 containertypes.Env := env2 |}) h = Some true
      <-> ocispec.CreatedBy h
          = (a ++ " " ++ strings.Join (b :: rest) " ")%string).
Proof.
  unfold isValidConfig. cbn [containertypes.Cmd].
  rewrite Join_space_merge. split; [done|].
  assert (strings.Join (a :: b :: rest) " "
          = (a ++ " " ++ strings.Join (b :: rest) " ")%string) as ->
    by (unfold strings.Join; by destruct rest).
  split.
  - by intros [= Heq%bool_decide_eq_true].
  - intros ->. by rewrite bool_decide_eq_true_2.
Qed.

(** *** What a hit of the history scan is *)

Section HistoryHits.
Context {S : Type} `{ImageCacheStore S}.
Variable comparePlatform : ocispec.Platform -> ocispec.Platform -> bool.
Variable compare : containertypes.Config -> containertypes.Config -> bool.

Lemma isCandidate_true parent lenHistory cfg target :
  isCandidate parent lenHistory cfg target = Some true ->
  isValidParent target parent = Some true
  /\ exists c h,
       cfg = Some c
       /\ image.History target !! lenHistory = Some h
       /\ ocispec.CreatedBy h = strings.Join (containertypes.Cmd c) " ".
Proof.
  unfold isCandidate.
  destruct (isValidParent target parent) as [[|]|]; [|done..].
  destruct (image.History target !! lenHistory) as [h|]; [|done].
  destruct cfg as [c|]; [|done]. simpl.
  intros [= Heq%bool_decide_eq_true]. split; [done|]. by exists c, h.
Qed.

Lemma scanSources_stops ic parentID parent lenHistory cfg : forall targets,
  let r := scanSources ic parentID parent lenHistory cfg targets in
  r.1.1 = ExitMiss
  \/ r.1.1 = ExitPanic
  \/ exists pre target post,
       targets = (pre ++ target :: post)%list
       /\ Forall (fun t => isCandidate parent lenHistory cfg t = Some false) pre
       /\ isCandidate parent lenHistory cfg target = Some true
       /\ r = useCandidate ic parentID parent lenHistory cfg target.
Proof.
  induction targets as [|t targets IH]; simpl; [by left|].
  destruct (isCandidate parent lenHistory cfg t) as [[|]|] eqn:Ht.
  - right. right. by exists [], t, targets.
  - destruct IH as [IH|[IH|(pre & target & post & -> & Hpre & Htarget & Hr)]];
      [by left|by right; left|].
    right. right. exists (t :: pre), target, post.
    split; [done|]. split; [by constructor|done].
  - right. by left.
Qed.

(** X20.  A hit of the history scan is the first candidate: when
    [GetCache] returns a source's own identity (final step) or restores an
    image from a source, that source is the first registered one that is a
    valid extension of the fetched parent and whose history entry at the
    parent's length was created by the requested command, joined by
    spaces; it has exactly one entry more than the parent in the first
    case, and more than one in the second. *)
Theorem GetCache_hit_is_first_candidate (fuel : nat) (ic : ImageCache)
  (parentID : string) (cfg : option containertypes.Config)
  (platform : ocispec.Platform) :
  let r := cache.GetCache_exit comparePlatform compare fuel ic parentID cfg
             platform in
  match r.1.1 with
  | ExitFinalStep id =>
      exists parent pre target post,
        ExtensionSpec.firstCandidate (store ic) parentID cfg (sources ic)
          parent pre target post
        /\ id = image.computedID target
        /\ length (image.History target)
           = Datatypes.S (length (from_option image.History [] parent))
  | ExitRestored _ target =>
      exists parent pre post,
        ExtensionSpec.firstCandidate (store ic) parentID cfg (sources ic)
          parent pre target post
        /\ (Datatypes.S (length (from_option image.History [] parent))
            < length (image.History target))%nat
  | _ => True
  end.
Proof.
  intros r. unfold r, cache.GetCache_exit.
  destruct (cache.localPhase comparePlatform compare fuel ic parentID cfg
              platform) as [[e|] c1] eqn:Hlocal.
  { simpl. unfold cache.localPhase in Hlocal.
    destruct (cache.LocalImageCache_GetCache _ _ _ _ _ _)
      as [[[id [err|]]|] c0]; simplify_eq; try done.
    case_bool_decide; [|done].
    destruct (anyIsParent _ _ _ _) as [[[|]|] c2]; by simplify_eq. }
  assert (forall parent,
            ExtensionSpec.parentFetched (store ic) parentID parent ->
            let q := scanSources ic parentID parent
                       (length (from_option image.History [] parent)) cfg
                       (sources ic) in
            match q.1.1 with
            | ExitFinalStep id =>
                exists parent pre target post,
                  ExtensionSpec.firstCandidate (store ic) parentID cfg
                    (sources ic) parent pre target post
                  /\ id = image.computedID target
                  /\ length (image.History target)
                     = Datatypes.S
                         (length (from_option image.History [] parent))
            | ExitRestored _ target =>
                exists parent pre post,
                  ExtensionSpec.firstCandidate (store ic) parentID cfg
                    (sources ic) parent pre target post
                  /\ (Datatypes.S
                        (length (from_option image.History [] parent))
                      < length (image.History target))%nat
            | _ => True
            end) as Hscan.
  { intros parent Hparent q.
    destruct (scanSources_stops ic parentID parent
                (length (from_option image.History [] parent)) cfg
                (sources ic))
      as [Hq|[Hq|(pre & target & post & Hsrc & Hpre & Htarget & Hq)]];
      fold q in Hq; [by rewrite Hq..|].
    destruct (isCandidate_true _ _ _ _ Htarget) as [Hvalid Hcfg].
    assert (ExtensionSpec.firstCandidate (store ic) parentID cfg (sources ic)
              parent pre target post) as Hfirst by done.
    assert (Hlt := isValidParent_length _ _ Hvalid).
    rewrite Hq. unfold useCandidate. case_bool_decide as Hlast.
    - destruct parent as [p|].
      + destruct (SetParent _ _ _) as [[?|] ?]; simpl; [done|].
        exists (Some p), pre, target, post. simpl in *.
        split; [done|]. split; [done|lia].
      + simpl. exists None, pre, target, post. simpl in *.
        split; [done|]. split; [done|lia].
    - destruct (restoreCachedImage _ _ _ _) as [[[[?|?] ?]|] ?];
        simpl; try done.
      exists parent, pre, post. split; [done|]. lia. }
  unfold historyPhase. case_bool_decide as Hne.
  - destruct (Get (store ic) parentID) as [p|] eqn:Hget; [|done].
    specialize (Hscan (Some p) (conj Hne Hget)). simpl in Hscan.
    by destruct (scanSources ic parentID (Some p) (length (image.History p))
                   cfg (sources ic)) as [[e0 ic0] c0].
  - assert (parentID = "") as -> by (by destruct (decide (parentID = ""))).
    specialize (Hscan None eq_refl). simpl in Hscan.
    by destruct (scanSources ic "" None 0 cfg (sources ic))
      as [[e0 ic0] c0].
Qed.

End HistoryHits.

Lemma GetCache_hit_is_first_candidate_witness :
  exists parent pre post,
    ExtensionSpec.firstCandidate Sample.localStore "sha256:base"
      (Some (Sample.cfg ["RUN"; "make"]))
      [Sample.threeLayers; Sample.source] parent pre Sample.source post.
Proof.
  assert (Hhit := GetCache_hit_is_first_candidate MemStore.comparePlatform
                    MemStore.compare 8
                    {| sources := [Sample.threeLayers; Sample.source];
                       store := Sample.localStore |}
                    "sha256:base" (Some (Sample.cfg ["RUN"; "make"]))
                    Sample.linuxAmd64).
  cbv zeta in Hhit.
  remember (GetCache_exit MemStore.comparePlatform MemStore.compare 8 _ _ _ _)
    as r eqn:Hr in Hhit.
  destruct r as [[e ic'] calls]. vm_compute in Hr.
  injection Hr as -> _ _. simpl in Hhit.
  destruct Hhit as (parent & pre & post & Hfirst & _).
  by exists parent, pre, post.
Defined.

(** *** The fast path, the final step and the source set, by the store's
    parent links and the tests of the scan *)

Section Precedence.
Context {S : Type} `{ImageCacheStore S}.
Variable comparePlatform : ocispec.Platform -> ocispec.Platform -> bool.
Variable compare : containertypes.Config -> containertypes.Config -> bool.

Abbreviation LocalImageCache_GetCache :=
  (cache.LocalImageCache_GetCache comparePlatform compare).
Abbreviation localPhase := (cache.localPhase comparePlatform compare).
Abbreviation GetCache_exit := (cache.GetCache_exit comparePlatform compare).
Abbreviation GetCache := (cache.GetCache comparePlatform compare).
Abbreviation GetCache_run := (cache.GetCache_run comparePlatform compare).

Lemma isParent_S fuel (s : S) imgID parentID :
  isParent (Datatypes.S fuel) s imgID parentID
  = match GetParent s imgID with
    | Err _ => (Some false, [CallGetParent imgID])
    | Ok nextParent =>
        if bool_decide (nextParent = parentID) then
          (Some true, [CallGetParent imgID])
        else
          let '(r, calls) := isParent fuel s nextParent parentID in
          (r, CallGetParent imgID :: calls)
    end.
Proof. reflexivity. Qed.

Lemma nthParent_S n (s : S) id :
  ExtensionSpec.nthParent s (Datatypes.S n) id
  = match GetParent s id with
    | Ok p => ExtensionSpec.nthParent s n p
    | Err _ => None
    end.
Proof. reflexivity. Qed.

(** A chain that ends within [n + 1] links without leading to the image
    asked for is answered false by a run that may recurse that deep. *)
Lemma isParent_chain_ends n : forall (s : S) id p,
  ExtensionSpec.nthParent s (Datatypes.S n) id = None ->
  (forall m, (m < n)%nat ->
             ExtensionSpec.nthParent s (Datatypes.S m) id <> Some p) ->
  exists calls, isParent (Datatypes.S n) s id p = (Some false, calls).
Proof.
  induction n as [|n IH]; intros s id p Hend Hnot;
    rewrite nthParent_S in Hend; rewrite isParent_S.
  - destruct (GetParent s id) as [q|]; [done|]. by eexists.
  - destruct (GetParent s id) as [q|] eqn:Hq; [|by eexists].
    assert (q <> p) as Hqp.
    { intros ->. apply (Hnot 0%nat ltac:(lia)).
      rewrite nthParent_S, Hq. done. }
    rewrite bool_decide_eq_false_2 by done.
    destruct (IH s q p Hend) as [c Hc].
    { intros m Hm. specialize (Hnot (Datatypes.S m) ltac:(lia)).
      by rewrite nthParent_S, Hq in Hnot. }
    rewrite Hc. by eexists.
Qed.

Lemma isParent_ends (s : S) id p :
  ExtensionSpec.endsWithout s id p ->
  exists fuel0 calls, forall fuel, (fuel0 <= fuel)%nat ->
    isParent fuel s id p = (Some false, calls).
Proof.
  intros (n & Hend & Hnot).
  destruct (isParent_chain_ends n s id p Hend Hnot) as [c Hc].
  exists (Datatypes.S n), c. intros fuel Hle.
  by apply (isParent_fuel_mono _ _ _ _ _ _ _ Hle Hc).
Qed.

Lemma isParent_reaches (s : S) id p :
  ExtensionSpec.reaches s id p ->
  exists fuel0 calls, forall fuel, (fuel0 <= fuel)%nat ->
    isParent fuel s id p = (Some true, calls).
Proof.
  intros [n Hn].
  assert (Htrue := ancestor_isParent_true (Datatypes.S n) s id p n Hn
                     ltac:(lia)).
  destruct (isParent (Datatypes.S n) s id p) as [r c] eqn:Hp.
  simpl in Htrue. subst r.
  exists (Datatypes.S n), c. intros fuel Hle.
  by apply (isParent_fuel_mono _ _ _ _ _ _ _ Hle Hp).
Qed.

(** The ancestry loop over the sources answers true at the first source
    that reaches the image, when the checks of the sources before it come
    to an end. *)
Lemma anyIsParent_reaches (s : S) p src post : forall pre,
  Forall (fun t => ExtensionSpec.reaches s (image.computedID t) p
                   \/ ExtensionSpec.endsWithout s (image.computedID t) p)
    pre ->
  ExtensionSpec.reaches s (image.computedID src) p ->
  exists fuel0 calls, forall fuel, (fuel0 <= fuel)%nat ->
    anyIsParent fuel s (pre ++ src :: post) p = (Some true, calls).
Proof.
  induction pre as [|t pre IH]; intros Hpre Hsrc.
  - destruct (isParent_reaches _ _ _ Hsrc) as (f & c & Hf).
    exists f, c. intros fuel Hle. simpl. by rewrite (Hf fuel Hle).
  - apply Forall_cons in Hpre as [[Ht|Ht] Hpre].
    + destruct (isParent_reaches _ _ _ Ht) as (f & c & Hf).
      exists f, c. intros fuel Hle. simpl. by rewrite (Hf fuel Hle).
    + destruct (isParent_ends _ _ _ Ht) as (f1 & c1 & Hf1).
      destruct (IH Hpre Hsrc) as (f2 & c2 & Hf2).
      exists (f1 `max` f2)%nat, (c1 ++ c2)%list. intros fuel Hle. simpl.
      rewrite (Hf1 fuel) by lia. by rewrite (Hf2 fuel) by lia.
Qed.

(** It answers false when the chain of every source ends without leading
    to the image. *)
Lemma anyIsParent_ends (s : S) p : forall srcs,
  Forall (fun t => ExtensionSpec.endsWithout s (image.computedID t) p) srcs ->
  exists fuel0 calls, forall fuel, (fuel0 <= fuel)%nat ->
    anyIsParent fuel s srcs p = (Some false, calls).
Proof.
  induction srcs as [|t srcs IH]; intros Hall.
  - by exists 0%nat, [].
  - apply Forall_cons in Hall as [Ht Hall].
    destruct (isParent_ends _ _ _ Ht) as (f1 & c1 & Hf1).
    destruct (IH Hall) as (f2 & c2 & Hf2).
    exists (f1 `max` f2)%nat, (c1 ++ c2)%list. intros fuel Hle. simpl.
    rewrite (Hf1 fuel) by lia. by rewrite (Hf2 fuel) by lia.
Qed.

(** It does not come to an end when, after sources that the image is not
    reached from, comes a source whose parent links never fail and never
    lead to the image. *)
Lemma anyIsParent_cycle (s : S) p (P : image.ID -> Prop) src post :
  (forall x, P x -> exists y, GetParent s x = Ok y /\ y <> p /\ P y) ->
  P (image.computedID src) ->
  forall pre,
  Forall (fun t => ~ ExtensionSpec.reaches s (image.computedID t) p) pre ->
  forall fuel, (anyIsParent fuel s (pre ++ src :: post) p).1 = None.
Proof.
  intros Hclosed Hsrc.
  assert (forall fuel x, P x -> (isParent fuel s x p).1 = None) as Hloop.
  { induction fuel as [|fuel IH]; intros x HP; [done|].
    rewrite isParent_S.
    destruct (Hclosed x HP) as (y & -> & Hne & HPy).
    rewrite bool_decide_eq_false_2 by done.
    specialize (IH y HPy). by destruct (isParent fuel s y p). }
  induction pre as [|t pre IH]; intros Hpre fuel; simpl.
  - specialize (Hloop fuel _ Hsrc).
    destruct (isParent fuel s (image.computedID src) p) as [r c].
    simpl in Hloop. by subst r.
  - apply Forall_cons in Hpre as [Ht Hpre].
    destruct (isParent fuel s (image.computedID t) p) as [[[|]|] c] eqn:Hp;
      [|specialize (IH Hpre fuel);
        by destruct (anyIsParent fuel s (pre ++ src :: post) p)
      |done].
    destruct (isParent_true_ancestor _ _ _ _ _ Hp) as (n & _ & _ & Hn).
    destruct Ht. by exists n.
Qed.

(** The local phase falls through when the local cache misses, and when
    its hit is reached from no source, the chains of the sources ending. *)
Lemma localPhase_falls_through ic parentID cfg platform imgID c0 :
  LocalImageCache_GetCache (store ic) parentID cfg platform
  = (Some (imgID, None), c0) ->
  imgID = ""
  \/ Forall (fun t => ExtensionSpec.endsWithout (store ic)
                        (image.computedID t) imgID) (sources ic) ->
  exists fuel0 c2,
    Forall (fun c => exists id, c = CallGetParent id) c2
    /\ forall fuel, (fuel0 <= fuel)%nat ->
         localPhase fuel ic parentID cfg platform = (None, (c0 ++ c2)%list).
Proof.
  intros Hlocal Hcase.
  destruct (decide (imgID = "")) as [->|Hne].
  { exists 0%nat, []. split; [done|]. intros fuel _.
    unfold cache.localPhase. rewrite Hlocal. simpl.
    by rewrite app_nil_r. }
  destruct Hcase as [?|Hall]; [done|].
  destruct (anyIsParent_ends _ _ _ Hall) as (f & c2 & Hf).
  exists f, c2. split.
  { eapply anyIsParent_calls. apply (Hf f). lia. }
  intros fuel Hle. unfold cache.localPhase. rewrite Hlocal.
  rewrite bool_decide_eq_true_2 by done. by rewrite (Hf fuel Hle).
Qed.

(** The history phase does not leave through the fast path. *)
Lemma scanSources_not_fast_path ic parentID parent lenHistory cfg id :
  forall targets,
  (scanSources ic parentID parent lenHistory cfg targets).1.1
  <> ExitFastPath id.
Proof.
  induction targets as [|t targets IH]; simpl; [done|].
  destruct (isCandidate parent lenHistory cfg t) as [[|]|]; [|done..].
  unfold useCandidate. case_bool_decide.
  - destruct parent as [p|]; [|done].
    by destruct (SetParent _ _ _) as [[?|] ?].
  - by destruct (restoreCachedImage _ _ _ _) as [[[[?|?] ?]|] ?].
Qed.

Lemma historyPhase_not_fast_path ic parentID cfg id :
  (historyPhase ic parentID cfg).1.1 <> ExitFastPath id.
Proof.
  unfold historyPhase. case_bool_decide.
  - destruct (Get (store ic) parentID) as [p|]; [|done].
    assert (Hscan := scanSources_not_fast_path ic parentID (Some p)
                       (length (image.History p)) cfg id (sources ic)).
    by destruct (scanSources ic parentID (Some p) (length (image.History p))
                   cfg (sources ic)) as [[e ic'] c].
  - apply scanSources_not_fast_path.
Qed.

(** C2, amended.  Let the local parent-chain cache return a hit for the
    parent, config and platform.  If some registered source reaches that
    hit by following one or more of the store's parent links, and the
    parent chain of each source registered before it reaches the hit too
    or ends, then the combined cache's [GetCache] returns that hit through
    the fast path: the cache and the store are left as they were, the only
    calls made on the store after the local lookup are [GetParent] calls,
    the parent image is not fetched, and the answer is the same for any
    sources with the same identities, whatever their histories are.  If
    instead the parent chain of every registered source ends without
    leading to the hit, the hit is not returned on this path: [GetCache]
    goes on to fetch the parent and to scan the histories, and does not
    leave through the fast path.  Both hold for every run that may recurse
    deep enough in the ancestry check. *)
Theorem GetCache_local_precedence (ic : ImageCache) (parentID : string)
  (cfg : option containertypes.Config) (platform : ocispec.Platform)
  (imgID : string) (c1 : list StoreCall) :
  LocalImageCache_GetCache (store ic) parentID cfg platform
  = (Some (imgID, None), c1) ->
  imgID <> "" ->
  (forall pre src post,
     sources ic = (pre ++ src :: post)%list ->
     Forall (fun t =>
               ExtensionSpec.reaches (store ic) (image.computedID t) imgID
               \/ ExtensionSpec.endsWithout (store ic) (image.computedID t)
                    imgID) pre ->
     ExtensionSpec.reaches (store ic) (image.computedID src) imgID ->
     exists fuel0 c2,
       Forall (fun c => exists id, c = CallGetParent id) c2
       /\ forall fuel, (fuel0 <= fuel)%nat ->
            GetCache_exit fuel ic parentID cfg platform
            = (ExitFastPath imgID, ic, (c1 ++ c2)%list)
            /\ GetCache fuel ic parentID cfg platform
               = (Some (imgID, None), ic)
            /\ forall srcs,
                 image.computedID <$> srcs = image.computedID <$> sources ic ->
                 let ic' := {| sources := srcs; store := store ic |} in
                 GetCache fuel ic' parentID cfg platform
                 = (Some (imgID, None), ic'))
  /\ (Forall (fun t => ExtensionSpec.endsWithout (store ic)
                         (image.computedID t) imgID) (sources ic) ->
      exists fuel0 c2,
        Forall (fun c => exists id, c = CallGetParent id) c2
        /\ forall fuel, (fuel0 <= fuel)%nat ->
             GetCache_exit fuel ic parentID cfg platform
             = (let '(e, ic', c3) := historyPhase ic parentID cfg in
                (e, ic', ((c1 ++ c2) ++ c3)%list))
             /\ forall id,
                  (GetCache_exit fuel ic parentID cfg platform).1.1
                  <> ExitFastPath id).
Proof.
  intros Hlocal Hne. split.
  - intros pre src post Hsrcs Hpre Hsrc.
    destruct (anyIsParent_reaches (store ic) imgID src post pre Hpre Hsrc)
      as (f & c2 & Hf).
    rewrite <- Hsrcs in Hf.
    exists f, c2. split.
    { eapply anyIsParent_calls. apply (Hf f). lia. }
    intros fuel Hle.
    destruct (GetCache_fast_path_taken comparePlatform compare fuel ic
                parentID cfg platform imgID c1 c2 Hlocal Hne (Hf fuel Hle))
      as (Hexit & Hret & _ & Hids).
    split; [done|]. split; [done|].
    intros srcs Heq. by apply (Hids fuel srcs).
  - intros Hall.
    destruct (localPhase_falls_through ic parentID cfg platform imgID c1
                Hlocal (or_intror Hall)) as (f & c2 & Hc2 & Hf).
    exists f, c2. split; [done|]. intros fuel Hle.
    assert (GetCache_exit fuel ic parentID cfg platform
            = (let '(e, ic', c3) := historyPhase ic parentID cfg in
               (e, ic', ((c1 ++ c2) ++ c3)%list))) as Hexit.
    { unfold cache.GetCache_exit. by rewrite (Hf fuel Hle). }
    split; [done|]. intros id. rewrite Hexit.
    assert (Hnot := historyPhase_not_fast_path ic parentID cfg id).
    by destruct (historyPhase ic parentID cfg) as [[e ic'] c3].
Qed.

(** C3, amended.  For every non-nil parent and every source image that is
    the first candidate and whose history has exactly one entry more than
    the parent's (a final-step match), when the fast path is not taken -
    the local cache reports no error, and it misses or its hit is reached
    from no registered source, the parent chain of every source ending -
    the outcome of the store's [SetParent] decides: when it succeeds,
    [GetCache] returns the source's own identity and a nil error; when it
    fails, [GetCache] returns the empty string and that failure wrapped as
    "failed to set parent".  Either way [SetParent] is the last call and
    the only one that changes the store, no image is created, and the
    source set is left as it was. *)
Theorem GetCache_final_step (ic : ImageCache) (parentID : string)
  (cfg : option containertypes.Config) (platform : ocispec.Platform)
  (imgID : string) (c0 : list StoreCall) (parent target : image.Image)
  (pre post : list image.Image) :
  LocalImageCache_GetCache (store ic) parentID cfg platform
  = (Some (imgID, None), c0) ->
  imgID = ""
  \/ Forall (fun t => ExtensionSpec.endsWithout (store ic)
                        (image.computedID t) imgID) (sources ic) ->
  parentID <> "" ->
  Get (store ic) parentID = Ok parent ->
  sources ic = (pre ++ target :: post)%list ->
  Forall (fun t => isCandidate (Some parent) (length (image.History parent))
                     cfg t = Some false) pre ->
  isCandidate (Some parent) (length (image.History parent)) cfg target
  = Some true ->
  (Z.of_nat (length (image.History target)) - 1
   = Z.of_nat (length (image.History parent)))%Z ->
  let call :=
    CallSetParent (image.computedID target) (image.computedID parent) in
  exists fuel0 c1,
    Forall (fun c => ExtensionSpec.mutates c = false) c1
    /\ forall fuel, (fuel0 <= fuel)%nat ->
         match SetParent (store ic) (image.computedID target)
                 (image.computedID parent) with
         | (None, s') =>
             GetCache_exit fuel ic parentID cfg platform
             = (ExitFinalStep (image.computedID target),
                {| sources := sources ic; store := s' |},
                (c1 ++ [CallGet parentID; call])%list)
             /\ GetCache fuel ic parentID cfg platform
                = (Some (image.computedID target, None),
                   {| sources := sources ic; store := s' |})
         | (Some err, s') =>
             let wrapped :=
               Wrapf err "failed to set parent for %v to %v"
                 [image.computedID target; image.computedID parent] in
             GetCache_exit fuel ic parentID cfg platform
             = (ExitSetParentFailed wrapped,
                {| sources := sources ic; store := s' |},
                (c1 ++ [CallGet parentID; call])%list)
             /\ GetCache fuel ic parentID cfg platform
                = (Some ("", Some wrapped),
                   {| sources := sources ic; store := s' |})
         end.
Proof.
  intros Hlocal Hcase Hne Hget Hsrc Hpre Htarget Hlast call.
  destruct (localPhase_falls_through ic parentID cfg platform imgID c0
              Hlocal Hcase) as (f & c2 & Hc2 & Hf).
  exists f, (c0 ++ c2)%list. split.
  { eapply (localPhase_reads comparePlatform compare). apply (Hf f). lia. }
  intros fuel Hle.
  exact (GetCache_final_step_after_local comparePlatform compare fuel ic
           parentID cfg platform parent target pre post (c0 ++ c2)%list
           (Hf fuel Hle) Hne Hget Hsrc Hpre Htarget Hlast).
Qed.

End Precedence.

(** *** When the source set changes *)

Section SourceSet.
Context {S : Type} `{ImageCacheStore S}.
Variable comparePlatform : ocispec.Platform -> ocispec.Platform -> bool.
Variable compare : containertypes.Config -> containertypes.Config -> bool.

Abbreviation localPhase := (cache.localPhase comparePlatform compare).
Abbreviation GetCache_exit := (cache.GetCache_exit comparePlatform compare).
Abbreviation GetCache := (cache.GetCache comparePlatform compare).
Abbreviation GetCache_run := (cache.GetCache_run comparePlatform compare).

(** The test of line 102 holds for a valid extension whose entry at the
    parent's length was created by the requested command. *)
Lemma isCandidate_first parent lenHistory cfg target :
  isValidParent target parent = Some true ->
  (exists c h,
     cfg = Some c
     /\ image.History target !! lenHistory = Some h
     /\ ocispec.CreatedBy h = strings.Join (containertypes.Cmd c) " ") ->
  isCandidate parent lenHistory cfg target = Some true.
Proof.
  intros Hvalid (c & h & -> & Hh & Hc).
  unfold isCandidate. rewrite Hvalid, Hh. simpl.
  by rewrite Hc, bool_decide_eq_true_2.
Qed.

(** Lines 106-121 on a candidate, by the test of line 106 and the outcome
    of [Create]. *)
Lemma useCandidate_by_length ic parentID parent cfg target :
  let lenHistory := length (from_option image.History [] parent) in
  let q := useCandidate ic parentID parent lenHistory cfg target in
  (length (image.History target) = Datatypes.S lenHistory ->
   sources q.1.2 = sources ic
   /\ forall id t, q.1.1 <> ExitRestored id t)
  /\ ((Datatypes.S lenHistory < length (image.History target))%nat ->
      match buildRestoredImage parent target cfg with
      | None => q.1.1 = ExitPanic /\ q.1.2 = ic
      | Some (parent', img, layer) =>
          match Create (store ic) parent' img layer with
          | (Ok id, s') =>
              q.1.1 = ExitRestored id target
              /\ q.1.2 = {| sources := [target]; store := s' |}
          | (Err err, s') =>
              (exists wrapped, q.1.1 = ExitRestoreFailed wrapped)
              /\ q.1.2 = {| sources := sources ic; store := s' |}
          end
      end).
Proof.
  intros lenHistory q. unfold q, useCandidate. split.
  - intros Hlast. rewrite bool_decide_eq_true_2 by lia.
    destruct parent as [p|]; [|done].
    by destruct (SetParent _ _ _) as [[?|] ?].
  - intros Hmid. rewrite bool_decide_eq_false_2 by lia.
    unfold restoreCachedImage.
    destruct (buildRestoredImage parent target cfg) as [[[parent' img] layer]|];
      [|done].
    destruct (Create (store ic) parent' img layer) as [[id|err] s']; simpl;
      [done|]. split; [by eexists|done].
Qed.

(** A call of [GetCache] leaves from the local phase, with the cache as
    it was, or it leaves as the history phase does. *)
Lemma GetCache_exit_phases fuel ic parentID cfg platform :
  let r := GetCache_exit fuel ic parentID cfg platform in
  (exists e c1,
     localPhase fuel ic parentID cfg platform = (Some e, c1)
     /\ r = (e, ic, c1))
  \/ (exists c1,
        localPhase fuel ic parentID cfg platform = (None, c1)
        /\ r.1.1 = (historyPhase ic parentID cfg).1.1
        /\ r.1.2 = (historyPhase ic parentID cfg).1.2).
Proof.
  intros r. unfold r, cache.GetCache_exit.
  destruct (localPhase fuel ic parentID cfg platform) as [[e|] c1].
  - left. by exists e, c1.
  - right. exists c1. split; [done|].
    by destruct (historyPhase ic parentID cfg) as [[e ic'] c2].
Qed.

(** The history phase on a first candidate. *)
Lemma historyPhase_first_candidate ic parentID cfg parent pre target post :
  ExtensionSpec.firstCandidate (store ic) parentID cfg (sources ic) parent
    pre target post ->
  let q := useCandidate ic parentID parent
             (length (from_option image.History [] parent)) cfg target in
  (historyPhase ic parentID cfg).1.1 = q.1.1
  /\ (historyPhase ic parentID cfg).1.2 = q.1.2.
Proof.
  intros (Hparent & Hsrc & Hpre & Hvalid & Hcfg) q.
  assert (Htarget := isCandidate_first _ _ _ _ Hvalid Hcfg).
  assert (scanSources ic parentID parent
            (length (from_option image.History [] parent)) cfg (sources ic)
          = q) as Hscan.
  { rewrite Hsrc.
    exact (scanSources_first_candidate _ _ _ _ _ _ _ _ Hpre Htarget). }
  rewrite (historyPhase_scan _ _ _ _ Hparent), Hscan.
  by destruct q as [[e ic'] c].
Qed.

(** The history phase changes the source set only by restoring an image
    in mid-history from the first candidate. *)
Lemma historyPhase_narrows ic parentID cfg :
  let q := historyPhase ic parentID cfg in
  sources q.1.2 = sources ic
  \/ exists parent pre target post parent' img layer id s',
       ExtensionSpec.firstCandidate (store ic) parentID cfg (sources ic)
         parent pre target post
       /\ (Datatypes.S (length (from_option image.History [] parent))
           < length (image.History target))%nat
       /\ buildRestoredImage parent target cfg = Some (parent', img, layer)
       /\ Create (store ic) parent' img layer = (Ok id, s')
       /\ q.1.1 = ExitRestored id target
       /\ q.1.2 = {| sources := [target]; store := s' |}.
Proof.
  intros q.
  assert (forall parent,
            ExtensionSpec.parentFetched (store ic) parentID parent ->
            sources q.1.2 = sources ic
            \/ exists parent pre target post parent' img layer id s',
                 ExtensionSpec.firstCandidate (store ic) parentID cfg
                   (sources ic) parent pre target post
                 /\ (Datatypes.S
                       (length (from_option image.History [] parent))
                     < length (image.History target))%nat
                 /\ buildRestoredImage parent target cfg
                    = Some (parent', img, layer)
                 /\ Create (store ic) parent' img layer = (Ok id, s')
                 /\ q.1.1 = ExitRestored id target
                 /\ q.1.2 = {| sources := [target]; store := s' |}) as Hcase.
  { intros parent Hparent.
    destruct (scanSources_stops ic parentID parent
                (length (from_option image.History [] parent)) cfg
                (sources ic))
      as [Hq|[Hq|(pre & target & post & Hsrc & Hpre & Htarget & Hq)]].
    - left. unfold q. rewrite (historyPhase_scan _ _ _ _ Hparent).
      assert (Hs := scanSources_sources ic parentID parent
                      (length (from_option image.History [] parent)) cfg
                      (sources ic)).
      simpl in Hs, Hq.
      destruct (scanSources ic parentID parent _ cfg (sources ic))
        as [[e ic'] c]; simpl in *. by subst e.
    - left. unfold q. rewrite (historyPhase_scan _ _ _ _ Hparent).
      assert (Hs := scanSources_sources ic parentID parent
                      (length (from_option image.History [] parent)) cfg
                      (sources ic)).
      simpl in Hs, Hq.
      destruct (scanSources ic parentID parent _ cfg (sources ic))
        as [[e ic'] c]; simpl in *. by subst e.
    - destruct (isCandidate_true _ _ _ _ Htarget) as [Hvalid Hcfg].
      assert (ExtensionSpec.firstCandidate (store ic) parentID cfg
                (sources ic) parent pre target post) as Hfirst by done.
      destruct (historyPhase_first_candidate _ _ _ _ _ _ _ Hfirst)
        as [He Hic]. fold q in He, Hic.
      assert (Hlt := isValidParent_length _ _ Hvalid).
      destruct (useCandidate_by_length ic parentID parent cfg target)
        as [Hlast Hmid].
      destruct (decide (length (image.History target)
                        = Datatypes.S
                            (length (from_option image.History [] parent))))
        as [Heq|Hneq].
      + left. rewrite Hic. by apply Hlast.
      + assert (Datatypes.S (length (from_option image.History [] parent))
                < length (image.History target))%nat as Hgt by lia.
        specialize (Hmid Hgt).
        destruct (buildRestoredImage parent target cfg)
          as [[[parent' img] layer]|] eqn:Hbuild.
        * destruct (Create (store ic) parent' img layer) as [[id|err] s']
            eqn:Hcreate.
          -- right. exists parent, pre, target, post, parent', img, layer,
               id, s'.
             destruct Hmid as [Hm1 Hm2].
             rewrite He, Hic. by repeat split.
          -- left. rewrite Hic. destruct Hmid as [_ ->]. done.
        * left. rewrite Hic. destruct Hmid as [_ ->]. done. }
  destruct (decide (parentID = "")) as [->|Hne].
  - by apply (Hcase None).
  - destruct (Get (store ic) parentID) as [p|err] eqn:Hget.
    + by apply (Hcase (Some p)).
    + left. unfold q, historyPhase.
      rewrite bool_decide_eq_true_2 by done. by rewrite Hget.
Qed.

(** C9.  What a call of [GetCache] does to the source set is decided by
    the tests of the scan, not by how the call ends.  The source set
    changes only when the first candidate among the sources has more than
    one history entry beyond the parent's and [Create] accepts the image
    restored from it; it is then exactly that source.  A final-step match
    (the first candidate has exactly one entry more than the parent),
    whether [SetParent] succeeds or not, leaves the source set as it was;
    so does a miss (no source is a candidate); and so does a restoration
    that [Create] refuses.  A restoration in mid-history that [Create]
    accepts, unless the call left from the local phase, ends the call with
    the new identity and the source set narrowed to the matched source.
    After that every later call, whatever it asks and whatever happened
    to the store in between, finds and leaves the source set holding that
    one source.  The source set never grows through [GetCache];
    [Populate] appends one image. *)
Theorem GetCache_source_set (fuel : nat) (ic : ImageCache)
  (parentID : string) (cfg : option containertypes.Config)
  (platform : ocispec.Platform) :
  let r := GetCache_exit fuel ic parentID cfg platform in
  let lenHistory parent := length (from_option image.History [] parent) in
  (GetCache fuel ic parentID cfg platform).2 = r.1.2
  /\ (sources r.1.2 = sources ic
      \/ exists parent pre target post parent' img layer id s',
           ExtensionSpec.firstCandidate (store ic) parentID cfg (sources ic)
             parent pre target post
           /\ (Datatypes.S (lenHistory parent)
               < length (image.History target))%nat
           /\ buildRestoredImage parent target cfg
              = Some (parent', img, layer)
           /\ Create (store ic) parent' img layer = (Ok id, s')
           /\ r.1.1 = ExitRestored id target
           /\ r.1.2 = {| sources := [target]; store := s' |})
  /\ (forall parent pre target post,
        ExtensionSpec.firstCandidate (store ic) parentID cfg (sources ic)
          parent pre target post ->
        length (image.History target) = Datatypes.S (lenHistory parent) ->
        sources r.1.2 = sources ic
        /\ forall id t, r.1.1 <> ExitRestored id t)
  /\ (forall parent,
        ExtensionSpec.parentFetched (store ic) parentID parent ->
        Forall (fun t => isCandidate parent (lenHistory parent) cfg t
                         = Some false) (sources ic) ->
        r.1.2 = ic)
  /\ (forall parent pre target post parent' img layer,
        ExtensionSpec.firstCandidate (store ic) parentID cfg (sources ic)
          parent pre target post ->
        (Datatypes.S (lenHistory parent)
         < length (image.History target))%nat ->
        buildRestoredImage parent target cfg = Some (parent', img, layer) ->
        (exists e c1,
           localPhase fuel ic parentID cfg platform = (Some e, c1)
           /\ r = (e, ic, c1))
        \/ match Create (store ic) parent' img layer with
           | (Ok id, s') =>
               r.1.1 = ExitRestored id target
               /\ r.1.2 = {| sources := [target]; store := s' |}
           | (Err _, s') =>
               r.1.2 = {| sources := sources ic; store := s' |}
           end)
  /\ match r.1.1 with
     | ExitRestored _ target =>
         target ∈ sources ic
         /\ sources r.1.2 = [target]
         /\ forall reqs, sources (GetCache_run fuel r.1.2 reqs) = [target]
     | _ => sources r.1.2 = sources ic
     end
  /\ sources r.1.2 ⊆ sources ic
  /\ forall img, sources (Populate ic img) = (sources ic ++ [img])%list.
Proof.
  intros r lenHistory.
  assert (Hstep := GetCache_exit_sources comparePlatform compare fuel ic
                     parentID cfg platform).
  fold r in Hstep. unfold HistorySpec.sourcesAfter in Hstep.
  assert (Hphase := GetCache_exit_phases fuel ic parentID cfg platform).
  fold r in Hphase.
  split.
  { unfold cache.GetCache. fold r. by destruct r as [[? ?] ?]. }
  split.
  { destruct Hphase as [(e & c1 & _ & ->)|(c1 & _ & He & Hic)]; [by left|].
    rewrite He, Hic. apply historyPhase_narrows. }
  split.
  { intros parent pre target post Hfirst Hlast.
    destruct Hphase as [(e & c1 & Hlocal & Hr)|(c1 & _ & He & Hic)].
    - rewrite Hr in *. simpl. split; [done|]. intros id t ->.
      simpl in Hstep. destruct Hstep as [_ Hone].
      unfold cache.localPhase in Hlocal.
      destruct (cache.LocalImageCache_GetCache _ _ _ _ _ _)
        as [[[i [err|]]|] c0]; simplify_eq.
      case_bool_decide; [|done].
      destruct (anyIsParent _ _ _ _) as [[[|]|] c2]; by simplify_eq.
    - destruct (historyPhase_first_candidate _ _ _ _ _ _ _ Hfirst)
        as [He' Hic'].
      rewrite He, Hic, He', Hic'.
      by apply (useCandidate_by_length ic parentID parent cfg target). }
  split.
  { intros parent Hparent Hnone.
    destruct Hphase as [(e & c1 & _ & ->)|(c1 & _ & _ & ->)]; [done|].
    rewrite (historyPhase_scan _ _ _ _ Hparent).
    by rewrite (scanSources_no_candidate _ _ _ _ _ _ Hnone). }
  split.
  { intros parent pre target post parent' img layer Hfirst Hmid Hbuild.
    destruct Hphase as [(e & c1 & Hlocal & Hr)|(c1 & _ & He & Hic)].
    - left. by exists e, c1.
    - right.
      destruct (historyPhase_first_candidate _ _ _ _ _ _ _ Hfirst)
        as [He' Hic'].
      rewrite He, Hic, He', Hic'.
      destruct (useCandidate_by_length ic parentID parent cfg target)
        as [_ Hm].
      specialize (Hm Hmid). rewrite Hbuild in Hm.
      destruct (Create (store ic) parent' img layer) as [[id|err] s'];
        [done|]. by destruct Hm. }
  split.
  { destruct (r.1.1); try done. destruct Hstep as [Hin Hsrc].
    split; [done|]. split; [done|]. intros reqs.
    destruct (r.1.2) as [srcs s]. simpl in Hsrc. subst srcs.
    apply GetCache_run_single. }
  split; [|done].
  destruct (r.1.1); try (by rewrite Hstep).
  destruct Hstep as [Hin Hsrc]. rewrite Hsrc.
  intros x Hx%list_elem_of_singleton. by subst.
Qed.

End SourceSet.

(** C2, as stated, fails: [base] has a locally built child that matches
    the platform and the config, and the local cache returns it; but it
    is not an ancestor of the registered source, so the combined cache
    fetches the parent, scans the source's history and returns a newly
    restored image instead.  And a hit that is an ancestor of a registered
    source is not returned either when the parent links of a source
    registered before it run in a circle: in [cycleChainStore] the hit
    [mid] is one link from [source], and with [looped] registered first
    the ancestry check of [looped] does not come to an end. *)
Lemma GetCache_local_hit_not_returned :
  let cfg := Sample.cfg ["RUN"; "make"] in
  let ic := {| sources := [Sample.source]; store := Sample.localStore |} in
  let ic' := {| sources := [Sample.looped; Sample.source];
                store := Sample.cycleChainStore |} in
  (Children Sample.localStore "sha256:base" = ["sha256:old"; "sha256:new"]
   /\ Get Sample.localStore "sha256:new" = Ok Sample.childNew
   /\ IsBuiltLocally Sample.localStore "sha256:new" = Ok true
   /\ MemStore.comparePlatform Sample.linuxAmd64
        (image.Platform Sample.childNew) = true
   /\ MemStore.compare (image.ContainerConfig Sample.childNew) cfg = true
   /\ (LocalImageCache_GetCache MemStore.comparePlatform MemStore.compare
         Sample.localStore "sha256:base" (Some cfg) Sample.linuxAmd64).1
      = Some ("sha256:new", None)
   /\ (GetCache_exit MemStore.comparePlatform MemStore.compare 8 ic
         "sha256:base" (Some cfg) Sample.linuxAmd64).1.1
      = ExitRestored "restored:FROM scratch;RUN make" Sample.source
   /\ (GetCache MemStore.comparePlatform MemStore.compare 8 ic
         "sha256:base" (Some cfg) Sample.linuxAmd64).1
      = Some ("restored:FROM scratch;RUN make", None))
  /\ ((LocalImageCache_GetCache MemStore.comparePlatform MemStore.compare
         Sample.cycleChainStore "sha256:base" (Some cfg) Sample.linuxAmd64).1
      = Some ("sha256:mid", None)
      /\ GetParent Sample.cycleChainStore "sha256:source" = Ok "sha256:mid"
      /\ GetParent Sample.cycleChainStore "sha256:a" = Ok "sha256:b"
      /\ GetParent Sample.cycleChainStore "sha256:b" = Ok "sha256:a"
      /\ (GetCache_exit MemStore.comparePlatform MemStore.compare 1000 ic'
            "sha256:base" (Some cfg) Sample.linuxAmd64).1.1
         = ExitOutOfFuel
      /\ (GetCache MemStore.comparePlatform MemStore.compare 1000 ic'
            "sha256:base" (Some cfg) Sample.linuxAmd64).1
         = None).
Proof. repeat split; vm_compute; reflexivity. Qed.

Lemma GetCache_local_precedence_witness :
  let cfg := Some (Sample.cfg ["RUN"; "make"]) in
  let ic := {| sources := [Sample.source]; store := Sample.chainStore |} in
  let ic' := {| sources := [Sample.source]; store := Sample.localStore |} in
  (exists fuel,
     GetCache MemStore.comparePlatform MemStore.compare fuel ic "sha256:base"
       cfg Sample.linuxAmd64
     = (Some ("sha256:mid", None), ic))
  /\ (exists fuel,
        (GetCache_exit MemStore.comparePlatform MemStore.compare fuel ic'
           "sha256:base" cfg Sample.linuxAmd64).1.1
        <> ExitFastPath "sha256:new").
Proof.
  intros cfg ic ic'. split.
  - destruct (GetCache_local_precedence MemStore.comparePlatform
                MemStore.compare ic "sha256:base" cfg Sample.linuxAmd64
                "sha256:mid"
                [CallChildren "sha256:base"; CallGet "sha256:mid";
                 CallIsBuiltLocally "sha256:mid"])
      as [Hfast _]; [vm_compute; reflexivity|discriminate|].
    destruct (Hfast [] Sample.source []) as (fuel & c2 & _ & Hrun);
      [reflexivity|constructor|exists 0%nat; reflexivity|].
    exists fuel. by apply Hrun.
  - destruct (GetCache_local_precedence MemStore.comparePlatform
                MemStore.compare ic' "sha256:base" cfg Sample.linuxAmd64
                "sha256:new"
                [CallChildren "sha256:base"; CallGet "sha256:old";
                 CallIsBuiltLocally "sha256:old"; CallGet "sha256:new";
                 CallIsBuiltLocally "sha256:new"])
      as [_ Hscan]; [vm_compute; reflexivity|discriminate|].
    destruct Hscan as (fuel & c2 & _ & Hrun).
    { repeat constructor. exists 0%nat.
      split; [reflexivity|]. intros m Hm. lia. }
    exists fuel. by apply Hrun.
Defined.

(** C3, as stated, fails: [source] matches at its final step on top of
    [mid], the store refuses to record the parent link, and [GetCache]
    returns that failure, not the identity of [source].  Nor does
    [GetCache] return the identity of [source] whenever [SetParent] would
    succeed: in [fastPathStore] the local cache has a hit for [mid] that
    is the parent of the registered [top], and [GetCache] returns that
    hit through the fast path although [source], registered first, is the
    first candidate, at its final step. *)
Lemma GetCache_SetParent_failure_returned :
  let cfg := Some (Sample.cfg ["RUN"; "make"; "install"]) in
  let s := MemStore.failingSetParent Sample.unlinkedStore in
  let ic := {| sources := [Sample.source]; store := s |} in
  let ic' := {| sources := [Sample.source; Sample.top];
                store := Sample.fastPathStore |} in
  (Get s "sha256:mid" = Ok Sample.mid
   /\ isCandidate (Some Sample.mid) (length (image.History Sample.mid)) cfg
        Sample.source = Some true
   /\ (Z.of_nat (length (image.History Sample.source)) - 1
       = Z.of_nat (length (image.History Sample.mid)))%Z
   /\ (SetParent s "sha256:source" "sha256:mid").1
      = Some (StoreError "set parent: input/output error")
   /\ (GetCache MemStore.comparePlatform MemStore.compare 8 ic "sha256:mid"
         cfg Sample.linuxAmd64).1
      = Some ("", Some (Wrapf (StoreError "set parent: input/output error")
                          "failed to set parent for %v to %v"
                          ["sha256:source"; "sha256:mid"])))
  /\ (Get Sample.fastPathStore "sha256:mid" = Ok Sample.mid
      /\ isCandidate (Some Sample.mid) (length (image.History Sample.mid))
           cfg Sample.source = Some true
      /\ (SetParent Sample.fastPathStore "sha256:source" "sha256:mid").1
         = None
      /\ (GetCache MemStore.comparePlatform MemStore.compare 8 ic'
            "sha256:mid" cfg Sample.linuxAmd64)
         = (Some ("sha256:fin", None), ic')).
Proof. repeat split; vm_compute; reflexivity. Qed.

Lemma GetCache_final_step_witness :
  let cfg := Some (Sample.cfg ["RUN"; "make"; "install"]) in
  let ic := {| sources := [Sample.source]; store := Sample.finalStore |} in
  (LocalImageCache_GetCache MemStore.comparePlatform MemStore.compare
     Sample.finalStore "sha256:mid" cfg Sample.linuxAmd64).1
  = Some ("sha256:fin", None)
  /\ exists fuel,
       GetCache MemStore.comparePlatform MemStore.compare fuel ic "sha256:mid"
         cfg Sample.linuxAmd64
       = (Some ("sha256:source", None),
          {| sources := [Sample.source];
             store := MemStore.link Sample.finalStore
                        "sha256:source" "sha256:mid" |}).
Proof.
  intros cfg ic. split; [vm_compute; reflexivity|].
  destruct (GetCache_final_step MemStore.comparePlatform MemStore.compare ic
              "sha256:mid" cfg Sample.linuxAmd64 "sha256:fin"
              [CallChildren "sha256:mid"; CallGet "sha256:fin";
               CallIsBuiltLocally "sha256:fin"]
              Sample.mid Sample.source [] [])
    as (fuel & c1 & _ & Hrun);
    [vm_compute; reflexivity
    |right; repeat constructor; exists 0%nat;
     split; [reflexivity|intros m Hm; lia]
    |discriminate|reflexivity|reflexivity|constructor
    |vm_compute; reflexivity|reflexivity|].
  exists fuel. specialize (Hrun fuel (Nat.le_refl _)).
  replace (SetParent (store ic) (image.computedID Sample.source)
             (image.computedID Sample.mid))
    with (@None error,
          MemStore.link Sample.finalStore "sha256:source" "sha256:mid")
    in Hrun by reflexivity.
  exact (proj2 Hrun).
Defined.

Lemma GetCache_source_set_witness :
  let cfg := Some (Sample.cfg ["RUN"; "make"]) in
  let ic := {| sources := [Sample.threeLayers; Sample.source];
               store := Sample.localStore |} in
  let final := Some (Sample.cfg ["RUN"; "make"; "install"]) in
  let ic' := {| sources := [Sample.threeLayers; Sample.source];
                store := Sample.unlinkedStore |} in
  sources (GetCache MemStore.comparePlatform MemStore.compare 8 ic
             "sha256:base" cfg Sample.linuxAmd64).2
  = [Sample.source]
  /\ sources (GetCache MemStore.comparePlatform MemStore.compare 8 ic'
                "sha256:mid" final Sample.linuxAmd64).2
     = [Sample.threeLayers; Sample.source].
Proof.
  intros cfg ic final ic'. split.
  - destruct (GetCache_source_set MemStore.comparePlatform MemStore.compare 8
                ic "sha256:base" cfg Sample.linuxAmd64)
      as (-> & _ & _ & _ & Hmid & _).
    edestruct (Hmid (Some Sample.base) [Sample.threeLayers] Sample.source [])
      as [(e & c1 & Hlocal & _)|Hok].
    + repeat split; try reflexivity; try discriminate.
      * repeat constructor.
      * by exists (Sample.cfg ["RUN"; "make"]), Sample.h1.
    + simpl. lia.
    + vm_compute. reflexivity.
    + vm_compute in Hlocal. discriminate.
    + destruct (Create _ _ _ _) as [[id|err] s'] eqn:Hcreate in Hok;
        [|vm_compute in Hcreate; discriminate].
      destruct Hok as [_ ->]. reflexivity.
  - destruct (GetCache_source_set MemStore.comparePlatform MemStore.compare 8
                ic' "sha256:mid" final Sample.linuxAmd64)
      as (-> & _ & Hlast & _).
    apply (Hlast (Some Sample.mid) [Sample.threeLayers] Sample.source []).
    + repeat split; try reflexivity; try discriminate.
      * repeat constructor.
      * by exists (Sample.cfg ["RUN"; "make"; "install"]), Sample.h2.
    + reflexivity.
Defined.
